(** * cpumarks: the CPU-mark lookup of [marklookup/get_mark_of_cpu.py]

    A shallow embedding of class [CpuAssessor] and of [get_mark_json],
    followed by the properties of the specification that were checked
    against it.

    Conventions of the embedding.
    - A Python [str] is a Rocq [string]; a character is a code point in
      the range 0..255 and the character classes of Python ([\d], [\w],
      white space) are those of Python 3 restricted to that range.
    - A Python [int] is a [Z]; a Python [float] is a primitive binary64
      [float] (same format, same rounding as CPython's C doubles).
    - A Python [set] of strings is a [gset string].
    - A Python [dict] keeps its insertion order, and the order is observable
      (candidate lists, "first such candidate"): it is an association list
      with unique keys, see [Module Dict].
    - Class attributes of [CpuAssessor] are a record threaded through a
      state-and-exception monad, see [Module Py].
    - Regular expressions are values of type [regex], written after
      the pattern strings of the source and run by a backtracking matcher
      that lists the matches in the order Python's engine tries them. *)

From Stdlib Require Import ZArith Ascii String Floats.
From stdpp Require Import gmap strings list sorting pretty.

Local Open Scope string_scope.
Local Open Scope Z_scope.

#[local] Set Warnings "-clear-no-such-hyp".

(** ** Characters *)

Module Chr.

Definition code (c : ascii) : nat := nat_of_ascii c.

Definition in_range (lo hi : nat) (c : ascii) : bool :=
  ((lo <=? code c) && (code c <=? hi))%nat.

(** [\d]: the decimal digits. *)
Definition is_digit (c : ascii) : bool := in_range 48 57 c.

(** [[A-Z]] *)
Definition is_upper (c : ascii) : bool := in_range 65 90 c.

(** [\w]: alphanumeric characters and the underscore.  Above 127 Python
    counts the Latin-1 letters and the digit-like signs. *)
Definition is_word (c : ascii) : bool :=
  is_digit c || is_upper c || in_range 97 122 c || (code c =? 95)%nat
  || (code c =? 170)%nat || in_range 178 179 c || (code c =? 181)%nat
  || in_range 185 186 c || in_range 188 190 c
  || in_range 192 214 c || in_range 216 246 c || in_range 248 255 c.

(** What [str.strip()] removes. *)
Definition is_space (c : ascii) : bool :=
  in_range 9 13 c || in_range 28 32 c || (code c =? 133)%nat || (code c =? 160)%nat.

(** What [int()] accepts around a literal. *)
Definition is_int_space (c : ascii) : bool :=
  in_range 9 13 c || (code c =? 32)%nat || (code c =? 133)%nat || (code c =? 160)%nat.

Definition newline : ascii := ascii_of_nat 10.

(** [.] of a regular expression (no DOTALL flag): anything but a line feed. *)
Definition is_dot (c : ascii) : bool := negb (code c =? 10)%nat.

(** The class [[ \-;,@]] of the tokenizer. *)
Definition is_sep (c : ascii) : bool :=
  (code c =? 32)%nat || (code c =? 45)%nat || (code c =? 59)%nat
  || (code c =? 44)%nat || (code c =? 64)%nat.

End Chr.

(** ** String methods of Python used by the program *)

Module Str.

Definition is_empty (s : string) : bool :=
  match s with EmptyString => true | String _ _ => false end.

(** [s.startswith(p)] *)
Definition startswith (p s : string) : bool := String.prefix p s.

(** [sub in s] *)
Fixpoint contains (sub s : string) : bool :=
  if String.prefix sub s then true
  else match s with
       | EmptyString => false
       | String _ s' => contains sub s'
       end.

(** [s.replace(old, new)] for a non-empty [old]: occurrences are replaced
    from left to right and do not overlap.  [skip] counts the characters of
    an occurrence that are still to be dropped. *)
Fixpoint replace_go (old new : string) (skip : nat) (s : string) : string :=
  match s with
  | EmptyString => EmptyString
  | String c s' =>
      match skip with
      | S k => replace_go old new k s'
      | O => if String.prefix old s
             then new +:+ replace_go old new (Nat.pred (String.length old)) s'
             else String c (replace_go old new O s')
      end
  end.

(** With an empty [old] Python puts [new] before every character and at
    the end. *)
Fixpoint interleave (new s : string) : string :=
  match s with
  | EmptyString => new
  | String c s' => new +:+ String c (interleave new s')
  end.

Definition replace (old new s : string) : string :=
  if is_empty old then interleave new s else replace_go old new O s.

(** [s.split(sep)[0]] for a non-empty [sep]: the text before the first
    occurrence of [sep], the whole of [s] when there is none.  (Python
    raises on an empty separator; the program has none.) *)
Fixpoint split0 (sep s : string) : string :=
  if String.prefix sep s then EmptyString
  else match s with
       | EmptyString => EmptyString
       | String c s' => String c (split0 sep s')
       end.

(** Removal of the leading and of the trailing characters of a class. *)
Fixpoint lstrip_by (p : ascii -> bool) (s : string) : string :=
  match s with
  | EmptyString => EmptyString
  | String c s' => if p c then lstrip_by p s' else s
  end.

Fixpoint rstrip_by (p : ascii -> bool) (s : string) : string :=
  match s with
  | EmptyString => EmptyString
  | String c s' =>
      let r := rstrip_by p s' in
      if p c && is_empty r then EmptyString else String c r
  end.

Definition strip_by (p : ascii -> bool) (s : string) : string :=
  rstrip_by p (lstrip_by p s).

(** [s.strip()] *)
Definition strip (s : string) : string := strip_by Chr.is_space s.

(** [sep.join(l)] *)
Fixpoint join (sep : string) (l : list string) : string :=
  match l with
  | [] => EmptyString
  | [a] => a
  | a :: l' => a +:+ sep +:+ join sep l'
  end.

(** All characters of [s] satisfy [p]. *)
Fixpoint all (p : ascii -> bool) (s : string) : bool :=
  match s with
  | EmptyString => true
  | String c s' => p c && all p s'
  end.

(** [set(s)]: the set of the one-character strings of [s]. *)
Fixpoint chars (s : string) : gset string :=
  match s with
  | EmptyString => ∅
  | String c s' => {[ String c EmptyString ]} ∪ chars s'
  end.

(** [sorted(l)] on strings: ascending by code points. *)
Definition le (a b : string) : Prop := String.leb a b = true.

#[export] Instance le_dec : RelDecision le.
Proof. intros a b. unfold le. apply _. Defined.

Definition sorted (l : list string) : list string := merge_sort le l.

(** [os.path.basename(p)] on POSIX: what follows the last slash. *)
Fixpoint basename (p : string) : string :=
  match p with
  | EmptyString => EmptyString
  | String c p' =>
      if contains "/" p' then basename p'
      else if (Chr.code c =? 47)%nat then p' else p
  end.

End Str.

(** ** Regular expressions *)

Module Re.

(** The fragment of Python's [re] syntax the program uses.  Repetition
    only ever applies to a character class in the source's patterns, so
    [Rep p lo hi] is the greedy [p{lo,hi}] ([hi = None] for no bound):
    [p*] is [Rep p 0 None] and [p+] is [Rep p 1 None]. *)
Inductive regex : Type :=
| Bol                                   (* ^ *)
| Eol                                   (* $ *)
| Lit (s : string)                      (* literal text *)
| Cls (p : ascii -> bool)               (* one character of a class *)
| Rep (p : ascii -> bool) (lo : nat) (hi : option nat)
| Seq (r1 r2 : regex)
| Alt (r1 r2 : regex)                   (* r1|r2 *)
| Grp (name : string) (r : regex).      (* (?P<name>r) *)

(** Named groups of a match, last capture first. *)
Definition groups : Type := list (string * string).

Fixpoint group (name : string) (g : groups) : string :=
  match g with
  | [] => EmptyString
  | (n, v) :: g' => if String.eqb n name then v else group name g'
  end.

(** Drop the first [n] characters. *)
Fixpoint drop (n : nat) (s : string) : string :=
  match n, s with
  | S k, String _ s' => drop k s'
  | _, _ => s
  end.

Definition hi_open (hi : option nat) : bool :=
  match hi with Some O => false | _ => true end.

(** The ways [p{lo,hi}] can match at the head of [s], as pairs (matched
    text, rest), longest first: the order in which a greedy repetition
    gives characters back. *)
Fixpoint rep (p : ascii -> bool) (lo : nat) (hi : option nat) (s : string)
  : list (string * string) :=
  let stop := match lo with O => [(EmptyString, s)] | S _ => [] end in
  match s with
  | String c s' =>
      if p c && hi_open hi
      then map (fun m => (String c m.1, m.2)) (rep p (Nat.pred lo) (Nat.pred <$> hi) s')
             ++ stop
      else stop
  | EmptyString => stop
  end.

(** A match in progress: the text matched by the expression, the rest of
    the subject, the groups so far. *)
Definition result : Type := string * string * groups.

(** All matches of [r] at the head of [s], in backtracking order.
    [at0] tells whether the head of [s] is the start of the subject. *)
Fixpoint ms (r : regex) (at0 : bool) (s : string) (g : groups) : list result :=
  match r with
  | Bol => if at0 then [(EmptyString, s, g)] else []
  | Eol =>
      (* without MULTILINE: at the end, or before a final line feed *)
      match s with
      | EmptyString => [(EmptyString, s, g)]
      | String c EmptyString =>
          if (Chr.code c =? 10)%nat then [(EmptyString, s, g)] else []
      | _ => []
      end
  | Lit l =>
      if String.prefix l s then [(l, drop (String.length l) s, g)] else []
  | Cls p =>
      match s with
      | String c s' => if p c then [(String c EmptyString, s', g)] else []
      | EmptyString => []
      end
  | Rep p lo hi => map (fun m => (m.1, m.2, g)) (rep p lo hi s)
  | Seq r1 r2 =>
      flat_map
        (fun m1 : result =>
           map (fun m2 : result => (m1.1.1 +:+ m2.1.1, m2.1.2, m2.2))
               (ms r2 (at0 && Str.is_empty m1.1.1) m1.1.2 m1.2))
        (ms r1 at0 s g)
  | Alt r1 r2 => ms r1 at0 s g ++ ms r2 at0 s g
  | Grp name r1 =>
      map (fun m : result => (m.1.1, m.1.2, (name, m.1.1) :: m.2)) (ms r1 at0 s g)
  end.

(** [re.match(r, s)]: the first match at the start of [s], if any; of the
    match the program only reads [groupdict()]. *)
Definition re_match (r : regex) (s : string) : option groups :=
  match ms r true s [] with
  | [] => None
  | m :: _ => Some m.2
  end.

(** The length of the first non-empty match of [r] at the head of [s]. *)
Definition match_len (r : regex) (at0 : bool) (s : string) : option nat :=
  match ms r at0 s [] with
  | m :: _ =>
      match String.length m.1.1 with
      | O => None
      | S n => Some n
      end
  | [] => None
  end.

(** [re.split(r, s)] for an expression that matches no empty text (the
    program's only one is [[ \-;,@]+]): the pieces of [s] between the
    successive leftmost matches.  [cur] is the piece being read, [skip]
    the number of characters of the current match still to pass. *)
Fixpoint split_go (r : regex) (at0 : bool) (skip : nat) (cur : string) (s : string)
  : list string :=
  match s with
  | EmptyString => [cur]
  | String c s' =>
      match skip with
      | S k => split_go r false k cur s'
      | O =>
          match match_len r at0 s with
          | Some n => cur :: split_go r false n EmptyString s'
          | None => split_go r false O (cur +:+ String c EmptyString) s'
          end
      end
  end.

Definition re_split (r : regex) (s : string) : list string :=
  split_go r true O EmptyString s.

End Re.

(** The five patterns of the source. *)
Module Pat.
Import Re.

(** [r'[ \-;,@]+'] *)
Definition separators : regex := Rep Chr.is_sep 1 None.

(** [r'^(?P<D>\d+)(?P<L>\w+)$'] *)
Definition digits_letters : regex :=
  Seq Bol (Seq (Grp "D" (Rep Chr.is_digit 1 None))
               (Seq (Grp "L" (Rep Chr.is_word 1 None)) Eol)).

(** [r'^(?P<D>\d+)$'] *)
Definition digits : regex :=
  Seq Bol (Seq (Grp "D" (Rep Chr.is_digit 1 None)) Eol).

(** The pattern of the vendor step: any text, then the named group
    keep made of Intel or AMD followed by any text.  The inner group
    around the alternative has no name and is never read. *)
Definition vendor : regex :=
  Seq (Rep Chr.is_dot 0 None)
      (Grp "keep" (Seq (Alt (Lit "Intel") (Lit "AMD")) (Rep Chr.is_dot 0 None))).

(** The pattern of the model code: any text, then the named group model
    made of one capital letter and one to four digits, then any text. *)
Definition model : regex :=
  Seq (Rep Chr.is_dot 0 None)
      (Seq (Grp "model" (Seq (Cls Chr.is_upper) (Rep Chr.is_digit 1 (Some 4%nat))))
           (Rep Chr.is_dot 0 None)).

End Pat.

(** ** Dictionaries in insertion order *)

Module Dict.

Definition dict (V : Type) : Type := list (string * V).

(** [d.get(k)] *)
Fixpoint get {V : Type} (d : dict V) (k : string) : option V :=
  match d with
  | [] => None
  | (k', v) :: d' => if String.eqb k' k then Some v else get d' k
  end.

(** [d.get(k, dflt)] *)
Definition get_default {V : Type} (d : dict V) (k : string) (dflt : V) : V :=
  match get d k with Some v => v | None => dflt end.

(** [d[k] = v]: a key already present keeps its place, a new key goes
    to the end. *)
Fixpoint set {V : Type} (k : string) (v : V) (d : dict V) : dict V :=
  match d with
  | [] => [(k, v)]
  | (k', v') :: d' =>
      if String.eqb k' k then (k, v) :: d' else (k', v') :: set k v d'
  end.

(** A dict comprehension [{key(i): val(i) for i in items}]. *)
Definition of_items {V : Type} (items : list (string * V)) : dict V :=
  fold_left (fun d kv => set kv.1 kv.2 d) items [].

Definition keys {V : Type} (d : dict V) : list string := map fst d.

End Dict.

(** ** The tokenizer: [CpuAssessor._keytoset] *)

(** One turn of the loop [for t in li] on the set [s] built so far. *)
Definition keytoset_step (s : gset string) (t : string) : gset string :=
  if Str.is_empty t || Str.contains "Duo" t then s
  else
    match Re.re_match Pat.digits t, Re.re_match Pat.digits_letters t with
    | None, Some m =>
        (s ∪ {[ Re.group "D" m ]}) ∪ Str.chars (Re.group "L" m)
    | _, _ => s ∪ {[ t ]}
    end.

Definition keytoset (k : string) : gset string :=
  let li := Re.re_split Pat.separators k in
  fold_left keytoset_step li ∅.

(** ** The reference data held by the class *)

(** [MatchStep], in declaration order. *)
Inductive MatchStep : Type :=
| FAILED | SIMPLE_0 | SIMPLE_1 | SIMPLE_2 | SIMPLE_3
| CLEVER_1 | CLEVER_2 | CLEVER_3_1 | CLEVER_3_2 | DESPERATE_1.

#[export] Instance MatchStep_eq_dec : EqDecision MatchStep.
Proof. solve_decision. Defined.

(** [meth.name] *)
Definition MatchStep_name (m : MatchStep) : string :=
  match m with
  | FAILED => "FAILED" | SIMPLE_0 => "SIMPLE_0" | SIMPLE_1 => "SIMPLE_1"
  | SIMPLE_2 => "SIMPLE_2" | SIMPLE_3 => "SIMPLE_3" | CLEVER_1 => "CLEVER_1"
  | CLEVER_2 => "CLEVER_2" | CLEVER_3_1 => "CLEVER_3_1"
  | CLEVER_3_2 => "CLEVER_3_2" | DESPERATE_1 => "DESPERATE_1"
  end.

Definition all_steps : list MatchStep :=
  [FAILED; SIMPLE_0; SIMPLE_1; SIMPLE_2; SIMPLE_3;
   CLEVER_1; CLEVER_2; CLEVER_3_1; CLEVER_3_2; DESPERATE_1].

(** A value of [__marks] and [__marksnoat]: the pair (mark, line). *)
Definition markline : Type := Z * Z.

(** A value of [__markswithsets]: the dict with keys toks and mark. *)
Record withset : Type := { toks : gset string; mark : markline }.

(** The three class attributes [_nmatch] reads. *)
Record index : Type := {
  marks : Dict.dict markline;            (* __marks *)
  markswithsets : Dict.dict withset;     (* __markswithsets *)
  marksnoat : Dict.dict markline         (* __marksnoat *)
}.

(** ** The cascade: [CpuAssessor._nmatch] *)

(** An element of the list [det].  The source formats these values into
    text; the text of a set lists its elements in hash order, which
    changes from one process to the next, so the embedding keeps the
    values that are formatted. *)
Inductive diag : Type :=
| DiagTokens (x : string) (mys : gset string)     (* the query and its tokens *)
| DiagCandidates (l : list string).

(** What [_nmatch] returns: the mark, the triple (step, line, name), the
    list [det]. *)
Definition answer : Type := Z * (MatchStep * Z * string) * list diag.

Definition answer_mark (a : answer) : Z := a.1.1.
Definition answer_step (a : answer) : MatchStep := a.1.2.1.1.
Definition answer_line (a : answer) : Z := a.1.2.1.2.
Definition answer_name (a : answer) : string := a.1.2.2.
Definition answer_det (a : answer) : list diag := a.2.

(** Truth value of an [int]. *)
Definition truthy (z : Z) : bool := negb (z =? 0).

(** The three [replace] calls. *)
Definition strip_markers (x : string) : string :=
  Str.replace " CPU" EmptyString
    (Str.replace "(TM)" EmptyString (Str.replace "(R)" EmptyString x)).

(** The [re.match] on the vendor pattern and the assignment under [if m]. *)
Definition vendor_step (cx : string) : string :=
  match Re.re_match Pat.vendor cx with
  | Some m => Re.group "keep" m
  | None => cx
  end.

(** [cx] as looked up for SIMPLE_1. *)
Definition simple1_key (x : string) : string :=
  let cx := strip_markers x in
  let cx := vendor_step cx in
  let cx := Str.strip (Str.split0 "w/" cx) in
  Str.split0 "," cx.

(** [cx] as looked up for SIMPLE_2 and SIMPLE_3. *)
Definition simple2_key (x : string) : string :=
  let cx := simple1_key x in
  if Str.startswith "AMD" cx then Str.split0 " with" cx else cx.

Definition candidates1 (idx : index) (mys : gset string) : list string :=
  map fst (List.filter (fun kv => bool_decide (toks kv.2 ⊆ mys)) (markswithsets idx)).

Definition threshold2 (x : string) : nat :=
  if Str.contains "AMD" x then 3%nat else 4%nat.

Definition candidates2 (idx : index) (x : string) (mys : gset string) : list string :=
  map fst (List.filter (fun kv => (threshold2 x <=? size (mys ∩ toks kv.2))%nat)
                       (markswithsets idx)).

Definition candidates3 (idx : index) (x : string) (mys : gset string) : list string :=
  List.filter (fun c => bool_decide (mys ⊂ keytoset c)) (candidates2 idx x mys).

(** The test of the loop [for c in candidates3]. *)
Definition token_equal (mys : gset string) (c : string) : bool :=
  bool_decide (keytoset (Str.strip (Str.split0 "@" c)) = mys).

Definition candidates4 (idx : index) (model : string) : list string :=
  map fst (List.filter (fun kv => bool_decide (model ∈ toks kv.2)) (markswithsets idx)).

(** The return statement of a tier that accepts candidate [c]. *)
Definition accept (idx : index) (step : MatchStep) (c : string) : answer :=
  let ret := Dict.get_default (marks idx) c (0, 0) in
  (ret.1, (step, ret.2, c), []).

Definition nmatch (idx : index) (x : string) : answer :=
  let det : list diag := [] in
  let ret := Dict.get_default (marksnoat idx) x (0, 0) in
  if truthy ret.1 then (ret.1, (SIMPLE_0, ret.2, x), det) else
  let cx := simple1_key x in
  let ret := Dict.get_default (marks idx) cx (0, 0) in
  if truthy ret.1 then (ret.1, (SIMPLE_1, ret.2, cx), det) else
  let cx := simple2_key x in
  let ret := Dict.get_default (marks idx) cx (0, 0) in
  if truthy ret.1 then (ret.1, (SIMPLE_2, ret.2, cx), det) else
  let ret := Dict.get_default (marksnoat idx) cx (0, 0) in
  if truthy ret.1 then (ret.1, (SIMPLE_3, ret.2, cx), det) else
  let x := strip_markers x in
  let mys := keytoset x in
  let c1 := candidates1 idx mys in
  match c1 with [c] => accept idx CLEVER_1 c | _ =>
  let c2 := candidates2 idx x mys in
  match c2 with [c] => accept idx CLEVER_2 c | _ =>
  let c3 := candidates3 idx x mys in
  match c3 with [c] => accept idx CLEVER_3_1 c | _ =>
  match List.find (token_equal mys) c3 with Some c => accept idx CLEVER_3_2 c | None =>
  let failed (c4 : list string) : answer :=
    (0, (FAILED, 0, EmptyString),
     (det ++ [DiagTokens x mys; DiagCandidates c1; DiagCandidates c2;
              DiagCandidates c3; DiagCandidates c4])%list) in
  match Re.re_match Pat.model x with
  | Some m =>
      let c4 := candidates4 idx (Re.group "model" m) in
      match c4 with [c] => accept idx DESPERATE_1 c | _ => failed c4 end
  | None => failed []
  end end end end end.

(** ** Exceptions and class state *)

Module Py.

Inductive exn : Type :=
| RuntimeError (msg : string)
| TypeError
| ValueError
| OSError
| ZeroDivisionError
| OverflowError.

Inductive outcome (A : Type) : Type :=
| Ok (a : A)
| Raise (e : exn).
Arguments Ok {A} a.
Arguments Raise {A} e.

(** The class attributes of [CpuAssessor]. *)
Record klass : Type := {
  is_initialized : bool;               (* __is_initialized *)
  data : index
}.

#[export] Instance outcome_ret : MRet outcome := fun A a => Ok a.

#[export] Instance outcome_bind : MBind outcome := fun A B f o =>
  match o with
  | Ok a => f a
  | Raise e => Raise e
  end.

(** A computation that reads and writes the class attributes and ends
    normally or with an exception; the attributes written before an
    exception stay written. *)
Definition M (A : Type) : Type := klass -> klass * outcome A.

#[export] Instance M_ret : MRet M := fun A a st => (st, Ok a).

#[export] Instance M_bind : MBind M := fun A B f m st =>
  match m st with
  | (st', Ok a) => f a st'
  | (st', Raise e) => (st', Raise e)
  end.

Definition raise {A : Type} (e : exn) : M A := fun st => (st, Raise e).
Definition get : M klass := fun st => (st, Ok st).
Definition modify (f : klass -> klass) : M unit := fun st => (f st, Ok tt).

(** A pure computation that may raise. *)
Definition lift {A : Type} (o : outcome A) : M A := fun st => (st, o).

(** [try: body except Exception as e: handler(e)] *)
Definition try {A : Type} (body : M A) (handler : exn -> M A) : M A := fun st =>
  match body st with
  | (st', Ok a) => (st', Ok a)
  | (st', Raise e) => handler e st'
  end.

(** [int(s)] for a string: optional white space around an optional sign
    and decimal digits, where single underscores may separate digits. *)
Definition digit_value (c : ascii) : Z := Z.of_nat (Chr.code c) - 48.

Fixpoint int_digits (s : string) (acc : Z) (after_digit : bool) : option Z :=
  match s with
  | EmptyString => if after_digit then Some acc else None
  | String c s' =>
      if Chr.is_digit c then int_digits s' (10 * acc + digit_value c) true
      else if (Chr.code c =? 95)%nat && after_digit then int_digits s' acc false
      else None
  end.

Definition int_of_string (s : string) : option Z :=
  match Str.strip_by Chr.is_int_space s with
  | String c s' =>
      if (Chr.code c =? 45)%nat then Z.opp <$> int_digits s' 0 false
      else if (Chr.code c =? 43)%nat then int_digits s' 0 false
      else int_digits (String c s') 0 false
  | EmptyString => None
  end.

(** [int(m)] on a field of a row: [None] is not a number at all. *)
Definition int (m : option string) : outcome Z :=
  match m with
  | None => Raise TypeError
  | Some s =>
      match int_of_string s with
      | Some z => Ok z
      | None => Raise ValueError
      end
  end.

(** [str(z)] *)
Definition str (z : Z) : string := pretty z.

End Py.
Export Py.

(** ** Building the reference data: [CpuAssessor.init] *)

(** A row as [csv.DictReader] yields it: a value for every column of the
    header, [None] where the line of the file stops short. *)
Definition row : Type := gmap string (option string).

(** What [open] and [csv.DictReader] give for a path: no rows at all when
    the file cannot be opened. *)
Definition files : Type := string -> option (list row).

Definition name_column_error : exn :=
  RuntimeError "Unable to guess which column has the name of the CPU".

Definition mark_column_error : exn :=
  RuntimeError "Unable to guess which column has the mark of the CPU".

(** The nested [try: r['name'] except KeyError: ...]. *)
Definition row_name (r : row) : outcome (option string) :=
  match r !! "name" with
  | Some v => Ok v
  | None =>
      match r !! "NAME" with
      | Some v => Ok v
      | None =>
          match r !! "CPUNAME" with
          | Some v => Ok v
          | None => Raise name_column_error
          end
      end
  end.

(** The nested [try: r['cpumark'] except KeyError: ...]. *)
Definition row_mark (r : row) : outcome (option string) :=
  match r !! "cpumark" with
  | Some v => Ok v
  | None =>
      match r !! "CPUMARK" with
      | Some v => Ok v
      | None => Raise mark_column_error
      end
  end.

(** ['Intel' in nam or 'AMD' in nam] *)
Definition has_vendor (nam : string) : bool :=
  Str.contains "Intel" nam || Str.contains "AMD" nam.

(** [CpuAssessor.__marks[nam] = v] *)
Definition set_mark (nam : string) (v : markline) : M unit :=
  modify (fun st =>
    {| is_initialized := is_initialized st;
       data := {| marks := Dict.set nam v (marks (data st));
                  markswithsets := markswithsets (data st);
                  marksnoat := marksnoat (data st) |} |}).

(** The body of [for r in reader_], the increment of [line] apart. *)
Definition init_row (r : row) (line : Z) : M unit :=
  nam ← lift (row_name r);
  match nam with
  | None => raise TypeError
  | Some nam =>
      if has_vendor nam then
        m ← lift (row_mark r);
        v ← lift (Py.int m);
        set_mark nam (v, line)
      else mret tt
  end.

Fixpoint init_rows (rows : list row) (line : Z) : M unit :=
  match rows with
  | [] => mret tt
  | r :: rows' => init_row r line;; init_rows rows' (line + 1)
  end.

(** The comprehension that gives [__marksnoat]. *)
Definition derive_noat (m : Dict.dict markline) : Dict.dict markline :=
  Dict.of_items
    (map (fun kv => (Str.strip (Str.split0 "@" kv.1), kv.2))
         (List.filter (fun kv => Str.contains "@" kv.1) m)).

(** The comprehension that gives [__markswithsets]. *)
Definition derive_withsets (m : Dict.dict markline) : Dict.dict withset :=
  Dict.of_items (map (fun kv => (kv.1, {| toks := keytoset kv.1; mark := kv.2 |})) m).

Definition derive : M unit :=
  modify (fun st =>
    {| is_initialized := is_initialized st;
       data := {| marks := marks (data st);
                  markswithsets := derive_withsets (marks (data st));
                  marksnoat := derive_noat (marks (data st)) |} |}).

Definition init (fs : files) (marksfile : string) : M unit :=
  st ← get;
  if is_initialized st then mret tt
  else
    match fs marksfile with
    | None => raise OSError
    | Some rows => init_rows rows 2;; derive
    end.

(** [CpuAssessor(mf)] *)
Definition CpuAssessor (fs : files) (mf : string) : M unit :=
  init fs mf;;
  modify (fun st => {| is_initialized := true; data := data st |}).

(** [CpuAssessor.assess] *)
Definition assess (cpu : string) : M answer :=
  st ← get;
  if negb (is_initialized st)
  then raise (RuntimeError "Class CpuAssessor must be initialized before use")
  else mret (nmatch (data st) cpu).

(** The class as the interpreter creates it. *)
Definition fresh : klass :=
  {| is_initialized := false;
     data := {| marks := []; markswithsets := []; marksnoat := [] |} |}.

(** ** [get_mark_json] *)

(** The dict handed to [json.dumps]: [Reply] is the dict of the [try]
    branch (its entry error is false), [ReplyError] the dict of the
    handler (error true, with the exception for its message). *)
Inductive reply : Type :=
| Reply (mark cpustr hint cpuscsv linenum line : string) (details : list diag)
| ReplyError (e : exn).

Definition get_mark_json (fs : files) (cpu_str marksfile : string) : M reply :=
  try (CpuAssessor fs marksfile;;
       a ← assess cpu_str;
       mret (Reply (Py.str (answer_mark a)) cpu_str
                   (MatchStep_name (answer_step a))
                   (Str.basename marksfile)
                   (Py.str (answer_line a))
                   (answer_name a)
                   (answer_det a)))
      (fun e => mret (ReplyError e)).

(** ** The calibration harness: [CpuAssessor.test] *)

Module Stat.

Local Open Scope float_scope.

(** Conversion of an [int] operand to [float], as in [float(n)] and in
    mixed arithmetic: to the nearest double, ties to even; too large a
    number raises. *)
Definition of_int (z : Z) : outcome float :=
  let f := SF2Prim (binary_normalize prec emax z 0%Z false) in
  if is_infinity f then Raise OverflowError else Ok f.

(** [int(f)]: truncation towards zero. *)
Definition to_int (f : float) : outcome Z :=
  match Prim2SF f with
  | S754_nan => Raise ValueError
  | S754_infinity _ => Raise OverflowError
  | S754_zero _ => Ok 0%Z
  | S754_finite s m e =>
      let a := (if 0 <=? e then Z.pos m * 2 ^ e else Z.pos m / 2 ^ (- e))%Z in
      Ok (if s then (- a)%Z else a)
  end.

(** [a / b] on floats. *)
Definition div (a b : float) : outcome float :=
  if is_zero b then Raise ZeroDivisionError else Ok (a / b).

(** [sum(l)] on floats: additions from the left, starting from zero.
    (Recent versions of Python add with a correction term; the results
    agree whenever the partial sums are exact, as they are for marks.) *)
Definition sum (l : list float) : float := fold_left PrimFloat.add l 0.

(** [min(l)] and [max(l)]: the first smallest, the first largest. *)
Definition min (l : list float) : outcome float :=
  match l with
  | [] => Raise ValueError
  | a :: l' => Ok (fold_left (fun best x => if x <? best then x else best) l' a)
  end.

Definition max (l : list float) : outcome float :=
  match l with
  | [] => Raise ValueError
  | a :: l' => Ok (fold_left (fun best x => if best <? x then x else best) l' a)
  end.

(** [x ** 2]: raises when the square is out of range. *)
Definition square (x : float) : outcome float :=
  let y := x * x in
  if is_infinity y && negb (is_infinity x) then Raise OverflowError else Ok y.

Fixpoint mapM {A B : Type} (f : A -> outcome B) (l : list A) : outcome (list B) :=
  match l with
  | [] => Ok []
  | a :: l' => b ← f a; bs ← mapM f l'; Ok (b :: bs)
  end.

(** [abs((100.0 * (int(ma) - ref)) / ref)] *)
Definition deltapc (ma ref : Z) : outcome float :=
  d ← of_int (ma - ref);
  r ← of_int ref;
  q ← div (100 * d) r;
  Ok (abs q).

(** The values computed under [if ma:]. *)
Record figures : Type := {
  avg_ : Z; min_ : Z; max_ : Z;
  deltapcmin_ : float; deltapcmax_ : float; deltapcavg_ : float;
  sd_ : float
}.

Definition compute_figures (ma : Z) (ourmarks : list (Z * string)) : outcome figures :=
  lmarks ← mapM (fun o => of_int o.1) ourmarks;
  n ← of_int (Z.of_nat (length ourmarks));
  mean ← div (sum lmarks) n;
  avg ← to_int mean;
  lo ← min lmarks;
  mn ← to_int lo;
  hi ← max lmarks;
  mx ← to_int hi;
  dmin ← deltapc ma mn;
  dmax ← deltapc ma mx;
  davg ← deltapc ma avg;
  favg ← of_int avg;
  sq ← mapM (fun x => square (x - favg)) lmarks;
  variance ← div (sum sq) n;
  Ok {| avg_ := avg; min_ := mn; max_ := mx;
        deltapcmin_ := dmin; deltapcmax_ := dmax; deltapcavg_ := davg;
        sd_ := sqrt variance |}.

(** [deltapcavg_ <= threshold] *)
Definition within (fig : figures) (threshold : float) : bool :=
  deltapcavg_ fig <=? threshold.

(** The first [if] under the figures. *)
Definition is_weird (fig : figures) (threshold : float) : bool :=
  (deltapcavg_ fig <=? threshold)
  && negb ((deltapcmin_ fig <=? threshold) && (deltapcmax_ fig <=? threshold)).

(** The local variables of [test] that the loop updates. *)
Record locals : Type := {
  nhit : nat; nmiss : nat; ncorrect : nat; nfalse : nat; weird_ : nat;
  missed : list (string * list (Z * string));
  stats : Dict.dict nat;
  failures : list string
}.

Definition start : locals :=
  {| nhit := 0; nmiss := 0; ncorrect := 0; nfalse := 0; weird_ := 0;
     missed := [];
     stats := Dict.of_items (map (fun m => (MatchStep_name m, 0%nat)) all_steps);
     failures := [] |}.

Definition count (b : bool) : nat := if b then 1%nat else 0%nat.

(** One turn of [for nam, ourmarks in ournames.items()].  Printing and
    logging leave no trace in the values and are left out. *)
Definition turn (idx : index) (threshold : float) (l : locals)
           (item : string * list (Z * string)) : outcome locals :=
  let nam := item.1 in
  let ourmarks := item.2 in
  let a := nmatch idx nam in
  let ma := answer_mark a in
  let meth := answer_step a in
  let stats' :=
    Dict.set (MatchStep_name meth)
             (S (Dict.get_default (stats l) (MatchStep_name meth) 0%nat)) (stats l) in
  let failures' :=
    if decide (meth = FAILED) then (failures l ++ [nam])%list else failures l in
  if truthy ma then
    fig ← compute_figures ma ourmarks;
    Ok {| nhit := S (nhit l); nmiss := nmiss l;
          ncorrect := (ncorrect l + count (within fig threshold))%nat;
          nfalse := (nfalse l + count (negb (within fig threshold)))%nat;
          weird_ := (weird_ l + count (is_weird fig threshold))%nat;
          missed := missed l; stats := stats'; failures := failures' |}
  else
    Ok {| nhit := nhit l; nmiss := S (nmiss l);
          ncorrect := ncorrect l; nfalse := nfalse l; weird_ := weird_ l;
          missed := (missed l ++ [(nam, map (fun o => (o.1, o.2)) ourmarks)])%list;
          stats := stats'; failures := failures' |}.

Fixpoint loop (idx : index) (threshold : float) (l : locals)
         (items : list (string * list (Z * string))) : outcome locals :=
  match items with
  | [] => Ok l
  | item :: items' => l' ← turn idx threshold l item; loop idx threshold l' items'
  end.

(** [CpuAssessor.test], from the dict that [json.load] returns. *)
Definition test (idx : index) (ournames : list (string * list (Z * string)))
           (threshold : float)
  : outcome (Dict.dict nat * list (string * list (Z * string))) :=
  l ← loop idx threshold start ournames;
  Ok (stats l, missed l).

End Stat.

(** ** Vocabulary of the statements *)

(** The query as the token tiers see it, and its tokens ([x] and [mys]
    in the second half of [_nmatch]). *)
Definition query (x : string) : string := strip_markers x.
Definition query_tokens (x : string) : gset string := keytoset (query x).

(** The four exact lookups, each with the truth value the source tests. *)
Definition hit0 (idx : index) (x : string) : bool :=
  truthy (Dict.get_default (marksnoat idx) x (0, 0)).1.
Definition hit1 (idx : index) (x : string) : bool :=
  truthy (Dict.get_default (marks idx) (simple1_key x) (0, 0)).1.
Definition hit2 (idx : index) (x : string) : bool :=
  truthy (Dict.get_default (marks idx) (simple2_key x) (0, 0)).1.
Definition hit3 (idx : index) (x : string) : bool :=
  truthy (Dict.get_default (marksnoat idx) (simple2_key x) (0, 0)).1.

Definition simple_hit (idx : index) (x : string) : bool :=
  hit0 idx x || hit1 idx x || hit2 idx x || hit3 idx x.

(** The candidate lists of a query. *)
Definition cands1 (idx : index) (x : string) : list string :=
  candidates1 idx (query_tokens x).
Definition cands2 (idx : index) (x : string) : list string :=
  candidates2 idx (query x) (query_tokens x).
Definition cands3 (idx : index) (x : string) : list string :=
  candidates3 idx (query x) (query_tokens x).
Definition cands4 (idx : index) (x : string) : list string :=
  match Re.re_match Pat.model (query x) with
  | Some m => candidates4 idx (Re.group "model" m)
  | None => []
  end.

(** The candidate the loop of CLEVER_3_2 stops at, if any. *)
Definition token_equal_candidate (idx : index) (x : string) : option string :=
  List.find (token_equal (query_tokens x)) (cands3 idx x).

(** No tier accepts. *)
Definition no_tier_accepts (idx : index) (x : string) : Prop :=
  simple_hit idx x = false
  /\ length (cands1 idx x) <> 1%nat
  /\ length (cands2 idx x) <> 1%nat
  /\ length (cands3 idx x) <> 1%nat
  /\ token_equal_candidate idx x = None
  /\ length (cands4 idx x) <> 1%nat.

(** The answer of the last [return]. *)
Definition failed_answer (idx : index) (x : string) : answer :=
  (0, (FAILED, 0, EmptyString),
   [DiagTokens (query x) (query_tokens x);
    DiagCandidates (cands1 idx x); DiagCandidates (cands2 idx x);
    DiagCandidates (cands3 idx x); DiagCandidates (cands4 idx x)]).

(** The column names [init] tries, in its order. *)
Definition name_aliases : list string := ["name"; "NAME"; "CPUNAME"].
Definition mark_aliases : list string := ["cpumark"; "CPUMARK"].

(** A row has none of the columns [cols].  With [csv.DictReader] all rows
    of a file have the columns of its header, so a data set lacks a
    column when each of its rows does. *)
Definition lacks (cols : list string) (r : row) : Prop :=
  Forall (fun c => r !! c = None) cols.

(** A row whose name is a string with a vendor marker. *)
Definition vendor_row (r : row) : Prop :=
  exists nam, row_name r = Ok (Some nam) /\ has_vendor nam = true.

(** A row whose name is a string without vendor marker. *)
Definition other_row (r : row) : Prop :=
  exists nam, row_name r = Ok (Some nam) /\ has_vendor nam = false.

(** A vendor row whose mark column is there but holds no integer. *)
Definition bad_mark_row (r : row) : Prop :=
  vendor_row r /\ exists m e, row_mark r = Ok m /\ Py.int m = Raise e.

(** Build: [init] run in a new process on a file that holds [rows]. *)
Definition build (rows : list row) : klass * outcome unit :=
  init (fun _ => Some rows) EmptyString fresh.

(** A row with the two columns of the project's own CSV files. *)
Definition mkrow (nam cpumark : string) : row :=
  {[ "name" := Some nam; "cpumark" := Some cpumark ]}.

(** The reply of [get_mark_json] when nothing raises, from the data
    [idx] the class holds. *)
Definition reply_from (idx : index) (cpu_str marksfile : string) : reply :=
  let a := nmatch idx cpu_str in
  Reply (Py.str (answer_mark a)) cpu_str (MatchStep_name (answer_step a))
        (Str.basename marksfile) (Py.str (answer_line a)) (answer_name a)
        (answer_det a).

(** A call of [get_mark_json]: the files as they are at that time, the
    description of the CPU, the path of the marks file. *)
Definition call : Type := files * string * string.

(** Successive calls in one process, with the replies in order. *)
Fixpoint run_calls (calls : list call) (st : klass) : klass * list (outcome reply) :=
  match calls with
  | [] => (st, [])
  | (fs, cpu, mf) :: calls' =>
      let r := get_mark_json fs cpu mf st in
      let rs := run_calls calls' r.1 in
      (rs.1, r.2 :: rs.2)
  end.

(** What a row contributes to [__marks]: its name and the pair (mark,
    line), when the name has a vendor marker and the mark is an integer. *)
Definition row_entry (r : row) (line : Z) : option (string * markline) :=
  match row_name r with
  | Ok (Some nam) =>
      if has_vendor nam then
        match row_mark r with
        | Ok m => match Py.int m with Ok v => Some (nam, (v, line)) | Raise _ => None end
        | Raise _ => None
        end
      else None
  | _ => None
  end.

(** The pair recorded for [nam] by the last row of that name, the first
    row being on line [line] of the file. *)
Fixpoint recorded (rows : list row) (line : Z) (nam : string) : option markline :=
  match rows with
  | [] => None
  | r :: rows' =>
      match recorded rows' (line + 1) nam with
      | Some v => Some v
      | None =>
          match row_entry r line with
          | Some (n, v) => if String.eqb n nam then Some v else None
          | None => None
          end
      end
  end.

(** The first line of a string: its characters up to the first line feed. *)
Fixpoint line (s : string) : string :=
  match s with
  | EmptyString => EmptyString
  | String c s' => if Chr.is_dot c then String c (line s') else EmptyString
  end.

(** What follows the first line: nothing, or a line feed and more. *)
Fixpoint after_line (s : string) : string :=
  match s with
  | EmptyString => EmptyString
  | String c s' => if Chr.is_dot c then after_line s' else s
  end.

(** A vendor marker starts the string. *)
Definition starts_vendor (s : string) : bool :=
  String.prefix "Intel" s || String.prefix "AMD" s.

(** A vendor marker starts at position [n] of [s], on the first line. *)
Definition vendor_at (s : string) (n : nat) : Prop :=
  exists pre suf, s = pre +:+ suf /\ String.length pre = n
                  /\ Str.all Chr.is_dot pre = true /\ starts_vendor suf = true.

(** The first line of [s] from its last vendor marker on, if it has one. *)
Fixpoint last_vendor (s : string) : option string :=
  match s with
  | EmptyString => None
  | String c s' =>
      if Chr.is_dot c then
        match last_vendor s' with
        | Some k => Some k
        | None => if starts_vendor s then Some (line s) else None
        end
      else None
  end.

(** The groups of the matches of an expression, in backtracking order. *)
Definition groups_of (r : Re.regex) (at0 : bool) (s : string) (g : Re.groups)
  : list Re.groups := map snd (Re.ms r at0 s g).

(** The part of the vendor pattern inside the group keep. *)
Definition vendor_kept : Re.regex :=
  Re.Seq (Re.Alt (Re.Lit "Intel") (Re.Lit "AMD")) (Re.Rep Chr.is_dot 0 None).

(** The vendor step in the words of the specification: the suffix that
    starts at the first vendor marker, the input itself without one. *)
Fixpoint spec_from_first_vendor (s : string) : option string :=
  if starts_vendor s then Some s
  else match s with
       | EmptyString => None
       | String _ s' => spec_from_first_vendor s'
       end.

Definition spec_vendor_step (s : string) : string :=
  match spec_from_first_vendor s with
  | Some k => k
  | None => s
  end.

(** The tokens one piece of a name gives. *)
Definition tokens_of (t : string) : gset string := keytoset_step ∅ t.

(** No character of the string is a separator of the tokenizer. *)
Definition sep_free (s : string) : bool := Str.all (fun c => negb (Chr.is_sep c)) s.

(** A token that the tokenizer returns as it is. *)
Definition stable (u : string) : Prop :=
  Str.is_empty u = false /\ sep_free u = true /\ tokens_of u = {[ u ]}.

(** The mean of the observed marks as the harness computes it, in
    floating point, and its integer part, which is the [avg_] that the
    harness compares the mark with. *)
Definition float_mean (ourmarks : list (Z * string)) : outcome float :=
  lmarks ← Stat.mapM (fun o => Stat.of_int o.1) ourmarks;
  n ← Stat.of_int (Z.of_nat (length ourmarks));
  Stat.div (Stat.sum lmarks) n.

Definition truncated_mean (ourmarks : list (Z * string)) : outcome Z :=
  mean ← float_mean ourmarks; Stat.to_int mean.

(** The deviation the harness compares with the threshold. *)
Definition deviation_from_truncated_mean (ma : Z) (ourmarks : list (Z * string))
  : outcome float :=
  avg ← truncated_mean ourmarks; Stat.deltapc ma avg.

(** The deviation in the words of the specification: in per cent of
    the arithmetic mean, the mean not being rounded. *)
Definition spec_deviation_from_mean (ma : Z) (ourmarks : list (Z * string))
  : outcome float :=
  mean ← float_mean ourmarks;
  m ← Stat.of_int ma;
  q ← Stat.div (100 * (m - mean))%float mean;
  Ok (PrimFloat.abs q).

(** The same deviation as an exact fraction, for marks of positive sum:
    it is at most [t] per cent when this holds. *)
Definition spec_deviation_within (ma : Z) (marks : list Z) (t : Z) : Prop :=
  let n := Z.of_nat (length marks) in
  let total := fold_right Z.add 0 marks in
  0 < total /\ 100 * Z.abs (ma * n - total) <= t * total.

(** Whether the harness counts an item as correct. *)
Definition counted_correct (idx : index) (threshold : float)
           (item : string * list (Z * string)) : bool :=
  let ma := answer_mark (nmatch idx item.1) in
  truthy ma &&
  match deviation_from_truncated_mean ma item.2 with
  | Ok d => (d <=? threshold)%float
  | Raise _ => false
  end.

(** Whether the harness counts an item as a statistical miss. *)
Definition counted_false (idx : index) (threshold : float)
           (item : string * list (Z * string)) : bool :=
  let ma := answer_mark (nmatch idx item.1) in
  truthy ma &&
  match deviation_from_truncated_mean ma item.2 with
  | Ok d => negb (d <=? threshold)%float
  | Raise _ => false
  end.

(** ** Data of the examples *)

(** The name of the scenario as a BIOS reports it, and as the reference
    file of the project spells it. *)
Definition i7_query : string := "Intel(R) Core(TM) i7-7500U CPU @ 2.70GHz".
Definition i7_name : string := "Intel Core i7-7500U @ 2.70GHz".

(** A reference file with the row of the scenario as the specification
    writes it, and one with the row as the query is normalised. *)
Definition rows_verbatim : list row := [mkrow i7_query "3641"].
Definition rows_normalised : list row := [mkrow i7_name "3641"].

(** A name of the reference data with a comma and no at sign. *)
Definition a6_name : string := "AMD A6-9225 RADEON R4, 5 COMPUTE CORES 2C+3G".
Definition rows_comma : list row := [mkrow a6_name "1409"].

(** A name of the reference data that normalisation leaves alone. *)
Definition ryzen_name : string := "AMD Ryzen 5 2500U".
Definition rows_plain : list row := [mkrow ryzen_name "6577"].

(** Two reference entries that differ in their clock only. *)
Definition rows_two_clocks : list row :=
  [mkrow "Intel Core i5-3380M @ 2.90GHz" "3500";
   mkrow "Intel Core i5-3380M @ 3.00GHz" "3600"].

(** A file without any mark column and without vendor name. *)
Definition rows_no_mark_column : list row :=
  [ {[ "name" := Some "Apple M1 8 Core 3200 MHz"; "cores" := Some "8" ]} ].

(** A file without any name column. *)
Definition rows_no_name_column : list row :=
  [ {[ "cpu" := Some "Intel Core i5-3380M @ 2.90GHz"; "cpumark" := Some "3500" ]} ].

(** A file without mark column whose second row has a vendor name. *)
Definition rows_no_mark_vendor : list row :=
  [ {[ "name" := Some "Apple M1 8 Core 3200 MHz"; "cores" := Some "8" ]};
    {[ "name" := Some "Intel Core i5-3380M @ 2.90GHz"; "cores" := Some "2" ]} ].

(** A file whose second row has a mark that is no number. *)
Definition rows_bad_mark : list row :=
  [mkrow "Intel Core i5-3380M @ 2.90GHz" "3500";
   mkrow "AMD Ryzen 5 2500U" "N/A";
   mkrow i7_name "3641"].

(** Two marks files of a process. *)
Definition two_files : files := fun path =>
  if String.eqb path "data/first.csv" then Some rows_normalised
  else if String.eqb path "data/second.csv" then Some rows_plain
  else None.

(** The observed marks of the calibration scenario. *)
Definition observed_i7 : list (Z * string) :=
  [(3641, "BXPC24-0264/BXPC24-0264-bolc2.csv");
   (3635, "SDPC25-0134/SDPC25-0134-bolc2.csv");
   (3630, "VIPC25-0160/VIPC25-0160-bolc2.csv")].

(** Observed marks whose mean is no integer, and a reference file that
    gives mark 205 to their CPU. *)
Definition observed_half : list (Z * string) := [(199, "a.csv"); (200, "b.csv")].
Definition rows_205 : list row := [mkrow ryzen_name "205"].

(** A reference file that gives the CPU of the calibration scenario the
    mark 3638. *)
Definition rows_3638 : list row := [mkrow i7_name "3638"].

(** ** Views of the cascade *)

(** The branch [_nmatch] takes, read off the tests in their order. *)
Inductive branch (idx : index) (x : string) : answer -> Prop :=
| B_simple0 :
    hit0 idx x = true ->
    branch idx x (let r := Dict.get_default (marksnoat idx) x (0, 0) in
                  (r.1, (SIMPLE_0, r.2, x), []))
| B_simple1 :
    hit0 idx x = false -> hit1 idx x = true ->
    branch idx x (let r := Dict.get_default (marks idx) (simple1_key x) (0, 0) in
                  (r.1, (SIMPLE_1, r.2, simple1_key x), []))
| B_simple2 :
    hit0 idx x = false -> hit1 idx x = false -> hit2 idx x = true ->
    branch idx x (let r := Dict.get_default (marks idx) (simple2_key x) (0, 0) in
                  (r.1, (SIMPLE_2, r.2, simple2_key x), []))
| B_simple3 :
    hit0 idx x = false -> hit1 idx x = false -> hit2 idx x = false ->
    hit3 idx x = true ->
    branch idx x (let r := Dict.get_default (marksnoat idx) (simple2_key x) (0, 0) in
                  (r.1, (SIMPLE_3, r.2, simple2_key x), []))
| B_clever1 c :
    simple_hit idx x = false -> cands1 idx x = [c] ->
    branch idx x (accept idx CLEVER_1 c)
| B_clever2 c :
    simple_hit idx x = false -> length (cands1 idx x) <> 1%nat ->
    cands2 idx x = [c] ->
    branch idx x (accept idx CLEVER_2 c)
| B_clever31 c :
    simple_hit idx x = false -> length (cands1 idx x) <> 1%nat ->
    length (cands2 idx x) <> 1%nat -> cands3 idx x = [c] ->
    branch idx x (accept idx CLEVER_3_1 c)
| B_clever32 c :
    simple_hit idx x = false -> length (cands1 idx x) <> 1%nat ->
    length (cands2 idx x) <> 1%nat -> length (cands3 idx x) <> 1%nat ->
    token_equal_candidate idx x = Some c ->
    branch idx x (accept idx CLEVER_3_2 c)
| B_desperate c :
    simple_hit idx x = false -> length (cands1 idx x) <> 1%nat ->
    length (cands2 idx x) <> 1%nat -> length (cands3 idx x) <> 1%nat ->
    token_equal_candidate idx x = None -> cands4 idx x = [c] ->
    branch idx x (accept idx DESPERATE_1 c)
| B_failed :
    no_tier_accepts idx x ->
    branch idx x (failed_answer idx x).

(** The step of the answer, branch by branch. *)
Inductive step_view (idx : index) (x : string) : MatchStep -> Prop :=
| V_simple (s : MatchStep) :
    simple_hit idx x = true -> s ∈ [SIMPLE_0; SIMPLE_1; SIMPLE_2; SIMPLE_3] ->
    step_view idx x s
| V_clever1 :
    simple_hit idx x = false -> cands1 idx x = [answer_name (nmatch idx x)] ->
    step_view idx x CLEVER_1
| V_clever2 :
    simple_hit idx x = false -> length (cands1 idx x) <> 1%nat ->
    cands2 idx x = [answer_name (nmatch idx x)] ->
    step_view idx x CLEVER_2
| V_clever31 :
    simple_hit idx x = false -> length (cands1 idx x) <> 1%nat ->
    length (cands2 idx x) <> 1%nat ->
    cands3 idx x = [answer_name (nmatch idx x)] ->
    step_view idx x CLEVER_3_1
| V_clever32 :
    simple_hit idx x = false -> length (cands1 idx x) <> 1%nat ->
    length (cands2 idx x) <> 1%nat -> length (cands3 idx x) <> 1%nat ->
    token_equal_candidate idx x = Some (answer_name (nmatch idx x)) ->
    step_view idx x CLEVER_3_2
| V_desperate :
    simple_hit idx x = false -> length (cands1 idx x) <> 1%nat ->
    length (cands2 idx x) <> 1%nat -> length (cands3 idx x) <> 1%nat ->
    token_equal_candidate idx x = None ->
    cands4 idx x = [answer_name (nmatch idx x)] ->
    step_view idx x DESPERATE_1
| V_failed :
    no_tier_accepts idx x -> nmatch idx x = failed_answer idx x ->
    step_view idx x FAILED.

(** ** Vocabulary of the further properties *)

(** The key of [__marksnoat] that a name with an at sign gives. *)
Definition noat (k : string) : string := Str.strip (Str.split0 "@" k).

(** The row with line number [line] records the pair [v] for [nam]. *)
Definition records (r : row) (line : Z) (nam : string) (v : markline) : Prop :=
  row_entry r line = Some (nam, v).

(** The row is not one that records something for [nam]. *)
Definition silent_on (nam : string) (r : row) : Prop :=
  forall line v, row_entry r line <> Some (nam, v).

(** A reference file in which a name comes twice. *)
Definition rows_twice : list row :=
  [mkrow "Intel Core i5-3380M @ 2.90GHz" "3500";
   mkrow "Apple M1 8 Core 3200 MHz" "14000";
   mkrow "AMD Ryzen 5 2500U" "6577";
   mkrow "Intel Core i5-3380M @ 2.90GHz" "3512"].

(** The string is empty or starts with a character outside the class. *)
Definition headed (p : ascii -> bool) (s : string) : bool :=
  match s with
  | EmptyString => true
  | String c _ => negb (p c)
  end.

(** A process that is given a broken marks file first and the right one
    after. *)
Definition broken_then_right : files := fun path =>
  if String.eqb path "broken.csv" then Some rows_bad_mark
  else if String.eqb path "right.csv" then Some rows_plain
  else None.

(** The message of [assess] in a class that was never built. *)
Definition not_initialized : exn :=
  RuntimeError "Class CpuAssessor must be initialized before use".

(** An outcome is a normal end. *)
Definition is_ok {A : Type} (o : outcome A) : bool :=
  match o with Ok _ => true | Raise _ => false end.

(** A name in the form the exact tiers look up: none of the markers that
    are removed, a vendor marker at its start and nowhere else, a single
    line, no w/ and no comma, no white space at either end. *)
Definition plain (s : string) : bool :=
  negb (Str.contains "(R)" s) && negb (Str.contains "(TM)" s)
  && negb (Str.contains " CPU" s)
  && starts_vendor s && negb (has_vendor (Re.drop 1 s))
  && Str.all Chr.is_dot s
  && negb (Str.contains "w/" s) && negb (Str.contains "," s)
  && String.eqb (Str.strip s) s.

(** The number of separators at the head of a string. *)
Fixpoint sep_run (s : string) : nat :=
  match s with
  | EmptyString => O
  | String c s' => if Chr.is_sep c then S (sep_run s') else O
  end.

(** The tokens of a list of pieces. *)
Definition tokens_of_pieces (l : list string) : gset string := ⋃ (map tokens_of l).

(** The tier at which the harness sees an item answered, whether it files
    the item under the missed ones, and the number of items answered at a
    tier. *)
Definition step_of (idx : index) (item : string * list (Z * string)) : MatchStep :=
  answer_step (nmatch idx item.1).
Definition unmarked (idx : index) (item : string * list (Z * string)) : bool :=
  negb (truthy (answer_mark (nmatch idx item.1))).
Definition answered_at (idx : index) (m : MatchStep)
           (items : list (string * list (Z * string))) : nat :=
  length (List.filter (fun it => bool_decide (step_of idx it = m)) items).

(** Two names for the harness: the calibration query with its observed
    marks, and a name no row resembles. *)
Definition observed_names : list (string * list (Z * string)) :=
  [(i7_query, observed_i7); ("Unknown chip", [(100, "x.csv")])].

(** * Properties *)

Example split_example :
  Re.re_split Pat.separators "AMD PRO A10-8730B R5, 10 COMPUTE CORES 4C+6G @ 3.45GHz"
  = ["AMD"; "PRO"; "A10"; "8730B"; "R5"; "10"; "COMPUTE"; "CORES"; "4C+6G"; "3.45GHz"].
Proof. vm_compute. reflexivity. Qed.

Example keytoset_example :
  keytoset "AMD PRO A10-8730B R5, 10 COMPUTE CORES 4C+6G @ 3.45GHz"
  = {[ "AMD"; "PRO"; "A10"; "8730"; "B"; "R5"; "10"; "COMPUTE"; "CORES";
       "4C+6G"; "3.45GHz" ]}.
Proof. vm_compute. reflexivity. Qed.

(** ** The cascade *)

Lemma singleton_length {A : Type} (l : list A) :
  length l = 1%nat <-> exists a, l = [a].
Proof.
  split.
  - destruct l as [|a [|b l]]; simpl; intros H; try discriminate. by exists a.
  - intros [a ->]. reflexivity.
Qed.

Lemma not_singleton_nil {A : Type} : length (@nil A) <> 1%nat.
Proof. discriminate. Qed.

Lemma not_singleton_two {A : Type} (a b : A) l : length (a :: b :: l) <> 1%nat.
Proof. discriminate. Qed.

Create HintDb cascade.
#[local] Hint Resolve not_singleton_nil not_singleton_two : cascade.

(** [_nmatch] always takes one of the branches. *)
Lemma nmatch_branch idx x : branch idx x (nmatch idx x).
Proof.
  unfold nmatch.
  destruct (truthy _) eqn:H0; [by apply B_simple0|].
  destruct (truthy (Dict.get_default (marks idx) (simple1_key x) _).1) eqn:H1;
    [by apply B_simple1|].
  destruct (truthy (Dict.get_default (marks idx) (simple2_key x) _).1) eqn:H2;
    [by apply B_simple2|].
  destruct (truthy (Dict.get_default (marksnoat idx) (simple2_key x) _).1) eqn:H3;
    [by apply B_simple3|].
  assert (Hs : simple_hit idx x = false).
  { unfold simple_hit, hit0, hit1, hit2, hit3. by rewrite H0, H1, H2, H3. }
  fold (query x). fold (query_tokens x).
  fold (cands1 idx x). fold (cands2 idx x). fold (cands3 idx x).
  assert (Hfail : forall c4, cands4 idx x = c4 -> length c4 <> 1%nat ->
            length (cands1 idx x) <> 1%nat -> length (cands2 idx x) <> 1%nat ->
            length (cands3 idx x) <> 1%nat -> token_equal_candidate idx x = None ->
            branch idx x
              (0, (FAILED, 0, EmptyString),
               ([] ++ [DiagTokens (query x) (query_tokens x);
                       DiagCandidates (cands1 idx x); DiagCandidates (cands2 idx x);
                       DiagCandidates (cands3 idx x); DiagCandidates c4])%list)).
  { intros c4 <- ? ? ? ? ?. apply B_failed. by repeat split. }
  destruct (cands1 idx x) as [|a1 [|b1 l1]] eqn:E1; [|by apply B_clever1|];
  (destruct (cands2 idx x) as [|a2 [|b2 l2]] eqn:E2;
     [|apply B_clever2; rewrite ?E1; auto with cascade|];
   (destruct (cands3 idx x) as [|a3 [|b3 l3]] eqn:E3;
     [|apply B_clever31; rewrite ?E1, ?E2; auto with cascade|];
    (destruct (List.find _ _) as [c|] eqn:E32;
       [apply B_clever32; rewrite ?E1, ?E2, ?E3; auto with cascade;
        unfold token_equal_candidate; by rewrite E3|];
     assert (Ht : token_equal_candidate idx x = None)
       by (unfold token_equal_candidate; by rewrite E3);
     destruct (Re.re_match Pat.model (query x)) as [m|] eqn:Em;
       [destruct (candidates4 idx (Re.group "model" m)) as [|a4 [|b4 l4]] eqn:E4;
        [| apply B_desperate; rewrite ?E1, ?E2, ?E3; auto with cascade;
           unfold cands4; by rewrite Em |]|];
     apply Hfail; rewrite ?E1, ?E2, ?E3; auto with cascade;
     unfold cands4; by rewrite Em))).
Qed.

Lemma simple_hit_false idx x :
  simple_hit idx x = false <->
  hit0 idx x = false /\ hit1 idx x = false /\ hit2 idx x = false /\ hit3 idx x = false.
Proof.
  unfold simple_hit.
  destruct (hit0 idx x), (hit1 idx x), (hit2 idx x), (hit3 idx x); simpl; intuition congruence.
Qed.

Lemma nmatch_step_view idx x : step_view idx x (answer_step (nmatch idx x)).
Proof.
  pose proof (nmatch_branch idx x) as B.
  remember (nmatch idx x) as a eqn:E.
  destruct B as [H0|H0 H1|H0 H1 H2|H0 H1 H2 H3|c Hs E1|c Hs N1 E2
                |c Hs N1 N2 E3|c Hs N1 N2 N3 E32|c Hs N1 N2 N3 N32 E4|Hn];
    cbn [answer_step answer_name accept fst snd].
  - apply V_simple; [unfold simple_hit; by rewrite H0 | set_solver].
  - apply V_simple; [unfold simple_hit; by rewrite H0, H1 | set_solver].
  - apply V_simple; [unfold simple_hit; by rewrite H0, H1, H2 | set_solver].
  - apply V_simple; [unfold simple_hit; by rewrite H0, H1, H2, H3 | set_solver].
  - apply V_clever1; [done|]. by rewrite <- E.
  - apply V_clever2; [done..|]. by rewrite <- E.
  - apply V_clever31; [done..|]. by rewrite <- E.
  - apply V_clever32; [done..|]. by rewrite <- E.
  - apply V_desperate; [done..|]. by rewrite <- E.
  - apply V_failed; [done|]. by rewrite <- E.
Qed.

Ltac view_cases idx x :=
  let V := fresh "V" in
  let s := fresh "s" in
  let Es := fresh "Es" in
  pose proof (nmatch_step_view idx x) as V;
  remember (answer_step (nmatch idx x)) as s eqn:Es;
  destruct V as [s Hh Hin|Hs E1|Hs N1 E2|Hs N1 N2 E3|Hs N1 N2 N3 E32
                |Hs N1 N2 N3 N32 E4|[Hs [N1 [N2 [N3 [N32 N4]]]]] Ef];
  [ repeat (apply elem_of_cons in Hin; destruct Hin as [->|Hin]);
    [..|by apply elem_of_nil in Hin] | .. ];
  repeat match goal with
         | H : ?l = [_] |- _ =>
             lazymatch goal with
             | _ : length l = 1%nat |- _ => fail
             | _ => assert (length l = 1%nat) by (by rewrite H)
             end
         end.

(** C1.  The four tiers that work on a candidate list return only when
    the list has exactly one element, and then return that element; with
    an empty list or with two or more candidates the tier is never the
    answer: each of these tiers is the answer exactly when every earlier
    tier has declined and its own list is a singleton. *)
Theorem candidate_tiers_accept_only_singletons (idx : index) (x : string) :
  let a := nmatch idx x in
  (answer_step a = CLEVER_1 <->
     simple_hit idx x = false /\ length (cands1 idx x) = 1%nat)
  /\ (answer_step a = CLEVER_2 <->
     simple_hit idx x = false /\ length (cands1 idx x) <> 1%nat
     /\ length (cands2 idx x) = 1%nat)
  /\ (answer_step a = CLEVER_3_1 <->
     simple_hit idx x = false /\ length (cands1 idx x) <> 1%nat
     /\ length (cands2 idx x) <> 1%nat /\ length (cands3 idx x) = 1%nat)
  /\ (answer_step a = DESPERATE_1 <->
     simple_hit idx x = false /\ length (cands1 idx x) <> 1%nat
     /\ length (cands2 idx x) <> 1%nat /\ length (cands3 idx x) <> 1%nat
     /\ token_equal_candidate idx x = None /\ length (cands4 idx x) = 1%nat)
  /\ (answer_step a = CLEVER_1 -> cands1 idx x = [answer_name a])
  /\ (answer_step a = CLEVER_2 -> cands2 idx x = [answer_name a])
  /\ (answer_step a = CLEVER_3_1 -> cands3 idx x = [answer_name a])
  /\ (answer_step a = DESPERATE_1 -> cands4 idx x = [answer_name a]).
Proof.
  intros a. subst a. view_cases idx x;
    repeat split; intros; try discriminate; try done;
    repeat match goal with H : _ /\ _ |- _ => destruct H end;
    try congruence.
Qed.

(** C4.  When no tier accepts, [_nmatch] returns mark 0, step FAILED,
    line 0, an empty name and five diagnostics: the query with its token
    set, then the four candidate lists in order.  The answer is FAILED in
    that case only, and every other answer has no diagnostics.  ([nmatch]
    is a total function: there is no exception to model in it.) *)
Theorem unmatched_query_is_failed (idx : index) (x : string) :
  (no_tier_accepts idx x ->
     nmatch idx x =
       (0, (FAILED, 0, EmptyString),
        [DiagTokens (query x) (query_tokens x);
         DiagCandidates (cands1 idx x); DiagCandidates (cands2 idx x);
         DiagCandidates (cands3 idx x); DiagCandidates (cands4 idx x)]))
  /\ (answer_step (nmatch idx x) = FAILED -> no_tier_accepts idx x)
  /\ (answer_step (nmatch idx x) <> FAILED -> answer_det (nmatch idx x) = []).
Proof.
  split; [|split].
  - intros [Hs [N1 [N2 [N3 [N32 N4]]]]].
    pose proof (nmatch_branch idx x) as B.
    remember (nmatch idx x) as a eqn:E.
    apply simple_hit_false in Hs as Hh. destruct Hh as [h0 [h1 [h2 h3]]].
    destruct B as [H0|H0 H1|H0 H1 H2|H0 H1 H2 H3|c _ E1|c _ _ E2
                  |c _ _ _ E3|c _ _ _ _ E32|c _ _ _ _ _ E4|_];
      try congruence; try reflexivity.
    + by rewrite E1 in N1.
    + by rewrite E2 in N2.
    + by rewrite E3 in N3.
    + by rewrite E4 in N4.
  - intros Hf. view_cases idx x; try discriminate.
    by repeat split.
  - intros Hf.
    pose proof (nmatch_branch idx x) as B.
    remember (nmatch idx x) as a eqn:E.
    destruct B; try reflexivity. by destruct Hf.
Qed.

(** ** Building the reference data *)

Lemma init_rows_cons r rows line st :
  init_rows (r :: rows) line st =
  match init_row r line st with
  | (st', Ok _) => init_rows rows (line + 1) st'
  | (st', Raise e) => (st', Raise e)
  end.
Proof. reflexivity. Qed.

Lemma init_row_other r line st :
  other_row r -> init_row r line st = (st, Ok tt).
Proof.
  intros [nam [Hn Hv]]. unfold init_row, mbind, M_bind, lift.
  by rewrite Hn, Hv.
Qed.

(** What a turn of the loop leaves untouched. *)
Lemma init_row_preserves r line st st' o :
  init_row r line st = (st', o) ->
  is_initialized st' = is_initialized st
  /\ markswithsets (data st') = markswithsets (data st)
  /\ marksnoat (data st') = marksnoat (data st).
Proof.
  unfold init_row, mbind, M_bind, lift, raise, set_mark, modify, mret, M_ret.
  destruct (row_name r) as [[nam|]|e]; try (intros [= <- <-]; by auto).
  destruct (has_vendor nam); try (intros [= <- <-]; by auto).
  destruct (row_mark r) as [m|e]; try (intros [= <- <-]; by auto).
  destruct (Py.int m) as [v|e]; intros [= <- <-]; by auto.
Qed.

Lemma init_rows_preserves rows : forall line st st' o,
  init_rows rows line st = (st', o) ->
  is_initialized st' = is_initialized st
  /\ markswithsets (data st') = markswithsets (data st)
  /\ marksnoat (data st') = marksnoat (data st).
Proof.
  induction rows as [|r rows IH]; intros line st st' o.
  - intros [= <- <-]. by auto.
  - rewrite init_rows_cons.
    destruct (init_row r line st) as [st1 [[]|e]] eqn:E1;
      apply init_row_preserves in E1 as (? & ? & ?).
    + intros Hr. apply IH in Hr as (? & ? & ?). repeat split; congruence.
    + intros [= <- <-]. by auto.
Qed.

(** A row that raises ends the loop: the rows after it are not read and
    the marks of the rows before it stay in [__marks]. *)
Lemma init_rows_raise pre : forall r post line st st1 st2 e,
  init_rows pre line st = (st1, Ok tt) ->
  init_row r (line + Z.of_nat (length pre)) st1 = (st2, Raise e) ->
  init_rows (pre ++ r :: post) line st = (st2, Raise e).
Proof.
  induction pre as [|p pre IH]; intros r post line st st1 st2 e.
  - cbn [app length]. intros [= <-] H. change (Z.of_nat 0) with 0 in H.
    rewrite Z.add_0_r in H. by rewrite init_rows_cons, H.
  - rewrite <- app_comm_cons, !init_rows_cons.
    destruct (init_row p line st) as [st' [[]|e']]; [|discriminate].
    intros H1 H2. eapply IH; [exact H1|].
    replace (line + 1 + Z.of_nat (length pre)) with (line + Z.of_nat (length (p :: pre)));
      [done|simpl length; lia].
Qed.

(** Either all rows pass or some row raises. *)
Lemma init_rows_outcome rows : forall line st,
  (exists st', init_rows rows line st = (st', Ok tt))
  \/ (exists pre r post st1 st2 e,
        rows = (pre ++ r :: post)%list
        /\ init_rows pre line st = (st1, Ok tt)
        /\ init_row r (line + Z.of_nat (length pre)) st1 = (st2, Raise e)
        /\ init_rows rows line st = (st2, Raise e)).
Proof.
  induction rows as [|r rows IH]; intros line st.
  - left. by exists st.
  - rewrite init_rows_cons.
    destruct (init_row r line st) as [st1 [[]|e]] eqn:E1.
    + destruct (IH (line + 1) st1) as [[st' H]|(pre & r' & post & sa & sb & e & -> & Hp & Hr & Ha)].
      * left. by exists st'.
      * right. exists (r :: pre), r', post, sa, sb, e. repeat split; try done.
        -- rewrite init_rows_cons, E1. done.
        -- replace (line + Z.of_nat (length (r :: pre)))
             with (line + 1 + Z.of_nat (length pre)) by (simpl length; lia). done.
    + right. exists [], r, rows, st, st1, e. simpl. rewrite Z.add_0_r. by repeat split.
Qed.

Lemma row_name_lacks r : lacks name_aliases r -> row_name r = Raise name_column_error.
Proof.
  unfold lacks, name_aliases. rewrite !Forall_cons. intros (H1 & H2 & H3 & _).
  unfold row_name. by rewrite H1, H2, H3.
Qed.

Lemma row_mark_lacks r : lacks mark_aliases r -> row_mark r = Raise mark_column_error.
Proof.
  unfold lacks, mark_aliases. rewrite !Forall_cons. intros (H1 & H2 & _).
  unfold row_mark. by rewrite H1, H2.
Qed.

Lemma init_row_no_name r line st :
  lacks name_aliases r -> init_row r line st = (st, Raise name_column_error).
Proof.
  intros H. unfold init_row, mbind, M_bind, lift. by rewrite (row_name_lacks r H).
Qed.

Lemma init_row_no_mark r line st :
  lacks mark_aliases r -> vendor_row r ->
  init_row r line st = (st, Raise mark_column_error).
Proof.
  intros H (nam & Hn & Hv). unfold init_row, mbind, M_bind, lift.
  by rewrite Hn, Hv, (row_mark_lacks r H).
Qed.

Lemma init_rows_others rows : forall line st,
  Forall other_row rows -> init_rows rows line st = (st, Ok tt).
Proof.
  induction rows as [|r rows IH]; intros line st H; [done|].
  apply Forall_cons in H as [Hr H].
  by rewrite init_rows_cons, (init_row_other r line st Hr), IH.
Qed.

Lemma build_unfold rows :
  build rows =
  match init_rows rows 2 fresh with
  | (st, Ok _) => derive st
  | (st, Raise e) => (st, Raise e)
  end.
Proof. reflexivity. Qed.

(** C7, as amended.  The name is read from the first of the columns
    name, NAME, CPUNAME that the row has, the mark from the first of
    cpumark, CPUMARK.  The columns are looked up row by row: without any
    name column the build raises the error about the name column at the
    first row; without any mark column it raises the error about the mark
    column at the first row whose name has a vendor marker.  Either error
    ends the build as a whole.  A data set in which no row gets that far
    (no rows at all, or no vendor name when only the mark column is
    missing) builds without error. *)
Theorem missing_column_raises_when_reached :
  (forall (r : row) v, r !! "name" = Some v -> row_name r = Ok v)
  /\ (forall (r : row) v, r !! "name" = None -> r !! "NAME" = Some v -> row_name r = Ok v)
  /\ (forall (r : row) v, r !! "name" = None -> r !! "NAME" = None ->
        r !! "CPUNAME" = Some v -> row_name r = Ok v)
  /\ (forall (r : row) v, r !! "cpumark" = Some v -> row_mark r = Ok v)
  /\ (forall (r : row) v, r !! "cpumark" = None -> r !! "CPUMARK" = Some v ->
        row_mark r = Ok v)
  /\ (forall r rows, Forall (lacks name_aliases) (r :: rows) ->
        build (r :: rows) = (fresh, Raise name_column_error))
  /\ (forall pre r post, Forall (lacks mark_aliases) (pre ++ r :: post)%list ->
        Forall other_row pre -> vendor_row r ->
        build (pre ++ r :: post)%list = (fresh, Raise mark_column_error))
  /\ (forall rows, Forall other_row rows -> build rows = (fresh, Ok tt)).
Proof.
  repeat split.
  - intros r v H. unfold row_name. by rewrite H.
  - intros r v H1 H2. unfold row_name. by rewrite H1, H2.
  - intros r v H1 H2 H3. unfold row_name. by rewrite H1, H2, H3.
  - intros r v H. unfold row_mark. by rewrite H.
  - intros r v H1 H2. unfold row_mark. by rewrite H1, H2.
  - intros r rows H. apply Forall_cons in H as [Hr _].
    by rewrite build_unfold, init_rows_cons, (init_row_no_name r 2 fresh Hr).
  - intros pre r post Hl Hp Hv.
    apply Forall_app in Hl as [_ Hl]. apply Forall_cons in Hl as [Hr _].
    rewrite build_unfold.
    by rewrite (init_rows_raise pre r post 2 fresh fresh fresh mark_column_error
                  (init_rows_others pre 2 fresh Hp)
                  (init_row_no_mark r _ fresh Hr Hv)).
  - intros rows H. by rewrite build_unfold, (init_rows_others rows 2 fresh H).
Qed.

Lemma init_row_bad_mark r line st :
  bad_mark_row r -> exists e, init_row r line st = (st, Raise e).
Proof.
  intros [(nam & Hn & Hv) (m & e & Hm & He)]. exists e.
  unfold init_row, mbind, M_bind, lift. by rewrite Hn, Hv, Hm, He.
Qed.

Lemma init_rows_bad_mark rows : forall line st,
  Exists bad_mark_row rows -> exists st' e, init_rows rows line st = (st', Raise e).
Proof.
  induction rows as [|r rows IH]; intros line st H; [by apply Exists_nil in H|].
  rewrite init_rows_cons.
  destruct (init_row r line st) as [st1 [[]|e]] eqn:E1; [|by exists st1, e].
  apply Exists_cons in H as [Hb|Ht]; [|by apply IH].
  destruct (init_row_bad_mark r line st Hb) as [e He]. congruence.
Qed.

(** ** One index per process *)

Lemma klass_eta st :
  is_initialized st = true ->
  {| is_initialized := true; data := data st |} = st.
Proof. destruct st as [i d]; simpl; by intros ->. Qed.

(** With the flag set, [init] returns before it opens anything. *)
Lemma init_initialized fs mf st :
  is_initialized st = true -> init fs mf st = (st, Ok tt).
Proof. intros H. unfold init, mbind, M_bind, get. by rewrite H. Qed.

Lemma CpuAssessor_initialized fs mf st :
  is_initialized st = true -> CpuAssessor fs mf st = (st, Ok tt).
Proof.
  intros H. unfold CpuAssessor, mbind, M_bind.
  rewrite (init_initialized fs mf st H). unfold modify.
  by rewrite (klass_eta st H).
Qed.

Lemma get_mark_json_initialized fs cpu mf st :
  is_initialized st = true ->
  get_mark_json fs cpu mf st = (st, Ok (reply_from (data st) cpu mf)).
Proof.
  intros H. unfold get_mark_json, try, mbind, M_bind.
  rewrite (CpuAssessor_initialized fs mf st H).
  unfold assess, mbind, M_bind, get. by rewrite H.
Qed.

Lemma run_calls_initialized calls : forall st,
  is_initialized st = true ->
  run_calls calls st =
    (st, map (fun c : call => Ok (reply_from (data st) c.1.2 c.2)) calls).
Proof.
  induction calls as [|[[fs cpu] mf] calls IH]; intros st H; [done|].
  cbn [run_calls map]. rewrite (get_mark_json_initialized fs cpu mf st H).
  cbn [fst snd]. by rewrite (IH st H).
Qed.

(** A construction that succeeds in a new process leaves the flag set and
    the data built from the rows of its file. *)
Lemma first_construction fs f st :
  CpuAssessor fs f fresh = (st, Ok tt) ->
  is_initialized st = true
  /\ exists rows, fs f = Some rows
       /\ build rows = ({| is_initialized := false; data := data st |}, Ok tt).
Proof.
  unfold CpuAssessor, mbind at 1, M_bind at 1.
  destruct (init fs f fresh) as [st0 [[]|e]] eqn:E; [|discriminate].
  unfold modify. intros [= <-]. split; [done|].
  revert E. unfold init, mbind at 1, M_bind at 1, get.
  cbn [is_initialized fresh].
  destruct (fs f) as [rows|]; [|discriminate].
  intros E. exists rows. split; [done|].
  unfold build, init, mbind at 1, M_bind at 1, get. cbn [is_initialized fresh].
  rewrite E. cbn [data]. f_equal.
  revert E. unfold mbind, M_bind.
  destruct (init_rows rows 2 fresh) as [s1 [[]|e]] eqn:E1; [|discriminate].
  apply init_rows_preserves in E1 as (Hi & _ & _).
  unfold derive, modify. intros [= <-]. cbn. by rewrite Hi.
Qed.

(** C10.  Once a first [CpuAssessor] has been constructed in a process,
    every later construction and every later [get_mark_json], in any
    number, leaves the class data as the first file built it, whatever
    marks file is named and whatever the files hold by then (the file is
    not opened): the reply is computed from the first file's index, and
    its field cpuscsv is the base name of the path given to that call. *)
Theorem later_marks_files_are_ignored
        (fs1 : files) (f1 : string) (st1 : klass) :
  CpuAssessor fs1 f1 fresh = (st1, Ok tt) ->
  (exists rows1, fs1 f1 = Some rows1 /\ data (build rows1).1 = data st1)
  /\ (forall fs2 f2, CpuAssessor fs2 f2 st1 = (st1, Ok tt))
  /\ (forall fs2 cpu f2,
        get_mark_json fs2 cpu f2 st1 =
          (st1, Ok (let a := nmatch (data st1) cpu in
                    Reply (Py.str (answer_mark a)) cpu
                          (MatchStep_name (answer_step a))
                          (Str.basename f2)
                          (Py.str (answer_line a)) (answer_name a)
                          (answer_det a))))
  /\ (forall calls,
        run_calls calls st1 =
          (st1, map (fun c : call => Ok (reply_from (data st1) c.1.2 c.2)) calls)).
Proof.
  intros H. apply first_construction in H as (Hi & rows & Hf & Hb).
  split; [|split; [|split]].
  - exists rows. split; [done|]. by rewrite Hb.
  - intros fs2 f2. by apply CpuAssessor_initialized.
  - intros fs2 cpu f2. by apply get_mark_json_initialized.
  - intros calls. by apply run_calls_initialized.
Qed.

(** ** Dictionaries *)

Lemma dict_get_set {V : Type} (d : Dict.dict V) k v k' :
  Dict.get (Dict.set k v d) k' = if String.eqb k k' then Some v else Dict.get d k'.
Proof.
  induction d as [|[k0 v0] d IH]; simpl.
  - done.
  - destruct (String.eqb k0 k) eqn:E0; simpl.
    + apply String.eqb_eq in E0 as ->. by destruct (String.eqb k k').
    + destruct (String.eqb k0 k') eqn:E1; [|done].
      apply String.eqb_eq in E1 as ->. by rewrite String.eqb_sym, E0.
Qed.

Lemma dict_get_fold_set {V : Type} (items : list (string * V)) : forall d k v,
  Dict.get (fold_left (fun d kv => Dict.set kv.1 kv.2 d) items d) k = Some v ->
  (exists v', (k, v') ∈ items) \/ Dict.get d k = Some v.
Proof.
  induction items as [|[k0 v0] items IH]; intros d k v; simpl; [by right|].
  intros H. apply IH in H as [[v' H]|H].
  - left. exists v'. apply elem_of_cons. by right.
  - rewrite dict_get_set in H. destruct (String.eqb k0 k) eqn:E; [|by right].
    apply String.eqb_eq in E as ->. left. exists v0. apply elem_of_cons. by left.
Qed.

Lemma dict_get_of_items {V : Type} (items : list (string * V)) k v :
  Dict.get (Dict.of_items items) k = Some v -> exists v', (k, v') ∈ items.
Proof.
  intros H. by apply dict_get_fold_set in H as [H|H].
Qed.

(** ** Characters of a string *)

Lemma prefix_empty s : String.prefix EmptyString s = true.
Proof. by destruct s. Qed.

Lemma prefix_single c a s :
  String.prefix (String c EmptyString) (String a s) = bool_decide (c = a).
Proof.
  simpl. destruct (ascii_dec c a) as [->|N].
  - rewrite prefix_empty. by rewrite bool_decide_eq_true_2.
  - by rewrite bool_decide_eq_false_2.
Qed.

(** A one-character needle is in [s] when some character of [s] is it. *)
Lemma contains_single c s :
  Str.contains (String c EmptyString) s = negb (Str.all (fun a => negb (bool_decide (c = a))) s).
Proof.
  induction s as [|a s IH]; [done|].
  cbn [Str.contains Str.all]. rewrite prefix_single.
  destruct (bool_decide (c = a)); [done|]. by rewrite IH.
Qed.

Lemma all_split0 p sep s : Str.all p s = true -> Str.all p (Str.split0 sep s) = true.
Proof.
  induction s as [|a s IH]; cbn [Str.split0].
  - by destruct (String.prefix sep EmptyString).
  - destruct (String.prefix sep (String a s)); [done|].
    cbn [Str.all]. intros [-> H]%andb_true_iff. by rewrite IH.
Qed.

Lemma all_lstrip p q s : Str.all p s = true -> Str.all p (Str.lstrip_by q s) = true.
Proof.
  induction s as [|a s IH]; [done|]. simpl.
  destruct (q a); [|done]. intros [_ H]%andb_true_iff. by apply IH.
Qed.

Lemma all_rstrip p q s : Str.all p s = true -> Str.all p (Str.rstrip_by q s) = true.
Proof.
  induction s as [|a s IH]; [done|]. simpl.
  intros [Ha H]%andb_true_iff.
  destruct (q a && Str.is_empty (Str.rstrip_by q s)); [done|].
  simpl. by rewrite Ha, IH.
Qed.

Lemma all_strip p s : Str.all p s = true -> Str.all p (Str.strip s) = true.
Proof. intros H. unfold Str.strip, Str.strip_by. by apply all_rstrip, all_lstrip. Qed.

(** The text before the first occurrence of a character is free of it. *)
Lemma split0_single_free c s :
  Str.all (fun a => negb (bool_decide (c = a))) (Str.split0 (String c EmptyString) s) = true.
Proof.
  induction s as [|a s IH]; [done|].
  cbn [Str.split0]. rewrite prefix_single.
  destruct (bool_decide (c = a)) eqn:E; [done|]. simpl. by rewrite E, IH.
Qed.

(** No key of [__marksnoat] has an at sign. *)
Lemma derive_noat_key_free m k v :
  Dict.get (derive_noat m) k = Some v -> Str.contains "@" k = false.
Proof.
  intros H. apply dict_get_of_items in H as [v' H].
  apply list_elem_of_In, in_map_iff in H as [[k0 v0] [[= <- <-] _]].
  rewrite contains_single, negb_false_iff.
  apply all_strip, split0_single_free.
Qed.

(** ** The data a build leaves *)

Lemma init_row_entry r line st st' :
  init_row r line st = (st', Ok tt) ->
  marks (data st') =
    match row_entry r line with
    | Some (n, v) => Dict.set n v (marks (data st))
    | None => marks (data st)
    end.
Proof.
  unfold init_row, row_entry, mbind, M_bind, lift, raise, set_mark, modify, mret, M_ret.
  destruct (row_name r) as [[nam|]|e]; try discriminate.
  destruct (has_vendor nam); [|by intros [= <-]].
  destruct (row_mark r) as [m|e]; try discriminate.
  destruct (Py.int m) as [v|e]; try discriminate.
  by intros [= <-].
Qed.

Lemma init_rows_recorded rows : forall line st st' nam,
  init_rows rows line st = (st', Ok tt) ->
  Dict.get (marks (data st')) nam =
    match recorded rows line nam with
    | Some v => Some v
    | None => Dict.get (marks (data st)) nam
    end.
Proof.
  induction rows as [|r rows IH]; intros line st st' nam.
  - by intros [= <-].
  - rewrite init_rows_cons.
    destruct (init_row r line st) as [st1 [[]|e]] eqn:E1; [|discriminate].
    intros H. rewrite (IH _ _ _ nam H). cbn [recorded].
    destruct (recorded rows (line + 1) nam); [done|].
    rewrite (init_row_entry _ _ _ _ E1).
    destruct (row_entry r line) as [[n v]|]; [|done].
    rewrite dict_get_set. by destruct (String.eqb n nam).
Qed.

(** After a build without error the exact index holds, for each name, the
    pair of the last row of that name, and the two other dictionaries are
    derived from the exact index. *)
Lemma build_ok rows st :
  build rows = (st, Ok tt) ->
  (forall nam, Dict.get (marks (data st)) nam = recorded rows 2 nam)
  /\ marksnoat (data st) = derive_noat (marks (data st))
  /\ markswithsets (data st) = derive_withsets (marks (data st)).
Proof.
  rewrite build_unfold.
  destruct (init_rows rows 2 fresh) as [s1 [[]|e]] eqn:E1; [|discriminate].
  unfold derive, modify. intros [= <-]. cbn [data marks marksnoat markswithsets].
  split; [|done]. intros nam. rewrite (init_rows_recorded _ _ _ _ nam E1).
  by destruct (recorded rows 2 nam).
Qed.

(** ** Rows that stop the build and rows that are passed over *)

Lemma init_row_raise_state r line st st' e :
  init_row r line st = (st', Raise e) -> st' = st.
Proof.
  unfold init_row, mbind, M_bind, lift, raise, set_mark, modify, mret, M_ret.
  destruct (row_name r) as [[nam|]|e0]; try (by intros [= <- _]).
  destruct (has_vendor nam); try done.
  destruct (row_mark r) as [m|e0]; try (by intros [= <- _]).
  destruct (Py.int m) as [v|e0]; try done. by intros [= <- _].
Qed.

Lemma CpuAssessor_uninitialized fs f st rows :
  is_initialized st = false -> fs f = Some rows ->
  CpuAssessor fs f st =
  match init_rows rows 2 st with
  | (s1, Ok _) => ({| is_initialized := true; data := data (derive s1).1 |}, Ok tt)
  | (s1, Raise e) => (s1, Raise e)
  end.
Proof.
  intros Hi Hf. unfold CpuAssessor, init, mbind, M_bind, get. rewrite Hi, Hf.
  by destruct (init_rows rows 2 st) as [s1 [[]|e]].
Qed.

(** Where the loop stops: the rows before have passed, the state is the
    one they leave, and the row at which it stops raises in that state. *)
Lemma init_rows_raise_split rows line st st' e :
  init_rows rows line st = (st', Raise e) ->
  exists pre r post,
    rows = (pre ++ r :: post)%list
    /\ init_rows pre line st = (st', Ok tt)
    /\ init_row r (line + Z.of_nat (length pre)) st' = (st', Raise e).
Proof.
  intros H. destruct (init_rows_outcome rows line st)
    as [[s H']|(pre & r & post & s1 & s2 & e' & -> & Hp & Hr & Ha)]; [congruence|].
  rewrite Ha in H. injection H as -> ->.
  pose proof (init_row_raise_state _ _ _ _ _ Hr) as ->.
  by exists pre, r, post.
Qed.

Lemma init_rows_ok_not_bad rows : forall line st st',
  init_rows rows line st = (st', Ok tt) -> Forall (fun p => ~ bad_mark_row p) rows.
Proof.
  induction rows as [|r rows IH]; intros line st st'; [by constructor|].
  rewrite init_rows_cons.
  destruct (init_row r line st) as [s1 [[]|e]] eqn:E1; [|discriminate].
  intros H. constructor; [|by eapply IH].
  intros Hb. destruct (init_row_bad_mark r line st Hb) as [e He]. congruence.
Qed.

Lemma init_rows_ok_split pre : forall r post line st st',
  init_rows (pre ++ r :: post) line st = (st', Ok tt) ->
  exists s1 s2, init_rows pre line st = (s1, Ok tt)
                /\ init_row r (line + Z.of_nat (length pre)) s1 = (s2, Ok tt).
Proof.
  induction pre as [|p pre IH]; intros r post line st st'.
  - cbn [app length]. rewrite init_rows_cons. change (Z.of_nat 0) with 0.
    rewrite Z.add_0_r.
    destruct (init_row r line st) as [s2 [[]|e]] eqn:E; [|discriminate].
    intros _. by exists st, s2.
  - rewrite <- app_comm_cons, !init_rows_cons.
    destruct (init_row p line st) as [s0 [[]|e]]; [|discriminate].
    intros H. apply IH in H as (s1 & s2 & H1 & H2). exists s1, s2. split; [done|].
    replace (line + Z.of_nat (length (p :: pre)))
      with (line + 1 + Z.of_nat (length pre)) by (simpl length; lia). done.
Qed.

(** A row that the loop gets past is left out or is indexed. *)
Lemma init_row_ok_cases r line st st' :
  init_row r line st = (st', Ok tt) ->
  (other_row r /\ st' = st)
  \/ (vendor_row r /\ exists nam m,
        row_entry r line = Some (nam, (m, line))
        /\ marks (data st') = Dict.set nam (m, line) (marks (data st))).
Proof.
  unfold init_row, row_entry, other_row, vendor_row.
  unfold mbind, M_bind, lift, raise, set_mark, modify, mret, M_ret.
  destruct (row_name r) as [[nam|]|e]; try discriminate.
  destruct (has_vendor nam) eqn:Ev.
  - destruct (row_mark r) as [m|e]; try discriminate.
    destruct (Py.int m) as [v|e]; try discriminate.
    intros [= <-]. right. split; [by exists nam|]. by exists nam, v.
  - intros [= <-]. left. split; [by exists nam|done].
Qed.

Lemma recorded_some pre : forall r post line nam v,
  row_entry r (line + Z.of_nat (length pre)) = Some (nam, v) ->
  is_Some (recorded (pre ++ r :: post) line nam).
Proof.
  induction pre as [|p pre IH]; intros r post line nam v.
  - cbn [app length recorded]. change (Z.of_nat 0) with 0. rewrite Z.add_0_r.
    intros ->. rewrite String.eqb_refl.
    destruct (recorded post (line + 1) nam); by eexists.
  - intros H. rewrite <- app_comm_cons. cbn [recorded].
    destruct (IH r post (line + 1) nam v) as [w ->]; [|by eexists].
    replace (line + 1 + Z.of_nat (length pre))
      with (line + Z.of_nat (length (p :: pre))) by (simpl length; lia). done.
Qed.

Lemma row_name_ext (r r' : row) :
  (forall c, c ∈ name_aliases -> r' !! c = r !! c) -> row_name r' = row_name r.
Proof.
  intros H. unfold row_name.
  rewrite !H; [done|..]; unfold name_aliases; set_solver.
Qed.

(** C8, as amended.  The loop has no handler around a row.  A data set
    with a vendor row whose mark is there but is no integer does not
    build: the loop stops at the first row that raises, which is that
    row or one before it, and raises out of the build with its exception.
    The state is then the one the rows before the stop have left: the
    exact index holds those rows and nothing of the row of the stop or
    of a later row, the derived dictionaries are not computed, the
    constructor raises as well and leaves the class uninitialised, so
    that [assess] refuses.  When the rows before it pass, the stop is at
    the row with the bad mark, with the exception of [int].  A row is
    passed over exactly when its name has no vendor marker, whatever its
    other columns hold or lack (the mark column is not read): every row
    that the loop gets past is either such a row, and leaves the state as
    it is, or a vendor row that is entered in the exact index with its
    mark and its line; after a build without error the name of every
    vendor row is a key of the exact index. *)
Theorem only_rows_without_vendor_are_skipped :
  (forall rows, Exists bad_mark_row rows ->
     exists pre r post st e,
       rows = (pre ++ r :: post)%list
       /\ Forall (fun p => ~ bad_mark_row p) pre
       /\ init_rows pre 2 fresh = (st, Ok tt)
       /\ init_row r (2 + Z.of_nat (length pre)) st = (st, Raise e)
       /\ build rows = (st, Raise e)
       /\ (forall nam, Dict.get (marks (data st)) nam = recorded pre 2 nam)
       /\ markswithsets (data st) = [] /\ marksnoat (data st) = []
       /\ (forall fs f cpu, fs f = Some rows ->
             CpuAssessor fs f fresh = (st, Raise e)
             /\ is_initialized st = false
             /\ assess cpu st = (st, Raise not_initialized)))
  /\ (forall pre r post st,
        init_rows pre 2 fresh = (st, Ok tt) -> bad_mark_row r ->
        exists m e, row_mark r = Ok m /\ Py.int m = Raise e
                    /\ build (pre ++ r :: post) = (st, Raise e))
  /\ (forall r r' line st,
        other_row r -> (forall c, c ∈ name_aliases -> r' !! c = r !! c) ->
        init_row r' line st = (st, Ok tt))
  /\ (forall r line st st',
        init_row r line st = (st', Ok tt) ->
        (other_row r /\ st' = st)
        \/ (vendor_row r /\ exists nam m,
              row_entry r line = Some (nam, (m, line))
              /\ marks (data st') = Dict.set nam (m, line) (marks (data st))))
  /\ (forall rows st,
        build rows = (st, Ok tt) ->
        forall pre r post, rows = (pre ++ r :: post)%list ->
          other_row r
          \/ exists nam v,
               row_entry r (2 + Z.of_nat (length pre)) = Some (nam, v)
               /\ is_Some (Dict.get (marks (data st)) nam)).
Proof.
  split_and!.
  - intros rows H.
    destruct (init_rows_bad_mark rows 2 fresh H) as (st & e & E).
    destruct (init_rows_raise_split _ _ _ _ _ E) as (pre & r & post & -> & Hp & Hr).
    pose proof (init_rows_preserves _ _ _ _ _ E) as (Hi & Hw & Hn).
    exists pre, r, post, st, e. split_and!; try done.
    + by eapply init_rows_ok_not_bad.
    + by rewrite build_unfold, E.
    + intros nam. rewrite (init_rows_recorded _ _ _ _ nam Hp).
      by destruct (recorded pre 2 nam).
    + intros fs f cpu Hf. split_and!; [|done|].
      * by rewrite (CpuAssessor_uninitialized fs f fresh _ eq_refl Hf), E.
      * unfold assess, mbind, M_bind, get. by rewrite Hi.
  - intros pre r post st Hp Hb.
    destruct (init_row_bad_mark r (2 + Z.of_nat (length pre)) st Hb) as [e He].
    destruct Hb as [(nam & Hn & Hv) (m & e' & Hm & He')].
    exists m, e'. split_and!; try done.
    rewrite build_unfold, (init_rows_raise pre r post 2 fresh st st e Hp He).
    revert He. unfold init_row, mbind, M_bind, lift. rewrite Hn, Hv, Hm, He'.
    by intros [= ->].
  - intros r r' line st [nam [Hn Hv]] Hc. apply init_row_other.
    exists nam. by rewrite (row_name_ext r r' Hc).
  - intros r line st st'. apply init_row_ok_cases.
  - intros rows st Hb pre r post ->.
    pose proof (build_ok _ _ Hb) as (Hg & _).
    revert Hb. rewrite build_unfold.
    destruct (init_rows (pre ++ r :: post) 2 fresh) as [s0 [[]|e]] eqn:E; [|discriminate].
    intros _. apply init_rows_ok_split in E as (s1 & s2 & _ & H2).
    apply init_row_ok_cases in H2 as [[Ho _]|[_ (nam & m & He & _)]]; [by left|].
    right. exists nam, (m, 2 + Z.of_nat (length pre)). split; [done|].
    rewrite Hg. by eapply recorded_some.
Qed.

(** ** The exact tiers *)

Lemma truthy_nonzero z : z <> 0 -> truthy z = true.
Proof. unfold truthy. intros H. by apply negb_true_iff, Z.eqb_neq. Qed.

Lemma nmatch_simple0 idx x m l :
  Dict.get (marksnoat idx) x = Some (m, l) -> m <> 0 ->
  nmatch idx x = (m, (SIMPLE_0, l, x), []).
Proof.
  intros H Hm. unfold nmatch, Dict.get_default. rewrite H. cbn [fst snd].
  by rewrite (truthy_nonzero m Hm).
Qed.

Lemma nmatch_simple1 idx x m l :
  hit0 idx x = false ->
  Dict.get (marks idx) (simple1_key x) = Some (m, l) -> m <> 0 ->
  nmatch idx x = (m, (SIMPLE_1, l, simple1_key x), []).
Proof.
  unfold hit0. intros H0 H Hm. unfold nmatch. rewrite H0.
  unfold Dict.get_default at 1 2 3. rewrite H. cbn [fst snd].
  by rewrite (truthy_nonzero m Hm).
Qed.

Lemma hit0_spec idx x :
  hit0 idx x = true ->
  exists m l, Dict.get (marksnoat idx) x = Some (m, l) /\ m <> 0.
Proof.
  unfold hit0, Dict.get_default, truthy.
  destruct (Dict.get (marksnoat idx) x) as [[m l]|]; cbn [fst]; [|done].
  intros H%negb_true_iff%Z.eqb_neq. by exists m, l.
Qed.

(** A query with an at sign never hits at SIMPLE_0 on a built index. *)
Lemma hit0_at_sign rows st x :
  build rows = (st, Ok tt) -> Str.contains "@" x = true -> hit0 (data st) x = false.
Proof.
  intros (_ & Hn & _)%build_ok Hx. unfold hit0, Dict.get_default. rewrite Hn.
  destruct (Dict.get (derive_noat (marks (data st))) x) as [v|] eqn:E; [|done].
  apply derive_noat_key_free in E. congruence.
Qed.

(** C2, as amended.  The exact index is keyed by the names as the
    reference file has them, and SIMPLE_1 looks up the query with its
    markers removed: when the reference data record the name
    Intel Core i7-7500U at 2.70GHz (as the query reads once normalised)
    with mark 3641, the query with the markers is answered at SIMPLE_1
    with mark 3641 and the line of that row. *)
Theorem i7_7500U_found_by_normalised_name (rows : list row) (st : klass) (l : Z) :
  build rows = (st, Ok tt) ->
  recorded rows 2 "Intel Core i7-7500U @ 2.70GHz" = Some (3641, l) ->
  nmatch (data st) "Intel(R) Core(TM) i7-7500U CPU @ 2.70GHz"
  = (3641, (SIMPLE_1, l, "Intel Core i7-7500U @ 2.70GHz"), []).
Proof.
  intros Hb Hr.
  assert (Hk : simple1_key "Intel(R) Core(TM) i7-7500U CPU @ 2.70GHz"
               = "Intel Core i7-7500U @ 2.70GHz") by (vm_compute; reflexivity).
  pose proof (nmatch_simple1 (data st) "Intel(R) Core(TM) i7-7500U CPU @ 2.70GHz" 3641 l) as H.
  rewrite Hk in H. apply H.
  - by apply (hit0_at_sign rows); [|vm_compute].
  - apply build_ok in Hb as [Hm _]. by rewrite Hm.
  - done.
Qed.

(** C3, as amended.  A name that is a key of the exact index with a mark
    other than zero, and that the normalisation of SIMPLE_1 leaves as it
    is, is answered at SIMPLE_1 with the mark and line stored for it,
    unless the no-frequency index has it as a key with a mark other than
    zero: then the answer comes from that entry, at SIMPLE_0. *)
Theorem verbatim_name_found_at_simple_tiers
        (idx : index) (name : string) (m l : Z) :
  Dict.get (marks idx) name = Some (m, l) -> m <> 0 ->
  simple1_key name = name ->
  (hit0 idx name = false -> nmatch idx name = (m, (SIMPLE_1, l, name), []))
  /\ (hit0 idx name = true ->
      exists m0 l0, Dict.get (marksnoat idx) name = Some (m0, l0) /\ m0 <> 0
                    /\ nmatch idx name = (m0, (SIMPLE_0, l0, name), [])).
Proof.
  intros Hg Hm Hk. split.
  - intros H0. pose proof (nmatch_simple1 idx name m l H0) as H.
    rewrite Hk in H. by apply H.
  - intros (m0 & l0 & H0 & Hm0)%hit0_spec. exists m0, l0.
    repeat split; try done. by apply nmatch_simple0.
Qed.

(** ** The matcher *)

Lemma rep_star_cons p c s :
  Re.rep p 0 None (String c s) =
  if p c then (map (fun m => (String c m.1, m.2)) (Re.rep p 0 None s)
                 ++ [(EmptyString, String c s)])%list
  else [(EmptyString, String c s)].
Proof. cbn [Re.rep Re.hi_open Nat.pred fmap option_fmap option_map]. by rewrite andb_true_r. Qed.

Lemma rep_star_nil p : Re.rep p 0 None EmptyString = [(EmptyString, EmptyString)].
Proof. reflexivity. Qed.

Lemma re_match_groups r s : Re.re_match r s = head (groups_of r true s []).
Proof. unfold Re.re_match, groups_of. by destruct (Re.ms r true s []). Qed.

Lemma flat_map_map {A B C : Type} (f : B -> list C) (h : A -> B) (l : list A) :
  flat_map f (map h l) = flat_map (fun a => f (h a)) l.
Proof. induction l as [|a l IH]; simpl; [done|]. by rewrite IH. Qed.

Lemma map_flat_map {A B C : Type} (f : A -> list B) (h : B -> C) (l : list A) :
  map h (flat_map f l) = flat_map (fun a => map h (f a)) l.
Proof. induction l as [|a l IH]; simpl; [done|]. by rewrite map_app, IH. Qed.

Lemma flat_map_ext_all {A B : Type} (f h : A -> list B) (l : list A) :
  (forall a, f a = h a) -> flat_map f l = flat_map h l.
Proof. intros H. induction l as [|a l IH]; simpl; [done|]. by rewrite H, IH. Qed.

Lemma head_app {A : Type} (l1 l2 : list A) :
  head (l1 ++ l2) = match head l1 with Some a => Some a | None => head l2 end.
Proof. by destruct l1. Qed.

Lemma groups_of_seq r1 r2 at0 s g :
  groups_of (Re.Seq r1 r2) at0 s g =
  flat_map (fun m1 : Re.result =>
              groups_of r2 (at0 && Str.is_empty m1.1.1) m1.1.2 m1.2)
           (Re.ms r1 at0 s g).
Proof.
  unfold groups_of. cbn [Re.ms]. rewrite map_flat_map.
  apply flat_map_ext_all. intros m1. by rewrite map_map.
Qed.

Lemma rep_dot_head s :
  exists tl, Re.rep Chr.is_dot 0 None s = (line s, after_line s) :: tl.
Proof.
  induction s as [|c s [tl IH]]; [by exists []|].
  rewrite rep_star_cons. cbn [line after_line].
  destruct (Chr.is_dot c); [|by exists []].
  rewrite IH. cbn [map app fst snd]. by eexists.
Qed.

Lemma prefix_drop p : forall s,
  String.prefix p s = true -> s = p +:+ Re.drop (String.length p) s.
Proof.
  induction p as [|a p IH]; intros s; [by destruct s|].
  destruct s as [|b s]; [done|]. cbn [String.prefix].
  destruct (ascii_dec a b) as [->|]; [|done].
  intros H. cbn [String.length Re.drop]. change (String b s = String b (p +:+ Re.drop (String.length p) s)).
  f_equal. by apply IH.
Qed.

Lemma line_app_dots p s :
  Str.all Chr.is_dot p = true -> line (p +:+ s) = p +:+ line s.
Proof.
  induction p as [|a p IH]; [done|]. simpl.
  intros [Ha H]%andb_true_iff. by rewrite Ha, IH.
Qed.

Lemma after_line_app_dots p s :
  Str.all Chr.is_dot p = true -> after_line (p +:+ s) = after_line s.
Proof.
  induction p as [|a p IH]; [done|]. simpl.
  intros [Ha H]%andb_true_iff. by rewrite Ha, IH.
Qed.

(** A marker at the head of [s] is kept with the rest of its line. *)
Lemma vendor_kept_head at0 s g :
  head (Re.ms vendor_kept at0 s g) =
  if starts_vendor s then Some (line s, after_line s, g) else None.
Proof.
  unfold vendor_kept, starts_vendor. cbn [Re.ms].
  destruct (String.prefix "Intel" s) eqn:EI.
  - cbn [app flat_map orb fst snd].
    pose proof (prefix_drop _ _ EI) as E.
    destruct (rep_dot_head (Re.drop (String.length "Intel") s)) as [tl ->].
    cbn [map app head fst snd].
    set (t := Re.drop _ s) in *. clearbody t. subst s.
    by rewrite line_app_dots, after_line_app_dots.
  - cbn [app orb]. destruct (String.prefix "AMD" s) eqn:EA; [|done].
    cbn [flat_map fst snd].
    pose proof (prefix_drop _ _ EA) as E.
    destruct (rep_dot_head (Re.drop (String.length "AMD") s)) as [tl ->].
    cbn [map app head fst snd].
    set (t := Re.drop _ s) in *. clearbody t. subst s.
    by rewrite line_app_dots, after_line_app_dots.
Qed.

Lemma head_map {A B : Type} (f : A -> B) (l : list A) : head (map f l) = f <$> head l.
Proof. by destruct l. Qed.

Lemma head_flat_map_cons {A B : Type} (f : A -> list B) a l :
  head (flat_map f (a :: l)) =
  match head (f a) with Some b => Some b | None => head (flat_map f l) end.
Proof. cbn [flat_map]. apply head_app. Qed.

Lemma keep_group_head at0 s :
  head (groups_of (Re.Grp "keep" vendor_kept) at0 s []) =
  if starts_vendor s then Some [("keep", line s)] else None.
Proof.
  unfold groups_of. cbn [Re.ms]. rewrite !head_map, vendor_kept_head.
  by destruct (starts_vendor s).
Qed.

Lemma not_dot_is_newline c : Chr.is_dot c = false -> c = Chr.newline.
Proof.
  unfold Chr.is_dot, Chr.code. intros H%negb_false_iff%Nat.eqb_eq.
  rewrite <- (ascii_nat_embedding c). by rewrite H.
Qed.

Lemma starts_vendor_newline c s : Chr.is_dot c = false -> starts_vendor (String c s) = false.
Proof. intros ->%not_dot_is_newline. reflexivity. Qed.

Lemma vendor_groups_head s : forall b : string -> bool,
  head (flat_map (fun m : string * string =>
                    groups_of (Re.Grp "keep" vendor_kept) (b m.1) m.2 [])
                 (Re.rep Chr.is_dot 0 None s))
  = (fun k => [("keep", k)]) <$> last_vendor s.
Proof.
  induction s as [|c s IH]; intros b.
  - rewrite rep_star_nil, head_flat_map_cons, keep_group_head. reflexivity.
  - rewrite rep_star_cons. cbn [last_vendor].
    destruct (Chr.is_dot c) eqn:Ec.
    + rewrite flat_map_app, head_app, flat_map_map. cbn [fst snd].
      rewrite (IH (fun t => b (String c t))).
      destruct (last_vendor s) as [k|]; [done|]. cbn [fmap option_fmap option_map].
      rewrite head_flat_map_cons, keep_group_head. cbn [fst snd].
      by destruct (starts_vendor (String c s)).
    + rewrite head_flat_map_cons, keep_group_head. cbn [fst snd].
      by rewrite (starts_vendor_newline c s Ec).
Qed.

(** What [re.match] finds for the vendor pattern. *)
Lemma re_match_vendor s :
  Re.re_match Pat.vendor s = (fun k => [("keep", k)]) <$> last_vendor s.
Proof.
  rewrite re_match_groups. unfold Pat.vendor. rewrite groups_of_seq.
  cbn [Re.ms]. rewrite flat_map_map. cbn [fst snd andb].
  apply (vendor_groups_head s (fun t => Str.is_empty t)).
Qed.

Lemma vendor_step_last s :
  vendor_step s = match last_vendor s with Some k => k | None => s end.
Proof.
  unfold vendor_step. rewrite re_match_vendor.
  by destruct (last_vendor s).
Qed.

(** ** The vendor step *)

Lemma line_after_line s : s = line s +:+ after_line s.
Proof.
  induction s as [|c s IH]; [done|]. cbn [line after_line].
  destruct (Chr.is_dot c); [|done].
  change (String c s = String c (line s +:+ after_line s)). by f_equal.
Qed.

Lemma line_dots s : Str.all Chr.is_dot (line s) = true.
Proof.
  induction s as [|c s IH]; [done|]. cbn [line].
  destruct (Chr.is_dot c) eqn:E; [|done]. simpl. by rewrite E, IH.
Qed.

Lemma after_line_shape s :
  after_line s = EmptyString \/ exists r, after_line s = String Chr.newline r.
Proof.
  induction s as [|c s IH]; [by left|]. cbn [after_line].
  destruct (Chr.is_dot c) eqn:E; [done|].
  right. exists s. by rewrite (not_dot_is_newline c E).
Qed.

Lemma starts_vendor_line s : starts_vendor s = true -> starts_vendor (line s) = true.
Proof.
  unfold starts_vendor. intros [H|H]%orb_true_iff.
  - rewrite (prefix_drop _ _ H), line_app_dots by done.
    apply orb_true_iff. left. simpl. apply prefix_empty.
  - rewrite (prefix_drop _ _ H), line_app_dots by done.
    apply orb_true_iff. right. simpl. apply prefix_empty.
Qed.

Lemma vendor_at_zero s : vendor_at s 0 <-> starts_vendor s = true.
Proof.
  split.
  - intros (pre & suf & -> & Hl & _ & Hv). by destruct pre.
  - intros H. by exists EmptyString, s.
Qed.

Lemma vendor_at_succ c s j :
  vendor_at (String c s) (S j) <-> Chr.is_dot c = true /\ vendor_at s j.
Proof.
  split.
  - intros (pre & suf & E & Hl & Hd & Hv). destruct pre as [|a pre]; [done|].
    simpl in E, Hl, Hd. injection E as <- ->. injection Hl as Hl.
    apply andb_true_iff in Hd as [Ha Hd]. split; [done|]. by exists pre, suf.
  - intros [Hc (pre & suf & -> & Hl & Hd & Hv)].
    exists (String c pre), suf. simpl. rewrite Hc, Hd, Hl. by repeat split.
Qed.

Lemma last_vendor_complete s : forall j, vendor_at s j -> is_Some (last_vendor s).
Proof.
  induction s as [|c s IH]; intros j H.
  - destruct j; [by apply vendor_at_zero in H|].
    destruct H as (pre & suf & E & Hl & _). by destruct pre.
  - cbn [last_vendor]. destruct j as [|j].
    + apply vendor_at_zero in H.
      destruct (Chr.is_dot c) eqn:Ec; [|by rewrite (starts_vendor_newline c s Ec) in H].
      rewrite H. by destruct (last_vendor s).
    + apply vendor_at_succ in H as [-> H]. apply IH in H as [k ->]. by eexists.
Qed.

Lemma last_vendor_sound s : forall k,
  last_vendor s = Some k ->
  exists pre rest,
    s = pre +:+ k +:+ rest
    /\ Str.all Chr.is_dot pre = true /\ Str.all Chr.is_dot k = true
    /\ starts_vendor k = true
    /\ (rest = EmptyString \/ exists r, rest = String Chr.newline r)
    /\ forall j, vendor_at s j -> (j <= String.length pre)%nat.
Proof.
  induction s as [|c s IH]; intros k; [done|]. cbn [last_vendor].
  destruct (Chr.is_dot c) eqn:Ec; [|done].
  destruct (last_vendor s) as [k'|] eqn:El.
  - intros [= <-]. destruct (IH k' eq_refl) as (pre & rest & E & Hp & Hk & Hv & Hr & Hmax).
    exists (String c pre), rest. cbn [Str.all String.length]. rewrite Ec, Hp.
    repeat split; try done.
    + change (String c s = String c (pre +:+ k' +:+ rest)). by f_equal.
    + intros [|j] Hj; [lia|]. apply vendor_at_succ in Hj as [_ Hj].
      apply Hmax in Hj. lia.
  - destruct (starts_vendor (String c s)) eqn:Es; [|done]. intros [= <-].
    exists EmptyString, (after_line (String c s)). repeat split.
    + exact (line_after_line (String c s)).
    + exact (line_dots (String c s)).
    + exact (starts_vendor_line (String c s) Es).
    + exact (after_line_shape (String c s)).
    + intros [|j] Hj; [done|]. apply vendor_at_succ in Hj as [_ Hj].
      apply last_vendor_complete in Hj as [? Hj]. congruence.
Qed.

Lemma str_app_nil_r s : s +:+ EmptyString = s.
Proof.
  induction s as [|c s IH]; [done|].
  change (String c (s +:+ EmptyString) = String c s). by rewrite IH.
Qed.

Lemma all_app p a b : Str.all p (a +:+ b) = Str.all p a && Str.all p b.
Proof. induction a as [|c a IH]; [done|]. simpl. by rewrite IH, andb_assoc. Qed.

(** C5, as amended.  When a vendor marker occurs in the input before any
    line feed, the vendor step returns the text that starts at the last
    such occurrence (no marker starts further to the right) and runs to
    the end of that line.  For an input without line feed this is the
    suffix that starts at the last occurrence: with two occurrences the
    result begins at the later one. *)
Theorem vendor_step_keeps_from_last_marker (s : string) (n : nat) :
  vendor_at s n ->
  exists pre rest,
    s = pre +:+ vendor_step s +:+ rest
    /\ Str.all Chr.is_dot pre = true
    /\ Str.all Chr.is_dot (vendor_step s) = true
    /\ starts_vendor (vendor_step s) = true
    /\ (rest = EmptyString \/ exists r, rest = String Chr.newline r)
    /\ (forall j, vendor_at s j -> (j <= String.length pre)%nat)
    /\ (Str.all Chr.is_dot s = true -> s = pre +:+ vendor_step s).
Proof.
  intros H. rewrite vendor_step_last.
  destruct (last_vendor_complete s n H) as [k Hk]. rewrite Hk.
  destruct (last_vendor_sound s k Hk) as (pre & rest & E & Hp & Hd & Hv & Hr & Hmax).
  exists pre, rest. repeat split; try done.
  intros Hs. destruct Hr as [->|[r ->]].
  - by rewrite str_app_nil_r in E.
  - rewrite E, !all_app in Hs. simpl in Hs.
    rewrite !andb_false_r in Hs. discriminate.
Qed.

(** ** The tokenizer *)

Lemma keytoset_step_union s t : keytoset_step s t = s ∪ tokens_of t.
Proof.
  unfold tokens_of, keytoset_step.
  destruct (Str.is_empty t || Str.contains "Duo" t); [set_solver|].
  destruct (Re.re_match Pat.digits t), (Re.re_match Pat.digits_letters t); set_solver.
Qed.

Lemma fold_keytoset_step l : forall s,
  fold_left keytoset_step l s = s ∪ ⋃ (map tokens_of l).
Proof.
  induction l as [|t l IH]; intros s; simpl.
  - set_solver.
  - rewrite IH, keytoset_step_union. set_solver.
Qed.

Lemma keytoset_union k :
  keytoset k = ⋃ (map tokens_of (Re.re_split Pat.separators k)).
Proof. unfold keytoset. rewrite fold_keytoset_step. set_solver. Qed.

(** Every way a repetition matches takes characters of its class, at
    least the lower bound of them, from the head of the subject. *)
Lemma rep_sound p s : forall lo hi c rest,
  (c, rest) ∈ Re.rep p lo hi s ->
  Str.all p c = true /\ (lo <= String.length c)%nat /\ s = c +:+ rest.
Proof.
  induction s as [|a s IH]; intros lo hi c rest.
  - cbn [Re.rep]. destruct lo; [|by intros ?%elem_of_nil].
    intros [= -> ->]%list_elem_of_singleton. by repeat split.
  - cbn [Re.rep].
    assert (Hstop : (c, rest) ∈ match lo with
                                | O => [(EmptyString, String a s)]
                                | S _ => []
                                end ->
            Str.all p c = true /\ (lo <= String.length c)%nat
            /\ String a s = c +:+ rest).
    { destruct lo; [|by intros ?%elem_of_nil].
      intros [= -> ->]%list_elem_of_singleton. by repeat split. }
    destruct (p a && Re.hi_open hi) eqn:E; [|done].
    apply andb_true_iff in E as [Ea _].
    intros [H|H]%elem_of_app; [|by apply Hstop].
    apply list_elem_of_In, in_map_iff in H as [[c' rest'] [[= <- <-] H]].
    apply list_elem_of_In, IH in H as (Hc & Hl & ->). cbn [fst snd].
    repeat split.
    + simpl. by rewrite Ea, Hc.
    + simpl. lia.
Qed.

Lemma ms_seq_in r1 r2 at0 s g (m : Re.result) :
  m ∈ Re.ms (Re.Seq r1 r2) at0 s g <->
  exists m1 m2 : Re.result,
    m1 ∈ Re.ms r1 at0 s g
    /\ m2 ∈ Re.ms r2 (at0 && Str.is_empty m1.1.1) m1.1.2 m1.2
    /\ m = (m1.1.1 +:+ m2.1.1, m2.1.2, m2.2).
Proof.
  cbn [Re.ms]. rewrite list_elem_of_In, in_flat_map. split.
  - intros (m1 & H1 & H2). apply in_map_iff in H2 as (m2 & <- & H2).
    exists m1, m2. by rewrite !list_elem_of_In.
  - intros (m1 & m2 & H1 & H2 & ->). exists m1. rewrite <- list_elem_of_In.
    split; [done|]. apply in_map_iff. exists m2. by rewrite <- list_elem_of_In.
Qed.

Lemma ms_grp_in name r at0 s g (m : Re.result) :
  m ∈ Re.ms (Re.Grp name r) at0 s g <->
  exists m1 : Re.result,
    m1 ∈ Re.ms r at0 s g /\ m = (m1.1.1, m1.1.2, (name, m1.1.1) :: m1.2).
Proof.
  cbn [Re.ms]. rewrite list_elem_of_In, in_map_iff. split.
  - intros (m1 & <- & H). exists m1. by rewrite list_elem_of_In.
  - intros (m1 & H & ->). exists m1. by rewrite <- list_elem_of_In.
Qed.

Lemma ms_rep_in p lo hi at0 s g (m : Re.result) :
  m ∈ Re.ms (Re.Rep p lo hi) at0 s g <->
  exists c rest, (c, rest) ∈ Re.rep p lo hi s /\ m = (c, rest, g).
Proof.
  cbn [Re.ms]. rewrite list_elem_of_In, in_map_iff. split.
  - intros ([c rest] & <- & H). exists c, rest. by rewrite list_elem_of_In.
  - intros (c & rest & H & ->). exists (c, rest). by rewrite <- list_elem_of_In.
Qed.

Lemma ms_bol_in at0 s g (m : Re.result) :
  m ∈ Re.ms Re.Bol at0 s g <-> at0 = true /\ m = (EmptyString, s, g).
Proof.
  cbn [Re.ms]. destruct at0.
  - rewrite list_elem_of_singleton. naive_solver.
  - rewrite elem_of_nil. naive_solver.
Qed.

Lemma ms_eol_in at0 s g (m : Re.result) :
  m ∈ Re.ms Re.Eol at0 s g ->
  m = (EmptyString, s, g) /\ (s = EmptyString \/ s = String Chr.newline EmptyString).
Proof.
  cbn [Re.ms]. destruct s as [|c [|c' s]].
  - rewrite list_elem_of_singleton. naive_solver.
  - destruct (Chr.code c =? 10)%nat eqn:E; [|by rewrite elem_of_nil].
    rewrite list_elem_of_singleton. intros ->. split; [done|]. right.
    f_equal. apply not_dot_is_newline. unfold Chr.is_dot. by rewrite E.
  - by rewrite elem_of_nil.
Qed.

Lemma re_match_in r s m :
  Re.re_match r s = Some m -> exists c rest, (c, rest, m) ∈ Re.ms r true s [].
Proof.
  unfold Re.re_match. destruct (Re.ms r true s []) as [|[[c rest] g] l]; [done|].
  intros [= <-]. exists c, rest. apply elem_of_cons. by left.
Qed.

Lemma re_match_some r s (m : Re.result) :
  m ∈ Re.ms r true s [] -> is_Some (Re.re_match r s).
Proof.
  unfold Re.re_match. destruct (Re.ms r true s []); [by intros ?%elem_of_nil|by eexists].
Qed.

(** What the groups of the pattern for digits and letters hold. *)
Lemma digits_letters_groups t m :
  Re.re_match Pat.digits_letters t = Some m ->
  exists D L,
    Re.group "D" m = D /\ Re.group "L" m = L
    /\ Str.is_empty D = false /\ Str.all Chr.is_digit D = true
    /\ Str.all Chr.is_word L = true.
Proof.
  intros (c & rest & H)%re_match_in. unfold Pat.digits_letters in H.
  apply ms_seq_in in H as (m0 & m1 & H0 & H1 & E).
  apply ms_bol_in in H0 as [_ ->]. cbn [fst snd andb Str.is_empty] in H1.
  apply ms_seq_in in H1 as (mD & m2 & HD & H2 & ->).
  apply ms_grp_in in HD as (mD' & HD & ->).
  apply ms_rep_in in HD as (D & rD & HD & ->).
  cbn [fst snd] in H2.
  apply ms_seq_in in H2 as (mL & m3 & HL & H3 & ->).
  apply ms_grp_in in HL as (mL' & HL & ->).
  apply ms_rep_in in HL as (L & rL & HL & ->).
  cbn [fst snd] in H3. apply ms_eol_in in H3 as [-> _].
  cbn [fst snd] in E. injection E as _ _ ->.
  apply rep_sound in HD as (HDd & HDl & _).
  apply rep_sound in HL as (HLw & _ & _).
  exists D, L. repeat split; try done.
  destruct D; [simpl in HDl; lia|done].
Qed.

Lemma rep_full p s : forall lo,
  Str.all p s = true -> (lo <= String.length s)%nat ->
  (s, EmptyString) ∈ Re.rep p lo None s.
Proof.
  induction s as [|a s IH]; intros lo Hp Hl.
  - simpl in Hl. assert (lo = 0%nat) as -> by lia. cbn. apply elem_of_cons. by left.
  - simpl in Hp. apply andb_true_iff in Hp as [Ha Hp].
    cbn [Re.rep Re.hi_open fmap option_fmap option_map]. rewrite Ha. cbn [andb].
    apply elem_of_app. left. apply list_elem_of_In, in_map_iff.
    exists (s, EmptyString). split; [done|]. apply list_elem_of_In, IH; [done|].
    simpl in Hl. lia.
Qed.

Lemma digits_match D :
  Str.is_empty D = false -> Str.all Chr.is_digit D = true ->
  is_Some (Re.re_match Pat.digits D).
Proof.
  intros Hn Hd.
  apply (re_match_some _ _ (D +:+ EmptyString, EmptyString, [("D", D)])).
  unfold Pat.digits. apply ms_seq_in.
  exists (EmptyString, D, []), (D +:+ EmptyString, EmptyString, [("D", D)]).
  split; [by apply ms_bol_in|]. split; [|done]. cbn [fst snd].
  apply ms_seq_in.
  exists (D, EmptyString, [("D", D)]), (EmptyString, EmptyString, [("D", D)]).
  split; [|split; [|done]].
  - apply ms_grp_in. exists (D, EmptyString, []). split; [|done].
    apply ms_rep_in. exists D, EmptyString. split; [|done].
    apply rep_full; [done|]. destruct D; [done|simpl; lia].
  - cbn. apply elem_of_cons. by left.
Qed.

Lemma digits_letters_single c :
  Re.re_match Pat.digits_letters (String c EmptyString) = None.
Proof.
  unfold Re.re_match, Pat.digits_letters. cbn.
  destruct (Chr.is_digit c); reflexivity.
Qed.

Lemma word_not_sep c : Chr.is_word c = true -> Chr.is_sep c = false.
Proof. destruct c as [[] [] [] [] [] [] [] []]; vm_compute; congruence. Qed.

Lemma digit_is_word c : Chr.is_digit c = true -> Chr.is_word c = true.
Proof. unfold Chr.is_word. by intros ->. Qed.

Lemma no_duo_in_digits D : Str.all Chr.is_digit D = true -> Str.contains "Duo" D = false.
Proof.
  induction D as [|a D IH]; [done|]. simpl Str.all. intros [Ha Hd]%andb_true_iff.
  cbn [Str.contains String.prefix].
  destruct (ascii_dec "D" a) as [<-|_]; [vm_compute in Ha; discriminate|]. by apply IH.
Qed.

Lemma no_duo_in_single c : Str.contains "Duo" (String c EmptyString) = false.
Proof. cbn [Str.contains String.prefix]. by destruct (ascii_dec "D" c). Qed.

Lemma sep_free_word s : Str.all Chr.is_word s = true -> sep_free s = true.
Proof.
  unfold sep_free. induction s as [|a s IH]; [done|]. simpl.
  intros [Ha Hs]%andb_true_iff. by rewrite (word_not_sep a Ha), IH.
Qed.

Lemma sep_free_digits s : Str.all Chr.is_digit s = true -> sep_free s = true.
Proof.
  intros H. apply sep_free_word. revert H.
  induction s as [|a s IH]; [done|]. simpl.
  intros [Ha Hs]%andb_true_iff. by rewrite (digit_is_word a Ha), IH.
Qed.

Lemma chars_in p L u :
  u ∈ Str.chars L -> Str.all p L = true ->
  exists c, u = String c EmptyString /\ p c = true.
Proof.
  induction L as [|a L IH]; [set_solver|]. simpl.
  intros [->%elem_of_singleton|H]%elem_of_union [Ha HL]%andb_true_iff.
  - by exists a.
  - by apply IH.
Qed.

(** A run of digits comes back as itself. *)
Lemma stable_digits D :
  Str.is_empty D = false -> Str.all Chr.is_digit D = true -> stable D.
Proof.
  intros Hn Hd. split; [done|split; [by apply sep_free_digits|]].
  unfold tokens_of, keytoset_step. rewrite Hn, (no_duo_in_digits D Hd). cbn [orb].
  destruct (digits_match D Hn Hd) as [m ->]. set_solver.
Qed.

(** A single word character comes back as itself. *)
Lemma stable_single c : Chr.is_word c = true -> stable (String c EmptyString).
Proof.
  intros Hc. split; [done|split].
  - apply sep_free_word. simpl. by rewrite Hc.
  - unfold tokens_of, keytoset_step. rewrite no_duo_in_single, digits_letters_single.
    cbn [Str.is_empty orb]. destruct (Re.re_match Pat.digits _); set_solver.
Qed.

(** Every token of a piece without separator comes back as itself. *)
Lemma tokens_stable t u : sep_free t = true -> u ∈ tokens_of t -> stable u.
Proof.
  intros Ht. unfold tokens_of at 1. unfold keytoset_step.
  destruct (Str.is_empty t) eqn:Hn; [set_solver|].
  destruct (Str.contains "Duo" t) eqn:Hduo; [set_solver|]. cbn [orb].
  assert (Hself : tokens_of t = {[ t ]} -> u ∈ (∅ ∪ {[t]} : gset string) -> stable u).
  { intros Hs Hu. assert (u = t) as -> by set_solver. by split; [|split]. }
  assert (Ht' : tokens_of t =
                match Re.re_match Pat.digits t, Re.re_match Pat.digits_letters t with
                | None, Some m => (∅ ∪ {[ Re.group "D" m ]}) ∪ Str.chars (Re.group "L" m)
                | _, _ => ∅ ∪ {[ t ]}
                end).
  { unfold tokens_of, keytoset_step. by rewrite Hn, Hduo. }
  destruct (Re.re_match Pat.digits t) eqn:Ed.
  { apply Hself. rewrite Ht'. destruct (Re.re_match Pat.digits_letters t); set_solver. }
  destruct (Re.re_match Pat.digits_letters t) as [m|] eqn:Edl;
    [|apply Hself; rewrite Ht'; set_solver].
  destruct (digits_letters_groups t m Edl) as (D & L & -> & -> & HDn & HDd & HLw).
  intros [[He| ->%elem_of_singleton]%elem_of_union|H]%elem_of_union;
    [by apply elem_of_empty in He| |].
  - by apply stable_digits.
  - destruct (chars_in Chr.is_word _ u H HLw) as (c & -> & Hc). by apply stable_single.
Qed.

(** ** Splitting on separators *)

Lemma split_go_at0 b skip cur s :
  Re.split_go Pat.separators b skip cur s = Re.split_go Pat.separators false skip cur s.
Proof. destruct s, skip; reflexivity. Qed.

Lemma rep_star_nonempty p s : exists h tl, Re.rep p 0 None s = h :: tl.
Proof.
  induction s as [|c s (h & tl & IH)]; [by eexists _, _|].
  rewrite rep_star_cons. destruct (p c); [|by eexists _, _].
  rewrite IH. cbn [map app]. by eexists _, _.
Qed.

Lemma match_len_sep_none b c s :
  Chr.is_sep c = false -> Re.match_len Pat.separators b (String c s) = None.
Proof.
  intros H. unfold Re.match_len, Pat.separators. cbn [Re.ms Re.rep]. by rewrite H.
Qed.

Lemma match_len_sep_some b c s :
  Chr.is_sep c = true -> exists n, Re.match_len Pat.separators b (String c s) = Some n.
Proof.
  intros H. unfold Re.match_len, Pat.separators.
  cbn [Re.ms Re.rep Re.hi_open Nat.pred fmap option_fmap option_map]. rewrite H. cbn [andb].
  destruct (rep_star_nonempty Chr.is_sep s) as (h & tl & ->).
  cbn [map app fst snd String.length]. by eexists.
Qed.

(** A single separator before a character that is none. *)
Lemma match_len_sep_one b c d s :
  Chr.is_sep c = true -> Chr.is_sep d = false ->
  Re.match_len Pat.separators b (String c (String d s)) = Some 0%nat.
Proof.
  intros Hc Hd. unfold Re.match_len, Pat.separators.
  cbn [Re.ms Re.rep Re.hi_open Nat.pred fmap option_fmap option_map].
  by rewrite Hc, Hd.
Qed.

Lemma sep_free_snoc cur c :
  sep_free cur = true -> Chr.is_sep c = false ->
  sep_free (cur +:+ String c EmptyString) = true.
Proof.
  unfold sep_free. intros H Hc. rewrite all_app, H. simpl. by rewrite Hc.
Qed.

(** The pieces of a split hold no separator. *)
Lemma split_pieces_sep_free s : forall b skip cur t,
  sep_free cur = true ->
  t ∈ Re.split_go Pat.separators b skip cur s -> sep_free t = true.
Proof.
  induction s as [|c s IH]; intros b skip cur t Hcur.
  - cbn [Re.split_go]. by intros ->%list_elem_of_singleton.
  - cbn [Re.split_go]. destruct skip as [|k]; [|by apply IH].
    destruct (Chr.is_sep c) eqn:Ec.
    + destruct (match_len_sep_some b c s Ec) as [n ->].
      intros [->|H]%elem_of_cons; [done|]. by apply IH in H.
    + rewrite (match_len_sep_none b c s Ec). apply IH. by apply sep_free_snoc.
Qed.

Lemma str_app_assoc a b c : (a +:+ b) +:+ c = a +:+ (b +:+ c).
Proof.
  induction a as [|x a IH]; [done|].
  change (String x ((a +:+ b) +:+ c) = String x (a +:+ (b +:+ c))). by rewrite IH.
Qed.

(** A piece without separator is read into [cur] as a whole. *)
Lemma split_token t : forall cur rest,
  sep_free t = true ->
  Re.split_go Pat.separators false 0 cur (t +:+ rest)
  = Re.split_go Pat.separators false 0 (cur +:+ t) rest.
Proof.
  induction t as [|c t IH]; intros cur rest H.
  - by rewrite str_app_nil_r.
  - unfold sep_free in H. simpl in H. apply andb_true_iff in H as [Hc Ht].
    apply negb_true_iff in Hc.
    change (String c t +:+ rest) with (String c (t +:+ rest)).
    cbn [Re.split_go]. rewrite (match_len_sep_none false c _ Hc).
    rewrite IH by done. by rewrite str_app_assoc.
Qed.

Lemma join_cons2 t t2 l :
  Str.join " " (t :: t2 :: l) = t +:+ String " " (Str.join " " (t2 :: l)).
Proof. reflexivity. Qed.

Lemma join_head t l :
  Str.is_empty t = false -> sep_free t = true ->
  exists d r, Str.join " " (t :: l) = String d r /\ Chr.is_sep d = false.
Proof.
  intros Hn Hs. destruct t as [|d t]; [done|].
  unfold sep_free in Hs. simpl in Hs. apply andb_true_iff in Hs as [Hd _].
  apply negb_true_iff in Hd.
  destruct l as [|t2 l]; [by exists d, t|].
  rewrite join_cons2. by eexists d, _.
Qed.

Lemma split_go_cons0 r b cur c s :
  Re.split_go r b 0 cur (String c s) =
  match Re.match_len r b (String c s) with
  | Some n => cur :: Re.split_go r false n EmptyString s
  | None => Re.split_go r false 0 (cur +:+ String c EmptyString) s
  end.
Proof. reflexivity. Qed.

(** Splitting the join of pieces gives the pieces back. *)
Lemma split_join l : forall t,
  Forall (fun u => Str.is_empty u = false /\ sep_free u = true) (t :: l) ->
  Re.split_go Pat.separators false 0 EmptyString (Str.join " " (t :: l)) = t :: l.
Proof.
  induction l as [|t2 l IH]; intros t H.
  - apply Forall_cons in H as [[_ Ht] _]. cbn [Str.join].
    rewrite <- (str_app_nil_r t) at 1. by rewrite split_token.
  - apply Forall_cons in H as [[_ Ht] H].
    pose proof H as H2. apply Forall_cons in H2 as [[Hn2 Hs2] _].
    rewrite join_cons2, split_token by done.
    destruct (join_head t2 l Hn2 Hs2) as (d & r & E & Hd).
    rewrite E, split_go_cons0, (match_len_sep_one false " " d r eq_refl Hd).
    rewrite <- E. by rewrite IH.
Qed.

Lemma re_split_join t l :
  Forall (fun u => Str.is_empty u = false /\ sep_free u = true) (t :: l) ->
  Re.re_split Pat.separators (Str.join " " (t :: l)) = t :: l.
Proof. intros H. unfold Re.re_split. rewrite split_go_at0. by apply split_join. Qed.

(** Every token of a name comes back as itself. *)
Lemma keytoset_stable k u : u ∈ keytoset k -> stable u.
Proof.
  rewrite keytoset_union, elem_of_union_list. intros (X & HX & Hu).
  apply list_elem_of_In, in_map_iff in HX as (t & <- & Ht).
  apply (tokens_stable t); [|done].
  apply list_elem_of_In in Ht. by apply (split_pieces_sep_free k true 0%nat EmptyString).
Qed.

Lemma union_stable l :
  Forall stable l -> ⋃ (map tokens_of l) = (list_to_set l : gset string).
Proof.
  induction l as [|u l IH]; [done|]. intros [(_ & _ & Hu) Hl]%Forall_cons.
  cbn [map union_list list_to_set foldr]. by rewrite Hu, IH.
Qed.

(** Tokenizing the joined tokens of a list of stable tokens gives their
    set. *)
Lemma keytoset_join l :
  Forall stable l -> keytoset (Str.join " " l) = list_to_set l.
Proof.
  intros H. destruct l as [|t l]; [by vm_compute|].
  rewrite keytoset_union, re_split_join.
  - by apply union_stable.
  - eapply Forall_impl; [exact H|]. by intros u (? & ? & _).
Qed.

(** C6.  The tokenizer gives the same set when it is applied to its own
    tokens, sorted and joined by single spaces. *)
Theorem keytoset_idempotent (name : string) :
  keytoset (Str.join " " (Str.sorted (elements (keytoset name)))) = keytoset name.
Proof.
  assert (Hp : Str.sorted (elements (keytoset name)) ≡ₚ elements (keytoset name))
    by apply merge_sort_Permutation.
  rewrite keytoset_join.
  - apply set_eq. intros u.
    by rewrite elem_of_list_to_set, Hp, elem_of_elements.
  - apply Forall_forall. intros u Hu. apply (keytoset_stable name).
    by rewrite Hp, elem_of_elements in Hu.
Qed.

(** ** The calibration harness *)

Lemma compute_figures_deviation ma ourmarks fig :
  Stat.compute_figures ma ourmarks = Ok fig ->
  deviation_from_truncated_mean ma ourmarks = Ok (Stat.deltapcavg_ fig).
Proof.
  unfold Stat.compute_figures, deviation_from_truncated_mean, truncated_mean, float_mean.
  unfold mbind, outcome_bind.
  destruct (Stat.mapM _ ourmarks) as [lmarks|]; [|done].
  destruct (Stat.of_int (Z.of_nat _)) as [n|]; [|done].
  destruct (Stat.div (Stat.sum lmarks) n) as [mean|]; [|done].
  destruct (Stat.to_int mean) as [avg|]; [|done].
  destruct (Stat.min lmarks) as [lo|]; [|done].
  destruct (Stat.to_int lo) as [mn|]; [|done].
  destruct (Stat.max lmarks) as [hi|]; [|done].
  destruct (Stat.to_int hi) as [mx|]; [|done].
  destruct (Stat.deltapc ma mn) as [dmin|]; [|done].
  destruct (Stat.deltapc ma mx) as [dmax|]; [|done].
  destruct (Stat.deltapc ma avg) as [davg|]; [|done].
  destruct (Stat.of_int avg) as [favg|]; [|done].
  destruct (Stat.mapM _ lmarks) as [sq|]; [|done].
  destruct (Stat.div (Stat.sum sq) n) as [variance|]; [|done].
  by intros [= <-].
Qed.

(** What one turn of the loop adds to the counters. *)
Lemma turn_counts idx threshold l item l' :
  Stat.turn idx threshold l item = Ok l' ->
  Stat.ncorrect l' = (Stat.ncorrect l + Stat.count (counted_correct idx threshold item))%nat
  /\ Stat.nfalse l' = (Stat.nfalse l + Stat.count (counted_false idx threshold item))%nat
  /\ Stat.nhit l' = (Stat.nhit l
                     + Stat.count (truthy (answer_mark (nmatch idx item.1))))%nat
  /\ Stat.nmiss l' = (Stat.nmiss l
                      + Stat.count (negb (truthy (answer_mark (nmatch idx item.1)))))%nat.
Proof.
  unfold Stat.turn, counted_correct, counted_false. cbv zeta.
  destruct (truthy (answer_mark (nmatch idx item.1))) eqn:Et.
  - unfold mbind, outcome_bind.
    destruct (Stat.compute_figures _ _) as [fig|] eqn:Ef; [|done].
    rewrite (compute_figures_deviation _ _ _ Ef). intros [= <-].
    cbn [Stat.ncorrect Stat.nfalse Stat.nhit Stat.nmiss andb Stat.count Stat.within].
    unfold Stat.within. repeat split; simpl; lia.
  - intros [= <-].
    cbn [Stat.ncorrect Stat.nfalse Stat.nhit Stat.nmiss andb negb Stat.count].
    repeat split; simpl; lia.
Qed.

Lemma loop_counts idx threshold items : forall l l',
  Stat.loop idx threshold l items = Ok l' ->
  Stat.ncorrect l' =
    (Stat.ncorrect l + length (List.filter (counted_correct idx threshold) items))%nat
  /\ Stat.nfalse l' =
    (Stat.nfalse l + length (List.filter (counted_false idx threshold) items))%nat.
Proof.
  induction items as [|item items IH]; intros l l'.
  - intros [= <-]. simpl. lia.
  - cbn [Stat.loop]. unfold mbind, outcome_bind.
    destruct (Stat.turn idx threshold l item) as [l1|] eqn:E1; [|done].
    intros H. apply IH in H as [-> ->].
    apply turn_counts in E1 as (-> & -> & _). cbn [List.filter].
    destruct (counted_correct idx threshold item),
             (counted_false idx threshold item); simpl; lia.
Qed.

Lemma turn_classifies idx threshold l item l' :
  Stat.turn idx threshold l item = Ok l' ->
  answer_mark (nmatch idx item.1) <> 0 ->
  exists avg d,
    truncated_mean item.2 = Ok avg
    /\ Stat.deltapc (answer_mark (nmatch idx item.1)) avg = Ok d
    /\ Stat.ncorrect l' = (Stat.ncorrect l + Stat.count (d <=? threshold)%float)%nat
    /\ Stat.nfalse l' = (Stat.nfalse l + Stat.count (negb (d <=? threshold)%float))%nat.
Proof.
  intros Ht Hm. pose proof (turn_counts _ _ _ _ _ Ht) as (Hc & Hf & _).
  apply truthy_nonzero in Hm. revert Ht Hc Hf.
  unfold Stat.turn, counted_correct, counted_false. cbv zeta. rewrite Hm.
  unfold mbind at 1, outcome_bind at 1.
  destruct (Stat.compute_figures _ _) as [fig|] eqn:Ef; [|done]. intros _.
  pose proof (compute_figures_deviation _ _ _ Ef) as Hd. rewrite Hd.
  revert Hd. unfold deviation_from_truncated_mean, mbind, outcome_bind.
  destruct (truncated_mean item.2) as [avg|]; [|done].
  intros Hd Hc Hf. by exists avg, (Stat.deltapcavg_ fig).
Qed.

(** C9, as amended.  A name whose mark is not zero is counted correct
    exactly when the deviation, in per cent and in absolute value, of the
    mark from the integer part of the mean of the observed marks is at
    most the threshold, and counted as a statistical miss otherwise; over
    the whole data set the two counters are the numbers of such names.
    With observed marks 3641, 3635 and 3630, mark 3638 and threshold 3.0
    the name is counted correct: the integer part of the mean is 3635 and
    the deviation is below one per cent. *)
Theorem correct_when_close_to_truncated_mean :
  (forall idx threshold l item l',
     Stat.turn idx threshold l item = Ok l' ->
     answer_mark (nmatch idx item.1) <> 0 ->
     exists avg d,
       truncated_mean item.2 = Ok avg
       /\ Stat.deltapc (answer_mark (nmatch idx item.1)) avg = Ok d
       /\ Stat.ncorrect l' = (Stat.ncorrect l + Stat.count (d <=? threshold)%float)%nat
       /\ Stat.nfalse l' = (Stat.nfalse l + Stat.count (negb (d <=? threshold)%float))%nat)
  /\ (forall idx threshold items l',
        Stat.loop idx threshold Stat.start items = Ok l' ->
        Stat.ncorrect l' = length (List.filter (counted_correct idx threshold) items)
        /\ Stat.nfalse l' = length (List.filter (counted_false idx threshold) items))
  /\ (forall idx nam l,
        answer_mark (nmatch idx nam) = 3638 ->
        truncated_mean observed_i7 = Ok 3635
        /\ exists d l',
             Stat.deltapc 3638 3635 = Ok d /\ (d <? 1)%float = true
             /\ Stat.turn idx 3%float l (nam, observed_i7) = Ok l'
             /\ Stat.ncorrect l' = S (Stat.ncorrect l)
             /\ Stat.nfalse l' = Stat.nfalse l).
Proof.
  split; [exact turn_classifies|split].
  - intros idx threshold items l' H. by apply loop_counts in H.
  - intros idx nam l Hm. split; [by vm_compute|].
    unfold Stat.turn. cbn [fst snd]. rewrite Hm.
    assert (Hf : exists fig, Stat.compute_figures 3638 observed_i7 = Ok fig
                 /\ Stat.within fig 3%float = true
                 /\ Stat.deltapc 3638 3635 = Ok (Stat.deltapcavg_ fig)
                 /\ (Stat.deltapcavg_ fig <? 1)%float = true).
    { eexists. split; [vm_compute; reflexivity|]. by vm_compute. }
    destruct Hf as (fig & Hf & Hw & Hd & Hlt).
    exists (Stat.deltapcavg_ fig). eexists. split; [done|]. split; [done|].
    cbn [truthy Z.eqb negb]. unfold mbind, outcome_bind. rewrite Hf, Hw.
    split; [reflexivity|]. cbn [Stat.ncorrect Stat.nfalse Stat.count negb]. lia.
Qed.

(** * The properties on the data of the examples *)

(** Two entries share four tokens with the query and neither extends it:
    no tier accepts, and the answer carries the five diagnostics. *)
Lemma ambiguous_query_is_failed :
  let idx := data (build rows_two_clocks).1 in
  let q := "Intel Core i5 3380 X" in
  nmatch idx q =
    (0, (FAILED, 0, EmptyString),
     [DiagTokens q (query_tokens q);
      DiagCandidates [];
      DiagCandidates ["Intel Core i5-3380M @ 2.90GHz"; "Intel Core i5-3380M @ 3.00GHz"];
      DiagCandidates []; DiagCandidates []]).
Proof.
  intros idx q.
  rewrite (proj1 (unmatched_query_is_failed idx q)).
  - vm_compute. reflexivity.
  - unfold no_tier_accepts. split_and!; vm_compute; (reflexivity || discriminate).
Defined.

(** With the row as the specification writes it, the query is answered
    by the token tiers, not at SIMPLE_1: the key of the exact index keeps
    the markers that the query loses. *)
Lemma i7_verbatim_row_answers_at_clever2 :
  (build rows_verbatim).2 = Ok tt
  /\ Dict.get (marks (data (build rows_verbatim).1)) i7_query = Some (3641, 2)
  /\ nmatch (data (build rows_verbatim).1) i7_query
     = (3641, (CLEVER_2, 2, i7_query), []).
Proof. split_and!; vm_compute; reflexivity. Qed.

Lemma i7_normalised_row_answers_at_simple1 :
  nmatch (data (build rows_normalised).1) i7_query
  = (3641, (SIMPLE_1, 2, i7_name), []).
Proof.
  apply (i7_7500U_found_by_normalised_name rows_normalised (build rows_normalised).1 2);
    vm_compute; reflexivity.
Defined.

(** A name with a comma is cut at the comma before the exact lookups and
    is found by its tokens only. *)
Lemma comma_name_answers_at_clever1 :
  Dict.get (marks (data (build rows_comma).1)) a6_name = Some (1409, 2)
  /\ Str.contains "@" a6_name = false
  /\ nmatch (data (build rows_comma).1) a6_name = (1409, (CLEVER_1, 2, a6_name), []).
Proof. split_and!; vm_compute; reflexivity. Qed.

Lemma plain_name_answers_at_simple1 :
  nmatch (data (build rows_plain).1) ryzen_name = (6577, (SIMPLE_1, 2, ryzen_name), []).
Proof.
  apply (proj1 (verbatim_name_found_at_simple_tiers
                  (data (build rows_plain).1) ryzen_name 6577 2
                  ltac:(vm_compute; reflexivity) ltac:(lia)
                  ltac:(vm_compute; reflexivity))).
  vm_compute. reflexivity.
Defined.

(** With two markers the vendor step keeps from the second one. *)
Lemma vendor_step_keeps_second_marker :
  vendor_step "Intel Xeon with AMD GPU" = "AMD GPU"
  /\ spec_vendor_step "Intel Xeon with AMD GPU" = "Intel Xeon with AMD GPU".
Proof. split; vm_compute; reflexivity. Qed.

Lemma vendor_step_after_prefix :
  exists pre rest,
    "Dell Intel Core AMD x" = pre +:+ vendor_step "Dell Intel Core AMD x" +:+ rest
    /\ Str.all Chr.is_dot pre = true
    /\ Str.all Chr.is_dot (vendor_step "Dell Intel Core AMD x") = true
    /\ starts_vendor (vendor_step "Dell Intel Core AMD x") = true
    /\ (rest = EmptyString \/ exists r, rest = String Chr.newline r)
    /\ (forall j, vendor_at "Dell Intel Core AMD x" j -> (j <= String.length pre)%nat)
    /\ (Str.all Chr.is_dot "Dell Intel Core AMD x" = true ->
        "Dell Intel Core AMD x" = pre +:+ vendor_step "Dell Intel Core AMD x").
Proof.
  apply (vendor_step_keeps_from_last_marker "Dell Intel Core AMD x" 5).
  exists "Dell ", "Intel Core AMD x". split_and!; reflexivity.
Defined.

(** Without mark column and without vendor name the build succeeds. *)
Lemma build_without_mark_column_succeeds :
  Forall (lacks mark_aliases) rows_no_mark_column
  /\ build rows_no_mark_column = (fresh, Ok tt)
  /\ build [] = (fresh, Ok tt).
Proof.
  split_and!; [|vm_compute; reflexivity..].
  repeat constructor.
Qed.

Lemma missing_columns_raise_on_examples :
  build rows_no_name_column = (fresh, Raise name_column_error)
  /\ build rows_no_mark_vendor = (fresh, Raise mark_column_error).
Proof.
  destruct missing_column_raises_when_reached as (_ & _ & _ & _ & _ & Hn & Hm & _).
  split.
  - apply Hn. repeat constructor.
  - apply (Hm [ {[ "name" := Some "Apple M1 8 Core 3200 MHz"; "cores" := Some "8" ]} ]
              {[ "name" := Some "Intel Core i5-3380M @ 2.90GHz"; "cores" := Some "2" ]}
              []).
    + repeat constructor.
    + repeat constructor. eexists. split; vm_compute; reflexivity.
    + eexists. split; vm_compute; reflexivity.
Defined.

(** A mark that is no number ends the build: the row after it is never
    indexed and the derived dictionaries stay empty. *)
Lemma bad_mark_aborts_example :
  (build rows_bad_mark).2 = Raise ValueError
  /\ Dict.get (marks (data (build rows_bad_mark).1)) i7_name = None
  /\ markswithsets (data (build rows_bad_mark).1) = []
  /\ is_initialized (CpuAssessor (fun _ => Some rows_bad_mark) "cpumarks.csv" fresh).1
     = false.
Proof. split_and!; vm_compute; reflexivity. Qed.

Lemma bad_mark_aborts_the_build :
  exists pre r post st e,
    rows_bad_mark = (pre ++ r :: post)%list
    /\ Forall (fun p => ~ bad_mark_row p) pre
    /\ init_rows pre 2 fresh = (st, Ok tt)
    /\ init_row r (2 + Z.of_nat (length pre)) st = (st, Raise e)
    /\ build rows_bad_mark = (st, Raise e)
    /\ (forall nam, Dict.get (marks (data st)) nam = recorded pre 2 nam)
    /\ markswithsets (data st) = [] /\ marksnoat (data st) = []
    /\ (forall fs f cpu, fs f = Some rows_bad_mark ->
          CpuAssessor fs f fresh = (st, Raise e)
          /\ is_initialized st = false
          /\ assess cpu st = (st, Raise not_initialized)).
Proof.
  apply (proj1 only_rows_without_vendor_are_skipped rows_bad_mark).
  apply Exists_cons. right. apply Exists_cons. left.
  split.
  - eexists. split; vm_compute; reflexivity.
  - eexists _, _. split; vm_compute; reflexivity.
Defined.

(** The mark 205 is within 3 per cent of the mean 199.5 of the observed
    marks, and the harness counts it as a miss: it compares with 199. *)
Lemma truncated_mean_counts_a_miss :
  answer_mark (nmatch (data (build rows_205).1) ryzen_name) = 205
  /\ spec_deviation_within 205 [199; 200] 3
  /\ (exists d, spec_deviation_from_mean 205 observed_half = Ok d
                /\ (d <=? 3)%float = true)
  /\ truncated_mean observed_half = Ok 199
  /\ (exists l', Stat.loop (data (build rows_205).1) 3%float Stat.start
                   [(ryzen_name, observed_half)] = Ok l'
                 /\ Stat.ncorrect l' = 0%nat /\ Stat.nfalse l' = 1%nat).
Proof.
  split_and!.
  - vm_compute. reflexivity.
  - unfold spec_deviation_within. simpl. lia.
  - eexists. split; vm_compute; reflexivity.
  - vm_compute. reflexivity.
  - eexists. split; [vm_compute; reflexivity|]. split; reflexivity.
Qed.

Lemma calibration_scenario_counts_correct :
  truncated_mean observed_i7 = Ok 3635
  /\ exists d l',
       Stat.deltapc 3638 3635 = Ok d /\ (d <? 1)%float = true
       /\ Stat.turn (data (build rows_3638).1) 3%float Stat.start (i7_query, observed_i7)
          = Ok l'
       /\ Stat.ncorrect l' = S (Stat.ncorrect Stat.start)
       /\ Stat.nfalse l' = Stat.nfalse Stat.start.
Proof.
  apply (proj2 (proj2 correct_when_close_to_truncated_mean)
               (data (build rows_3638).1) i7_query Stat.start).
  vm_compute. reflexivity.
Defined.

(** After a construction on the first file, a call that names the second
    file answers from the first and reports the name of the second. *)
Lemma second_file_is_ignored :
  let st1 := (CpuAssessor two_files "data/first.csv" fresh).1 in
  get_mark_json two_files i7_query "data/second.csv" st1
  = (st1, Ok (Reply "3641" i7_query "SIMPLE_1" "second.csv" "2" i7_name []))
  /\ exists det,
       get_mark_json two_files ryzen_name "data/second.csv" st1
       = (st1, Ok (Reply "0" ryzen_name "FAILED" "second.csv" "0" EmptyString det)).
Proof.
  intros st1.
  assert (H : CpuAssessor two_files "data/first.csv" fresh = (st1, Ok tt))
    by (vm_compute; reflexivity).
  destruct (later_marks_files_are_ignored two_files "data/first.csv" st1 H)
    as (_ & _ & Hj & _).
  split.
  - rewrite Hj. vm_compute. reflexivity.
  - eexists. rewrite Hj. vm_compute. reflexivity.
Defined.

(** * Further properties *)

(** ** The exact index *)

Lemma dict_get_in {V : Type} (d : Dict.dict V) k v :
  Dict.get d k = Some v -> (k, v) ∈ d.
Proof.
  induction d as [|[k0 v0] d IH]; simpl; [done|].
  destruct (String.eqb k0 k) eqn:E.
  - apply String.eqb_eq in E as ->. intros [= ->]. apply elem_of_cons. by left.
  - intros H. apply elem_of_cons. right. by apply IH.
Qed.

Lemma dict_in_keys {V : Type} (d : Dict.dict V) k v : (k, v) ∈ d -> k ∈ Dict.keys d.
Proof.
  intros H. unfold Dict.keys. apply list_elem_of_In, in_map_iff.
  exists (k, v). split; [done|]. by apply list_elem_of_In.
Qed.

Lemma dict_keys_get {V : Type} (d : Dict.dict V) k :
  k ∈ Dict.keys d -> is_Some (Dict.get d k).
Proof.
  induction d as [|[k0 v0] d IH]; simpl; [by intros ?%elem_of_nil|].
  destruct (String.eqb k0 k) eqn:E; [by eexists|].
  intros [->|H]%elem_of_cons; [|by apply IH].
  by rewrite String.eqb_refl in E.
Qed.

(** With unique keys, an item of the dict is what a lookup finds. *)
Lemma dict_in_get {V : Type} (d : Dict.dict V) k v :
  NoDup (Dict.keys d) -> (k, v) ∈ d -> Dict.get d k = Some v.
Proof.
  induction d as [|[k0 v0] d IH]; simpl; [by intros _ ?%elem_of_nil|].
  intros [Hn Hd]%NoDup_cons [[= -> ->]|H]%elem_of_cons.
  - by rewrite String.eqb_refl.
  - destruct (String.eqb k0 k) eqn:E; [|by apply IH].
    apply String.eqb_eq in E as ->. destruct Hn. by apply (dict_in_keys d k v).
Qed.

Lemma dict_set_keys {V : Type} (d : Dict.dict V) k v :
  Dict.keys (Dict.set k v d) =
  if bool_decide (k ∈ Dict.keys d) then Dict.keys d else (Dict.keys d ++ [k])%list.
Proof.
  induction d as [|[k0 v0] d IH]; [done|]. simpl.
  destruct (String.eqb k0 k) eqn:E.
  - apply String.eqb_eq in E as ->. simpl.
    rewrite bool_decide_eq_true_2; [done|]. apply elem_of_cons. by left.
  - simpl. rewrite IH. apply String.eqb_neq in E.
    destruct (bool_decide (k ∈ Dict.keys d)) eqn:Eb.
    + apply bool_decide_eq_true in Eb. rewrite bool_decide_eq_true_2; [done|].
      apply elem_of_cons. by right.
    + apply bool_decide_eq_false in Eb. rewrite bool_decide_eq_false_2; [done|].
      intros [->|?]%elem_of_cons; done.
Qed.

Lemma dict_set_nodup {V : Type} (d : Dict.dict V) k v :
  NoDup (Dict.keys d) -> NoDup (Dict.keys (Dict.set k v d)).
Proof.
  intros H. rewrite dict_set_keys. case_bool_decide as Hk; [done|].
  apply NoDup_app. split; [done|]. split; [|apply NoDup_singleton].
  intros x Hx ->%list_elem_of_singleton. done.
Qed.

Lemma dict_of_items_nodup {V : Type} (items : list (string * V)) :
  NoDup (Dict.keys (Dict.of_items items)).
Proof.
  unfold Dict.of_items.
  assert (H : forall d, NoDup (Dict.keys d) ->
            NoDup (Dict.keys (fold_left (fun d kv => Dict.set kv.1 kv.2 d) items d))).
  { induction items as [|[k v] items IH]; intros d Hd; [done|].
    simpl. apply IH. by apply dict_set_nodup. }
  apply H. constructor.
Qed.

Lemma init_row_nodup r line st st' o :
  init_row r line st = (st', o) ->
  NoDup (Dict.keys (marks (data st))) -> NoDup (Dict.keys (marks (data st'))).
Proof.
  unfold init_row, mbind, M_bind, lift, raise, set_mark, modify, mret, M_ret.
  destruct (row_name r) as [[nam|]|e]; try (by intros [= <- <-]).
  destruct (has_vendor nam); try (by intros [= <- <-]).
  destruct (row_mark r) as [m|e]; try (by intros [= <- <-]).
  destruct (Py.int m) as [v|e]; intros [= <- <-]; [|done].
  cbn [data marks]. apply dict_set_nodup.
Qed.

Lemma init_rows_nodup rows : forall line st st' o,
  init_rows rows line st = (st', o) ->
  NoDup (Dict.keys (marks (data st))) -> NoDup (Dict.keys (marks (data st'))).
Proof.
  induction rows as [|r rows IH]; intros line st st' o.
  - by intros [= <- <-].
  - rewrite init_rows_cons.
    destruct (init_row r line st) as [st1 [[]|e]] eqn:E1.
    + intros H Hd. eapply IH; [exact H|]. by eapply init_row_nodup.
    + intros [= <- <-] Hd. by eapply init_row_nodup.
Qed.

Lemma row_entry_vendor r line nam v :
  row_entry r line = Some (nam, v) -> has_vendor nam = true /\ v.2 = line.
Proof.
  unfold row_entry. destruct (row_name r) as [[n|]|]; try done.
  destruct (has_vendor n) eqn:E; [|done].
  destruct (row_mark r) as [m|]; [|done]. destruct (Py.int m); [|done].
  by intros [= <- <-].
Qed.

(** The pair recorded for a name is that of the last row that records
    one for it. *)
Lemma recorded_last rows : forall line nam v,
  recorded rows line nam = Some v <->
  exists pre r post,
    rows = (pre ++ r :: post)%list
    /\ records r (line + Z.of_nat (length pre)) nam v
    /\ Forall (silent_on nam) post.
Proof.
  induction rows as [|r rows IH]; intros line nam v.
  - split; [done|]. intros (pre & r & post & E & _). by destruct pre.
  - cbn [recorded]. split.
    + destruct (recorded rows (line + 1) nam) as [v'|] eqn:Er.
      * intros [= ->]. apply IH in Er as (pre & r' & post & -> & Hr & Hp).
        exists (r :: pre), r', post. split; [done|]. split; [|done].
        replace (line + Z.of_nat (length (r :: pre)))
          with (line + 1 + Z.of_nat (length pre)) by (simpl length; lia). done.
      * destruct (row_entry r line) as [[n v']|] eqn:Ee; [|done].
        destruct (String.eqb n nam) eqn:En; [|done].
        apply String.eqb_eq in En as ->. intros [= ->].
        exists [], r, rows. split; [done|]. split.
        -- unfold records. simpl. by rewrite Z.add_0_r.
        -- apply Forall_forall. intros r' Hr' l' v' He.
           apply list_elem_of_split in Hr' as (p1 & p2 & ->).
           assert (Hs : is_Some (recorded (p1 ++ r' :: p2) (line + 1) nam)).
           { clear -He. revert line. induction p1 as [|a p1 IHp]; intros line.
             - cbn [app recorded]. destruct (recorded p2 _ nam); [by eexists|].
               unfold row_entry in *.
               destruct (row_name r') as [[n|]|]; try done.
               destruct (has_vendor n); [|done].
               destruct (row_mark r') as [m|]; [|done].
               destruct (Py.int m); [|done]. injection He as -> _.
               rewrite String.eqb_refl. by eexists.
             - cbn [app recorded]. destruct (IHp (line + 1)) as [x ->]. by eexists. }
           rewrite Er in Hs. by destruct Hs.
    + intros (pre & r' & post & E & Hr & Hp). destruct pre as [|a pre].
      * injection E as -> ->. simpl in Hr. rewrite Z.add_0_r in Hr.
        assert (Hn : forall l, recorded post l nam = None).
        { clear -Hp. induction post as [|a post IHp]; intros l; [reflexivity|].
          apply Forall_cons in Hp as [Ha Hp]. cbn [recorded].
          rewrite (IHp Hp). destruct (row_entry a l) as [[n v']|] eqn:E; [|done].
          destruct (String.eqb n nam) eqn:En; [|done].
          apply String.eqb_eq in En as ->. by destruct (Ha l v'). }
        rewrite Hn. unfold records in Hr. rewrite Hr. by rewrite String.eqb_refl.
      * injection E as -> ->.
        assert (Hs : recorded (pre ++ r' :: post) (line + 1) nam = Some v).
        { apply IH. exists pre, r', post. split; [done|]. split; [|done].
          replace (line + 1 + Z.of_nat (length pre))
            with (line + Z.of_nat (length (a :: pre))) by (simpl length; lia). done. }
        by rewrite Hs.
Qed.

Lemma build_nodup rows st o :
  build rows = (st, o) -> NoDup (Dict.keys (marks (data st))).
Proof.
  rewrite build_unfold.
  destruct (init_rows rows 2 fresh) as [s1 [[]|e]] eqn:E1.
  - unfold derive, modify. intros [= <- <-]. cbn [data marks].
    eapply init_rows_nodup; [exact E1|]. constructor.
  - intros [= <- <-]. eapply init_rows_nodup; [exact E1|]. constructor.
Qed.

(** X1.  After a build the exact index has each name once, and what it
    holds for a name is the mark and the line of the last row of that
    name: a name is a key exactly when some row records it, every key has
    a vendor marker, and every line is a line of the file. *)
Theorem exact_index_holds_last_rows (rows : list row) (st : klass) :
  build rows = (st, Ok tt) ->
  NoDup (Dict.keys (marks (data st)))
  /\ (forall nam v,
        Dict.get (marks (data st)) nam = Some v <->
        exists pre r post,
          rows = (pre ++ r :: post)%list
          /\ records r (2 + Z.of_nat (length pre)) nam v
          /\ Forall (silent_on nam) post)
  /\ (forall nam v,
        Dict.get (marks (data st)) nam = Some v ->
        has_vendor nam = true /\ 2 <= v.2 < 2 + Z.of_nat (length rows)).
Proof.
  intros Hb. pose proof (build_ok rows st Hb) as (Hg & _ & _).
  split; [by eapply build_nodup|]. split.
  - intros nam v. rewrite Hg. apply recorded_last.
  - intros nam v. rewrite Hg. intros (pre & r & post & -> & Hr & _)%recorded_last.
    apply row_entry_vendor in Hr as [Hv ->]. split; [done|].
    rewrite length_app. simpl length. lia.
Qed.

Lemma exact_index_of_repeated_name :
  let st := (build rows_twice).1 in
  NoDup (Dict.keys (marks (data st)))
  /\ (forall nam v,
        Dict.get (marks (data st)) nam = Some v <->
        exists pre r post,
          rows_twice = (pre ++ r :: post)%list
          /\ records r (2 + Z.of_nat (length pre)) nam v
          /\ Forall (silent_on nam) post)
  /\ (forall nam v,
        Dict.get (marks (data st)) nam = Some v ->
        has_vendor nam = true /\ 2 <= v.2 < 2 + Z.of_nat (length rows_twice)).
Proof.
  intros st. apply (exact_index_holds_last_rows rows_twice st).
  vm_compute. reflexivity.
Defined.

Example repeated_name_last_mark :
  marks (data (build rows_twice).1)
  = [("Intel Core i5-3380M @ 2.90GHz", (3512, 5)); ("AMD Ryzen 5 2500U", (6577, 4))].
Proof. vm_compute. reflexivity. Qed.

(** ** The derived indices *)

Lemma dict_set_in {V : Type} (d : Dict.dict V) k0 v0 k v :
  (k, v) ∈ Dict.set k0 v0 d -> (k, v) = (k0, v0) \/ (k, v) ∈ d.
Proof.
  induction d as [|[k1 v1] d IH]; simpl.
  - intros ->%list_elem_of_singleton. by left.
  - destruct (String.eqb k1 k0).
    + intros [->|H]%elem_of_cons; [by left|]. right. apply elem_of_cons. by right.
    + intros [->|H]%elem_of_cons.
      * right. apply elem_of_cons. by left.
      * apply IH in H as [H|H]; [by left|]. right. apply elem_of_cons. by right.
Qed.

Lemma dict_of_items_in {V : Type} (items : list (string * V)) k v :
  (k, v) ∈ Dict.of_items items -> (k, v) ∈ items.
Proof.
  unfold Dict.of_items.
  assert (H : forall d, (k, v) ∈ fold_left (fun d kv => Dict.set kv.1 kv.2 d) items d ->
                        (k, v) ∈ items \/ (k, v) ∈ d).
  { induction items as [|[k0 v0] items IH]; intros d; simpl; [by right|].
    intros [H|H]%IH.
    - left. apply elem_of_cons. by right.
    - apply dict_set_in in H as [->|H]; [|by right]. left. apply elem_of_cons. by left. }
  intros [H0|H0]%H; [done|by apply elem_of_nil in H0].
Qed.

(** When all items of a key agree, a lookup of the key finds their value. *)
Lemma dict_get_of_items_agree {V : Type} (items : list (string * V)) k v :
  (k, v) ∈ items -> (forall v', (k, v') ∈ items -> v' = v) ->
  Dict.get (Dict.of_items items) k = Some v.
Proof.
  unfold Dict.of_items. induction items as [|[k0 v0] items IH] using rev_ind;
    [by intros ?%elem_of_nil|].
  intros Hin Hall. rewrite fold_left_app. cbn [fold_left fst snd].
  rewrite dict_get_set. destruct (String.eqb k0 k) eqn:E.
  - apply String.eqb_eq in E as ->. f_equal. apply Hall.
    apply elem_of_app. right. apply elem_of_cons. by left.
  - apply IH.
    + apply elem_of_app in Hin as [Hin|[= -> ->]%list_elem_of_singleton]; [done|].
      by rewrite String.eqb_refl in E.
    + intros v' Hv'. apply Hall. apply elem_of_app. by left.
Qed.

Lemma rstrip_idempotent p s : Str.rstrip_by p (Str.rstrip_by p s) = Str.rstrip_by p s.
Proof.
  induction s as [|c s IH]; [done|]. cbn [Str.rstrip_by].
  destruct (p c && Str.is_empty (Str.rstrip_by p s)) eqn:E; [done|].
  cbn [Str.rstrip_by]. by rewrite IH, E.
Qed.

Lemma lstrip_headed p s : headed p (Str.lstrip_by p s) = true.
Proof.
  induction s as [|c s IH]; [done|]. cbn [Str.lstrip_by].
  destruct (p c) eqn:E; [done|]. simpl. by rewrite E.
Qed.

Lemma headed_lstrip p s : headed p s = true -> Str.lstrip_by p s = s.
Proof. destruct s as [|c s]; [done|]. simpl. by intros ->%negb_true_iff. Qed.

Lemma rstrip_headed p s : headed p s = true -> headed p (Str.rstrip_by p s) = true.
Proof.
  destruct s as [|c s]; [done|]. simpl. intros H. apply negb_true_iff in H as H'.
  by rewrite H'.
Qed.

Lemma strip_idempotent s : Str.strip (Str.strip s) = Str.strip s.
Proof.
  unfold Str.strip, Str.strip_by.
  rewrite (headed_lstrip Chr.is_space (Str.rstrip_by _ _)).
  - apply rstrip_idempotent.
  - apply rstrip_headed, lstrip_headed.
Qed.

Lemma derive_noat_origin m k v :
  NoDup (Dict.keys m) ->
  Dict.get (derive_noat m) k = Some v ->
  exists k', Str.contains "@" k' = true /\ Dict.get m k' = Some v /\ noat k' = k.
Proof.
  intros Hn H. apply dict_get_in, dict_of_items_in in H.
  apply list_elem_of_In, in_map_iff in H as ([k' v'] & [= <- <-] & H).
  apply filter_In in H as [H Hat]. exists k'. split; [done|]. split; [|done].
  apply dict_in_get; [done|]. by apply list_elem_of_In.
Qed.

(** X2.  After a build every entry of the no-frequency index comes from a
    name of the exact index that has an at sign: its key is that name up
    to the at sign, stripped, so it has no at sign and no white space at
    either end, and its value is the pair of that name.  A query with an
    at sign is therefore never answered at SIMPLE_0. *)
Theorem no_frequency_index_entries (rows : list row) (st : klass) :
  build rows = (st, Ok tt) ->
  (forall k v,
     Dict.get (marksnoat (data st)) k = Some v ->
     Str.contains "@" k = false /\ Str.strip k = k
     /\ exists k', Str.contains "@" k' = true
                   /\ Dict.get (marks (data st)) k' = Some v
                   /\ k = Str.strip (Str.split0 "@" k'))
  /\ (forall x, Str.contains "@" x = true ->
                answer_step (nmatch (data st) x) <> SIMPLE_0).
Proof.
  intros Hb. pose proof (build_ok rows st Hb) as (_ & Hn & _). split.
  - intros k v. rewrite Hn. intros H. split; [by eapply derive_noat_key_free|].
    apply derive_noat_origin in H as (k' & Hat & Hg & <-); [|by eapply build_nodup].
    split; [apply strip_idempotent|]. by exists k'.
  - intros x Hx. pose proof (hit0_at_sign rows st x Hb Hx) as H0.
    pose proof (nmatch_branch (data st) x) as B.
    remember (nmatch (data st) x) as a eqn:E.
    destruct B; cbn [answer_step accept fst snd]; try done. congruence.
Qed.

Lemma no_frequency_index_of_two_clocks :
  let st := (build rows_two_clocks).1 in
  (forall k v,
     Dict.get (marksnoat (data st)) k = Some v ->
     Str.contains "@" k = false /\ Str.strip k = k
     /\ exists k', Str.contains "@" k' = true
                   /\ Dict.get (marks (data st)) k' = Some v
                   /\ k = Str.strip (Str.split0 "@" k'))
  /\ (forall x, Str.contains "@" x = true ->
                answer_step (nmatch (data st) x) <> SIMPLE_0).
Proof.
  intros st. apply (no_frequency_index_entries rows_two_clocks st).
  vm_compute. reflexivity.
Defined.

(** X3.  A name of the exact index with an at sign and a mark other than
    zero is found by its text before the at sign, stripped: when no other
    name of the index has the same text before the at sign, that query is
    answered at SIMPLE_0 with the mark and the line of the name. *)
Theorem name_without_frequency_found_at_simple0
        (rows : list row) (st : klass) (k : string) (m l : Z) :
  build rows = (st, Ok tt) ->
  Dict.get (marks (data st)) k = Some (m, l) -> m <> 0 ->
  Str.contains "@" k = true ->
  (forall k', k' ∈ Dict.keys (marks (data st)) -> Str.contains "@" k' = true ->
              noat k' = noat k -> k' = k) ->
  nmatch (data st) (noat k) = (m, (SIMPLE_0, l, noat k), []).
Proof.
  intros Hb Hg Hm Hat Huniq. pose proof (build_ok rows st Hb) as (_ & Hn & _).
  pose proof (build_nodup rows st _ Hb) as Hnd.
  apply nmatch_simple0; [|done]. rewrite Hn. unfold derive_noat.
  apply dict_get_of_items_agree.
  - apply list_elem_of_In, in_map_iff. exists (k, (m, l)). split; [done|].
    apply filter_In. split; [|done]. by apply list_elem_of_In, dict_get_in.
  - intros v' H. apply list_elem_of_In, in_map_iff in H as ([k' v''] & [= Hk <-] & H).
    apply filter_In in H as [H Hat']. cbn [fst] in *.
    apply list_elem_of_In in H.
    assert (k' = k) as ->.
    { apply Huniq; [by eapply dict_in_keys|done|done]. }
    apply (dict_in_get _ _ _ Hnd) in H. congruence.
Qed.

Lemma i7_without_frequency_found_at_simple0 :
  nmatch (data (build rows_normalised).1) (noat i7_name)
  = (3641, (SIMPLE_0, 2, noat i7_name), []).
Proof.
  apply (name_without_frequency_found_at_simple0
           rows_normalised (build rows_normalised).1 i7_name 3641 2).
  - vm_compute. reflexivity.
  - vm_compute. reflexivity.
  - lia.
  - vm_compute. reflexivity.
  - intros k' Hk' _ _. vm_compute in Hk'.
    by apply list_elem_of_singleton in Hk'.
Defined.

(** ** What an answer reports *)

Lemma derive_withsets_in m k w :
  (k, w) ∈ derive_withsets m ->
  toks w = keytoset k /\ (k, mark w) ∈ m.
Proof.
  intros H%dict_of_items_in.
  apply list_elem_of_In, in_map_iff in H as ([k' v'] & [= <- <-] & H).
  split; [done|]. by apply list_elem_of_In.
Qed.

(** On built data every candidate is a name of the exact index, held
    with its own tokens. *)
Lemma filter_withsets_in rows st (f : string * withset -> bool) c :
  build rows = (st, Ok tt) ->
  c ∈ map fst (List.filter f (markswithsets (data st))) ->
  exists w, f (c, w) = true /\ toks w = keytoset c
            /\ Dict.get (marks (data st)) c = Some (mark w).
Proof.
  intros Hb H. pose proof (build_ok rows st Hb) as (_ & _ & Hw).
  apply list_elem_of_In, in_map_iff in H as ([c' w] & <- & H).
  apply filter_In in H as [H Hf]. rewrite Hw in H.
  apply list_elem_of_In, derive_withsets_in in H as [Ht Hin].
  exists w. split; [done|]. split; [done|].
  apply dict_in_get; [by eapply build_nodup|done].
Qed.

Lemma cands1_in rows st x c :
  build rows = (st, Ok tt) -> c ∈ cands1 (data st) x ->
  keytoset c ⊆ query_tokens x /\ is_Some (Dict.get (marks (data st)) c).
Proof.
  intros Hb H. unfold cands1, candidates1 in H.
  apply (filter_withsets_in rows st) in H as (w & Hf & Ht & Hg); [|done].
  cbn [snd] in Hf. apply bool_decide_eq_true in Hf. rewrite Ht in Hf. by split.
Qed.

Lemma cands2_in rows st x c :
  build rows = (st, Ok tt) -> c ∈ cands2 (data st) x ->
  (threshold2 (query x) <= size (query_tokens x ∩ keytoset c))%nat
  /\ is_Some (Dict.get (marks (data st)) c).
Proof.
  intros Hb H. unfold cands2, candidates2 in H.
  apply (filter_withsets_in rows st) in H as (w & Hf & Ht & Hg); [|done].
  cbn [snd] in Hf. apply Nat.leb_le in Hf. rewrite Ht in Hf. by split.
Qed.

Lemma cands3_in idx x c :
  c ∈ cands3 idx x -> c ∈ cands2 idx x /\ query_tokens x ⊂ keytoset c.
Proof.
  unfold cands3, candidates3. intros H.
  apply list_elem_of_In, filter_In in H as [H Hf].
  apply bool_decide_eq_true in Hf. split; [|done]. by apply list_elem_of_In.
Qed.

Lemma cands4_in rows st x c :
  build rows = (st, Ok tt) -> c ∈ cands4 (data st) x ->
  (exists m, Re.re_match Pat.model (query x) = Some m
             /\ Re.group "model" m ∈ keytoset c)
  /\ is_Some (Dict.get (marks (data st)) c).
Proof.
  intros Hb H. unfold cands4 in H.
  destruct (Re.re_match Pat.model (query x)) as [m|]; [|by apply elem_of_nil in H].
  unfold candidates4 in H.
  apply (filter_withsets_in rows st) in H as (w & Hf & Ht & Hg); [|done].
  cbn [snd] in Hf. apply bool_decide_eq_true in Hf. rewrite Ht in Hf.
  split; [by exists m|done].
Qed.

Lemma find_some_split {A : Type} (f : A -> bool) (l : list A) a :
  List.find f l = Some a ->
  exists before after,
    l = (before ++ a :: after)%list /\ f a = true
    /\ Forall (fun b => f b = false) before.
Proof.
  induction l as [|b l IH]; [done|]. cbn [List.find].
  destruct (f b) eqn:E.
  - intros [= ->]. by exists [], l.
  - intros (before & after & -> & Ha & Hb)%IH.
    exists (b :: before), after. split; [done|]. split; [done|]. by constructor.
Qed.

Lemma accept_recorded idx step c v :
  Dict.get (marks idx) c = Some v -> accept idx step c = (v.1, (step, v.2, c), []).
Proof. intros H. unfold accept, Dict.get_default. by rewrite H. Qed.

Lemma truthy_default_get (d : Dict.dict markline) k :
  truthy (Dict.get_default d k (0, 0)).1 = true ->
  exists m l, Dict.get d k = Some (m, l) /\ m <> 0
              /\ Dict.get_default d k (0, 0) = (m, l).
Proof.
  unfold Dict.get_default, truthy.
  destruct (Dict.get d k) as [[m l]|]; cbn [fst]; [|done].
  intros H%negb_true_iff%Z.eqb_neq. by exists m, l.
Qed.

Lemma singleton_elem {A : Type} (l : list A) (a : A) : l = [a] -> a ∈ l.
Proof. intros ->. apply elem_of_cons. by left. Qed.

(** X4.  On built data an answer never carries the default pair: a tier
    that accepts reports the mark and the line that the index it read
    holds for the name it returns (the no-frequency index for SIMPLE_0
    and SIMPLE_3, the exact index for all other tiers), the exact tiers
    only with a mark other than zero; FAILED reports mark 0, line 0 and
    no name. *)
Theorem answers_report_recorded_pairs (rows : list row) (st : klass) (x : string) :
  build rows = (st, Ok tt) ->
  let a := nmatch (data st) x in
  match answer_step a with
  | FAILED =>
      answer_mark a = 0 /\ answer_line a = 0 /\ answer_name a = EmptyString
  | SIMPLE_0 | SIMPLE_3 =>
      answer_mark a <> 0
      /\ Dict.get (marksnoat (data st)) (answer_name a)
         = Some (answer_mark a, answer_line a)
  | SIMPLE_1 | SIMPLE_2 =>
      answer_mark a <> 0
      /\ Dict.get (marks (data st)) (answer_name a)
         = Some (answer_mark a, answer_line a)
  | CLEVER_1 | CLEVER_2 | CLEVER_3_1 | CLEVER_3_2 | DESPERATE_1 =>
      Dict.get (marks (data st)) (answer_name a)
      = Some (answer_mark a, answer_line a)
  end.
Proof.
  intros Hb a. subst a.
  pose proof (nmatch_branch (data st) x) as B.
  remember (nmatch (data st) x) as a eqn:E. clear E.
  assert (Hacc : forall step c, is_Some (Dict.get (marks (data st)) c) ->
            Dict.get (marks (data st)) (answer_name (accept (data st) step c))
            = Some (answer_mark (accept (data st) step c),
                    answer_line (accept (data st) step c))).
  { intros step c [[m l] Hg]. by rewrite (accept_recorded _ step c _ Hg). }
  destruct B as [H0|H0 H1|H0 H1 H2|H0 H1 H2 H3|c Hs E1|c Hs N1 E2
                |c Hs N1 N2 E3|c Hs N1 N2 N3 E32|c Hs N1 N2 N3 N32 E4|Hn].
  - apply truthy_default_get in H0 as (m & l & Hg & Hm & ->). by cbn.
  - apply truthy_default_get in H1 as (m & l & Hg & Hm & ->). by cbn.
  - apply truthy_default_get in H2 as (m & l & Hg & Hm & ->). by cbn.
  - apply truthy_default_get in H3 as (m & l & Hg & Hm & ->). by cbn.
  - apply singleton_elem, (cands1_in rows st) in E1 as [_ Hg]; [|done].
    change (answer_step (accept (data st) CLEVER_1 c)) with CLEVER_1. by apply Hacc.
  - apply singleton_elem, (cands2_in rows st) in E2 as [_ Hg]; [|done].
    change (answer_step (accept (data st) CLEVER_2 c)) with CLEVER_2. by apply Hacc.
  - apply singleton_elem, cands3_in in E3 as [E3 _].
    apply (cands2_in rows st) in E3 as [_ Hg]; [|done].
    change (answer_step (accept (data st) CLEVER_3_1 c)) with CLEVER_3_1. by apply Hacc.
  - apply find_some_split in E32 as (before & after & E3 & _ & _).
    assert (Hc : c ∈ cands3 (data st) x).
    { rewrite E3. apply elem_of_app. right. apply elem_of_cons. by left. }
    apply cands3_in in Hc as [Hc _].
    apply (cands2_in rows st) in Hc as [_ Hg]; [|done].
    change (answer_step (accept (data st) CLEVER_3_2 c)) with CLEVER_3_2. by apply Hacc.
  - apply singleton_elem, (cands4_in rows st) in E4 as [_ Hg]; [|done].
    change (answer_step (accept (data st) DESPERATE_1 c)) with DESPERATE_1. by apply Hacc.
  - by cbn.
Qed.

Lemma answer_on_two_clocks_is_recorded :
  let st := (build rows_two_clocks).1 in
  let a := nmatch (data st) "Core Intel i5 3380M" in
  match answer_step a with
  | FAILED =>
      answer_mark a = 0 /\ answer_line a = 0 /\ answer_name a = EmptyString
  | SIMPLE_0 | SIMPLE_3 =>
      answer_mark a <> 0
      /\ Dict.get (marksnoat (data st)) (answer_name a)
         = Some (answer_mark a, answer_line a)
  | SIMPLE_1 | SIMPLE_2 =>
      answer_mark a <> 0
      /\ Dict.get (marks (data st)) (answer_name a)
         = Some (answer_mark a, answer_line a)
  | CLEVER_1 | CLEVER_2 | CLEVER_3_1 | CLEVER_3_2 | DESPERATE_1 =>
      Dict.get (marks (data st)) (answer_name a)
      = Some (answer_mark a, answer_line a)
  end.
Proof.
  intros st. apply (answers_report_recorded_pairs rows_two_clocks st).
  vm_compute. reflexivity.
Defined.

(** X5.  On built data the name a token tier returns stands in the
    relation of that tier to the tokens of the query: all its tokens are
    tokens of the query (CLEVER_1); it shares at least the threshold of
    tokens with the query (CLEVER_2); its tokens strictly include those
    of the query (CLEVER_3_1, CLEVER_3_2) and, cut at the at sign, are
    exactly those of the query (CLEVER_3_2); its tokens include the model
    code read from the query (DESPERATE_1). *)
Theorem token_tiers_are_sound (rows : list row) (st : klass) (x : string) :
  build rows = (st, Ok tt) ->
  let a := nmatch (data st) x in
  let T := query_tokens x in
  let n := answer_name a in
  (answer_step a = CLEVER_1 -> keytoset n ⊆ T)
  /\ (answer_step a = CLEVER_2 ->
      (threshold2 (query x) <= size (T ∩ keytoset n))%nat)
  /\ (answer_step a = CLEVER_3_1 ->
      T ⊂ keytoset n /\ (threshold2 (query x) <= size (T ∩ keytoset n))%nat)
  /\ (answer_step a = CLEVER_3_2 ->
      T ⊂ keytoset n /\ (threshold2 (query x) <= size (T ∩ keytoset n))%nat
      /\ keytoset (Str.strip (Str.split0 "@" n)) = T)
  /\ (answer_step a = DESPERATE_1 ->
      exists m, Re.re_match Pat.model (query x) = Some m
                /\ Re.group "model" m ∈ keytoset n).
Proof.
  intros Hb a T n. subst a T n. view_cases (data st) x;
    split_and!; intros Hstep; try discriminate.
  - by apply singleton_elem, (cands1_in rows st) in E1 as [? _].
  - by apply singleton_elem, (cands2_in rows st) in E2 as [? _].
  - apply singleton_elem, cands3_in in E3 as [E3 ?]. split; [done|].
    by apply (cands2_in rows st) in E3 as [? _].
  - apply find_some_split in E32 as (before & after & E3 & Heq & _).
    assert (Hc : answer_name (nmatch (data st) x) ∈ cands3 (data st) x).
    { rewrite E3. apply elem_of_app. right. apply elem_of_cons. by left. }
    apply cands3_in in Hc as [Hc ?]. split; [done|].
    apply (cands2_in rows st) in Hc as [? _]; [|done]. split; [done|].
    by apply bool_decide_eq_true in Heq.
  - by apply singleton_elem, (cands4_in rows st) in E4 as [? _].
Qed.

Lemma token_tiers_on_two_clocks :
  let st := (build rows_two_clocks).1 in
  let a := nmatch (data st) "Core Intel i5 3380M" in
  let T := query_tokens "Core Intel i5 3380M" in
  let n := answer_name a in
  (answer_step a = CLEVER_1 -> keytoset n ⊆ T)
  /\ (answer_step a = CLEVER_2 ->
      (threshold2 (query "Core Intel i5 3380M") <= size (T ∩ keytoset n))%nat)
  /\ (answer_step a = CLEVER_3_1 ->
      T ⊂ keytoset n
      /\ (threshold2 (query "Core Intel i5 3380M") <= size (T ∩ keytoset n))%nat)
  /\ (answer_step a = CLEVER_3_2 ->
      T ⊂ keytoset n
      /\ (threshold2 (query "Core Intel i5 3380M") <= size (T ∩ keytoset n))%nat
      /\ keytoset (Str.strip (Str.split0 "@" n)) = T)
  /\ (answer_step a = DESPERATE_1 ->
      exists m, Re.re_match Pat.model (query "Core Intel i5 3380M") = Some m
                /\ Re.group "model" m ∈ keytoset n).
Proof.
  intros st. apply (token_tiers_are_sound rows_two_clocks st).
  vm_compute. reflexivity.
Defined.

(** X6.  CLEVER_3_2 is the one tier that chooses among several: it is
    the answer only when at least two candidates are left, and the name
    it returns is the first of them, in the order of the reference file,
    whose tokens up to the at sign are those of the query. *)
Theorem clever32_takes_first_of_several (idx : index) (x : string) :
  answer_step (nmatch idx x) = CLEVER_3_2 ->
  (2 <= length (cands3 idx x))%nat
  /\ exists before after,
       cands3 idx x = (before ++ answer_name (nmatch idx x) :: after)%list
       /\ token_equal (query_tokens x) (answer_name (nmatch idx x)) = true
       /\ Forall (fun c => token_equal (query_tokens x) c = false) before.
Proof.
  intros Hstep. view_cases idx x; try discriminate.
  apply find_some_split in E32 as (before & after & E3 & Heq & Hb).
  split; [|by exists before, after].
  rewrite E3 in N3 |- *. rewrite length_app in *. simpl length in *. lia.
Qed.

Lemma clever32_on_two_clocks :
  (2 <= length (cands3 (data (build rows_two_clocks).1) "Core Intel i5 3380M"))%nat
  /\ exists before after,
       cands3 (data (build rows_two_clocks).1) "Core Intel i5 3380M"
       = (before
            ++ answer_name (nmatch (data (build rows_two_clocks).1) "Core Intel i5 3380M")
            :: after)%list
       /\ token_equal (query_tokens "Core Intel i5 3380M")
            (answer_name (nmatch (data (build rows_two_clocks).1) "Core Intel i5 3380M"))
          = true
       /\ Forall (fun c => token_equal (query_tokens "Core Intel i5 3380M") c = false)
                 before.
Proof.
  apply (clever32_takes_first_of_several (data (build rows_two_clocks).1)).
  vm_compute. reflexivity.
Defined.

Example two_clocks_first_candidate :
  nmatch (data (build rows_two_clocks).1) "Core Intel i5 3380M"
  = (3500, (CLEVER_3_2, 2, "Intel Core i5-3380M @ 2.90GHz"), []).
Proof. vm_compute. reflexivity. Qed.

(** ** Failures of a build *)

Lemma CpuAssessor_flag fs f st st' o :
  CpuAssessor fs f st = (st', o) ->
  is_initialized st' = is_initialized st || is_ok o.
Proof.
  destruct (is_initialized st) eqn:Hi.
  - rewrite (CpuAssessor_initialized fs f st Hi). by intros [= <- <-].
  - unfold CpuAssessor, init, mbind, M_bind, get. rewrite Hi.
    destruct (fs f) as [rows|]; [|unfold raise; by intros [= <- <-]].
    destruct (init_rows rows 2 st) as [s1 [[]|e]] eqn:E1.
    + unfold derive, modify. by intros [= <- <-].
    + apply init_rows_preserves in E1 as (H1 & _). intros [= <- <-]. by rewrite H1, Hi.
Qed.

(** Whatever its outcome, the loop removes no name from the exact index. *)
Lemma init_rows_keeps rows line st st' o nam :
  init_rows rows line st = (st', o) ->
  is_Some (Dict.get (marks (data st)) nam) ->
  is_Some (Dict.get (marks (data st')) nam).
Proof.
  assert (Hok : forall l s s', init_rows l line s = (s', Ok tt) ->
            is_Some (Dict.get (marks (data s)) nam) ->
            is_Some (Dict.get (marks (data s')) nam)).
  { intros l s s' H Hs. rewrite (init_rows_recorded _ _ _ _ nam H).
    by destruct (recorded l line nam). }
  destruct o as [[]|e]; [apply Hok|].
  intros H. apply init_rows_raise_split in H as (pre & r & post & _ & Hp & _).
  by apply (Hok pre).
Qed.

(** X7.  [__marks] is never emptied: no construction, whatever its
    outcome, removes a name from the exact index.  When a first
    construction on a file that could be opened has stopped, it has
    stopped at a row of the file that raises its exception, the class is
    in the state the rows before that row have left, with those rows in
    the exact index, and it stays uninitialised.  The next construction
    that succeeds builds on top of them: its exact index holds the rows
    of its own file and, for every name its file does not record, what
    the aborted build left. *)
Theorem aborted_build_leaves_entries
        (fsA : files) (fA : string) (stA : klass) (e : exn)
        (fsB : files) (fB : string) (rowsB : list row) (stB : klass) :
  CpuAssessor fsA fA fresh = (stA, Raise e) ->
  fsB fB = Some rowsB ->
  CpuAssessor fsB fB stA = (stB, Ok tt) ->
  is_initialized stA = false
  /\ (fsA fA = None -> stA = fresh)
  /\ (forall rowsA, fsA fA = Some rowsA ->
        exists pre r post,
          rowsA = (pre ++ r :: post)%list
          /\ init_rows pre 2 fresh = (stA, Ok tt)
          /\ init_row r (2 + Z.of_nat (length pre)) stA = (stA, Raise e)
          /\ forall nam, Dict.get (marks (data stA)) nam = recorded pre 2 nam)
  /\ (forall nam,
        Dict.get (marks (data stB)) nam =
        match recorded rowsB 2 nam with
        | Some v => Some v
        | None => Dict.get (marks (data stA)) nam
        end)
  /\ marksnoat (data stB) = derive_noat (marks (data stB))
  /\ markswithsets (data stB) = derive_withsets (marks (data stB))
  /\ (forall fs f st st' o nam,
        CpuAssessor fs f st = (st', o) ->
        is_Some (Dict.get (marks (data st)) nam) ->
        is_Some (Dict.get (marks (data st')) nam)).
Proof.
  intros HA HfB HB.
  assert (Hi : is_initialized stA = false).
  { apply CpuAssessor_flag in HA. by rewrite HA. }
  split; [done|]. split; [|split; [|split_and!]].
  - intros Hf. revert HA. unfold CpuAssessor, init, mbind, M_bind, get, raise.
    cbn [is_initialized fresh]. rewrite Hf. by intros [= <- _].
  - intros rowsA Hf. rewrite (CpuAssessor_uninitialized fsA fA fresh rowsA eq_refl Hf) in HA.
    destruct (init_rows rowsA 2 fresh) as [s1 [[]|e1]] eqn:E1; [done|].
    injection HA as -> ->.
    apply init_rows_raise_split in E1 as (pre & r & post & -> & Hp & Hr).
    exists pre, r, post. split_and!; try done. intros nam.
    rewrite (init_rows_recorded _ _ _ _ nam Hp).
    by destruct (recorded pre 2 nam).
  - rewrite (CpuAssessor_uninitialized _ _ _ rowsB Hi HfB) in HB.
    destruct (init_rows rowsB 2 stA) as [s1 [[]|e1]] eqn:E1; [|done].
    injection HB as <-. cbn [data derive modify fst marks marksnoat markswithsets].
    intros nam. by apply init_rows_recorded.
  - rewrite (CpuAssessor_uninitialized _ _ _ rowsB Hi HfB) in HB.
    destruct (init_rows rowsB 2 stA) as [s1 [[]|e1]] eqn:E1; [|done].
    by injection HB as <-.
  - rewrite (CpuAssessor_uninitialized _ _ _ rowsB Hi HfB) in HB.
    destruct (init_rows rowsB 2 stA) as [s1 [[]|e1]] eqn:E1; [|done].
    by injection HB as <-.
  - clear. intros fs f st st' o nam H.
    destruct (is_initialized st) eqn:Hi.
    { rewrite (CpuAssessor_initialized fs f st Hi) in H. by injection H as <- <-. }
    destruct (fs f) as [rows|] eqn:Hf.
    + rewrite (CpuAssessor_uninitialized fs f st rows Hi Hf) in H.
      destruct (init_rows rows 2 st) as [s1 [[]|e1]] eqn:E1.
      * injection H as <- <-. cbn [data derive modify fst marks].
        by apply (init_rows_keeps _ _ _ _ _ _ E1).
      * injection H as <- <-. by apply (init_rows_keeps _ _ _ _ _ _ E1).
    + revert H. unfold CpuAssessor, init, mbind, M_bind, get, raise.
      rewrite Hi, Hf. by intros [= <- <-].
Qed.

Lemma broken_file_leaves_its_first_row :
  let stA := (CpuAssessor broken_then_right "broken.csv" fresh).1 in
  let stB := (CpuAssessor broken_then_right "right.csv" stA).1 in
  is_initialized stA = false
  /\ (broken_then_right "broken.csv" = None -> stA = fresh)
  /\ (forall rowsA, broken_then_right "broken.csv" = Some rowsA ->
        exists pre r post,
          rowsA = (pre ++ r :: post)%list
          /\ init_rows pre 2 fresh = (stA, Ok tt)
          /\ init_row r (2 + Z.of_nat (length pre)) stA = (stA, Raise ValueError)
          /\ forall nam, Dict.get (marks (data stA)) nam = recorded pre 2 nam)
  /\ (forall nam,
        Dict.get (marks (data stB)) nam =
        match recorded rows_plain 2 nam with
        | Some v => Some v
        | None => Dict.get (marks (data stA)) nam
        end)
  /\ marksnoat (data stB) = derive_noat (marks (data stB))
  /\ markswithsets (data stB) = derive_withsets (marks (data stB))
  /\ (forall fs f st st' o nam,
        CpuAssessor fs f st = (st', o) ->
        is_Some (Dict.get (marks (data st)) nam) ->
        is_Some (Dict.get (marks (data st')) nam)).
Proof.
  intros stA stB.
  apply (aborted_build_leaves_entries broken_then_right "broken.csv" stA ValueError
           broken_then_right "right.csv" rows_plain stB); vm_compute; reflexivity.
Defined.

Example broken_file_answers_later :
  let stA := (CpuAssessor broken_then_right "broken.csv" fresh).1 in
  (get_mark_json broken_then_right "Intel Core i5-3380M @ 2.90GHz" "right.csv" stA).2
  = Ok (Reply "3500" "Intel Core i5-3380M @ 2.90GHz" "SIMPLE_1" "right.csv" "2"
              "Intel Core i5-3380M @ 2.90GHz" []).
Proof. vm_compute. reflexivity. Qed.

(** X8.  [assess] works only in an initialised class: it raises the
    error about initialisation exactly when the flag is not set,
    otherwise it returns what the cascade gives on the data of the class,
    and it never changes the class.  The flag is set by a construction
    that ends normally and by nothing else. *)
Theorem assess_needs_a_construction :
  (forall cpu st, is_initialized st = false ->
                  assess cpu st = (st, Raise not_initialized))
  /\ (forall cpu st, is_initialized st = true ->
                     assess cpu st = (st, Ok (nmatch (data st) cpu)))
  /\ (forall fs f st st' o,
        CpuAssessor fs f st = (st', o) ->
        is_initialized st' = is_initialized st || is_ok o).
Proof.
  split_and!.
  - intros cpu st H. unfold assess, mbind, M_bind, get. by rewrite H.
  - intros cpu st H. unfold assess, mbind, M_bind, get. by rewrite H.
  - apply CpuAssessor_flag.
Qed.

Lemma assess_before_and_after_construction :
  let st1 := (CpuAssessor two_files "data/first.csv" fresh).1 in
  assess i7_query fresh = (fresh, Raise not_initialized)
  /\ assess i7_query st1 = (st1, Ok (nmatch (data st1) i7_query))
  /\ is_initialized st1 = is_initialized fresh || is_ok (Ok tt).
Proof.
  intros st1. split_and!.
  - apply (proj1 assess_needs_a_construction i7_query fresh). reflexivity.
  - apply (proj1 (proj2 assess_needs_a_construction) i7_query st1).
    vm_compute. reflexivity.
  - apply (proj2 (proj2 assess_needs_a_construction)
                 two_files "data/first.csv" fresh st1 (Ok tt)).
    vm_compute. reflexivity.
Defined.

Lemma get_mark_json_cases fs cpu mf st :
  get_mark_json fs cpu mf st =
  match CpuAssessor fs mf st with
  | (st', Ok _) => (st', Ok (reply_from (data st') cpu mf))
  | (st', Raise e) => (st', Ok (ReplyError e))
  end.
Proof.
  unfold get_mark_json, try, mbind at 1, M_bind at 1.
  destruct (CpuAssessor fs mf st) as [st' [[]|e]] eqn:E; [|done].
  apply CpuAssessor_flag in E. cbn [is_ok] in E. rewrite orb_true_r in E.
  unfold assess, mbind, M_bind, get. by rewrite E.
Qed.

(** X9.  [get_mark_json] never raises.  It gives an error reply exactly
    when the construction raises, with that exception (never the error
    of [assess] about initialisation), and otherwise the reply computed
    from the data of the class.  With a marks file that cannot be opened
    a class that is not initialised is left as it was. *)
Theorem get_mark_json_always_replies
        (fs : files) (cpu mf : string) (st : klass) :
  (exists st' r, get_mark_json fs cpu mf st = (st', Ok r))
  /\ (forall st' e,
        get_mark_json fs cpu mf st = (st', Ok (ReplyError e)) <->
        CpuAssessor fs mf st = (st', Raise e))
  /\ (forall st',
        CpuAssessor fs mf st = (st', Ok tt) ->
        get_mark_json fs cpu mf st = (st', Ok (reply_from (data st') cpu mf)))
  /\ (is_initialized st = false -> fs mf = None ->
      get_mark_json fs cpu mf st = (st, Ok (ReplyError OSError))).
Proof.
  rewrite get_mark_json_cases. split_and!.
  - destruct (CpuAssessor fs mf st) as [st' [[]|e]]; by eexists _, _.
  - intros st' e. destruct (CpuAssessor fs mf st) as [s1 [[]|e1]].
    + split; [|done]. unfold reply_from. by intros [= _ ?].
    + split; intros [= -> ->]; done.
  - by intros st' ->.
  - intros Hi Hf. unfold CpuAssessor, init, mbind, M_bind, get, raise. by rewrite Hi, Hf.
Qed.

Lemma get_mark_json_on_two_files :
  let st1 := (CpuAssessor two_files "data/first.csv" fresh).1 in
  get_mark_json two_files i7_query "data/first.csv" fresh
  = (st1, Ok (reply_from (data st1) i7_query "data/first.csv"))
  /\ get_mark_json two_files i7_query "data/third.csv" fresh
     = (fresh, Ok (ReplyError OSError)).
Proof.
  intros st1. split.
  - apply (proj1 (proj2 (proj2
             (get_mark_json_always_replies two_files i7_query "data/first.csv" fresh)))
             st1).
    vm_compute. reflexivity.
  - apply (proj2 (proj2 (proj2
             (get_mark_json_always_replies two_files i7_query "data/third.csv" fresh)))).
    + reflexivity.
    + reflexivity.
Defined.

(** ** The keys of the exact tiers *)

Lemma prefix_app_r a : forall p r,
  String.prefix a p = true -> String.prefix a (p +:+ r) = true.
Proof.
  induction a as [|x a IH]; intros p r; [intros _; apply prefix_empty|].
  destruct p as [|y p]; [done|]. cbn [String.prefix].
  change (String y p +:+ r) with (String y (p +:+ r)). cbn [String.prefix].
  destruct (ascii_dec x y); [|done]. apply IH.
Qed.

Lemma contains_cons n c s :
  Str.contains n (String c s) = String.prefix n (String c s) || Str.contains n s.
Proof. cbn [Str.contains]. by destruct (String.prefix n (String c s)). Qed.

(** A needle that is not in a string is in none of its prefixes. *)
Lemma contains_app_l n p r :
  Str.contains n (p +:+ r) = false -> Str.contains n p = false.
Proof.
  induction p as [|c p IH].
  - cbn [String.app Str.contains]. destruct (String.prefix n EmptyString) eqn:E; [|done].
    intros H. destruct n; [|done]. by destruct r.
  - change (String c p +:+ r) with (String c (p +:+ r)). rewrite !contains_cons.
    intros [H1 H2]%orb_false_iff. rewrite (IH H2), orb_false_r.
    destruct (String.prefix n (String c p)) eqn:E; [|done].
    pose proof (prefix_app_r n (String c p) r E) as H.
    change (String c p +:+ r) with (String c (p +:+ r)) in H. congruence.
Qed.

(** Nor in any of its suffixes. *)
Lemma contains_app_r n p r :
  Str.contains n (p +:+ r) = false -> Str.contains n r = false.
Proof.
  induction p as [|c p IH]; [done|].
  change (String c p +:+ r) with (String c (p +:+ r)). rewrite contains_cons.
  intros [_ H]%orb_false_iff. by apply IH.
Qed.

Lemma split0_prefix sep s : exists r, s = Str.split0 sep s +:+ r.
Proof.
  induction s as [|c s [r IH]]; cbn [Str.split0].
  - exists EmptyString. by destruct (String.prefix sep EmptyString).
  - destruct (String.prefix sep (String c s)); [by exists (String c s)|].
    exists r. change (String c s = String c (Str.split0 sep s +:+ r)). by f_equal.
Qed.

Lemma lstrip_suffix p s : exists l, s = l +:+ Str.lstrip_by p s.
Proof.
  induction s as [|c s [l IH]]; [by exists EmptyString|]. cbn [Str.lstrip_by].
  destruct (p c); [|by exists EmptyString].
  exists (String c l). change (String c s = String c (l +:+ Str.lstrip_by p s)).
  by f_equal.
Qed.

Lemma rstrip_prefix p s : exists r, s = Str.rstrip_by p s +:+ r.
Proof.
  induction s as [|c s [r IH]]; [by exists EmptyString|]. cbn [Str.rstrip_by].
  destruct (p c && Str.is_empty (Str.rstrip_by p s)); [by exists (String c s)|].
  exists r. change (String c s = String c (Str.rstrip_by p s +:+ r)). by f_equal.
Qed.

Lemma contains_strip n s : Str.contains n s = false -> Str.contains n (Str.strip s) = false.
Proof.
  intros H. unfold Str.strip, Str.strip_by.
  destruct (lstrip_suffix Chr.is_space s) as [l El].
  destruct (rstrip_prefix Chr.is_space (Str.lstrip_by Chr.is_space s)) as [r Er].
  rewrite El in H. apply contains_app_r in H. rewrite Er in H.
  by apply contains_app_l in H.
Qed.

Lemma contains_split0 n sep s :
  Str.contains n s = false -> Str.contains n (Str.split0 sep s) = false.
Proof.
  intros H. destruct (split0_prefix sep s) as [r E]. rewrite E in H.
  by apply contains_app_l in H.
Qed.

(** The text before the first occurrence of a separator does not hold
    the separator. *)
Lemma split0_free sep s :
  Str.is_empty sep = false -> Str.contains sep (Str.split0 sep s) = false.
Proof.
  intros Hsep. induction s as [|c s IH]; cbn [Str.split0].
  - destruct (String.prefix sep EmptyString) eqn:E; [by destruct sep|].
    cbn [Str.contains]. by rewrite E.
  - destruct (String.prefix sep (String c s)) eqn:E.
    + cbn [Str.contains]. by destruct sep.
    + rewrite contains_cons, IH, orb_false_r.
      destruct (String.prefix sep (String c (Str.split0 sep s))) eqn:E'; [|done].
      destruct (split0_prefix sep s) as [r Er].
      pose proof (prefix_app_r sep (String c (Str.split0 sep s)) r E') as H.
      change (String c (Str.split0 sep s) +:+ r)
        with (String c (Str.split0 sep s +:+ r)) in H.
      rewrite <- Er in H. congruence.
Qed.

Lemma simple1_key_free x :
  Str.contains "," (simple1_key x) = false
  /\ Str.contains "w/" (simple1_key x) = false.
Proof.
  unfold simple1_key. split.
  - by apply split0_free.
  - apply contains_split0, contains_strip. by apply split0_free.
Qed.

Lemma simple2_key_free x :
  Str.contains "," (simple2_key x) = false
  /\ Str.contains "w/" (simple2_key x) = false.
Proof.
  unfold simple2_key. destruct (simple1_key_free x) as [H1 H2].
  destruct (Str.startswith "AMD" (simple1_key x)); [|done].
  split; by apply contains_split0.
Qed.

(** X10.  The exact tiers after SIMPLE_0 look up, and return as the
    name, a text in which no comma and no w/ is left: whatever the data,
    a name with a comma or with w/ is never the answer of SIMPLE_1,
    SIMPLE_2 or SIMPLE_3. *)
Theorem exact_tiers_never_name_a_comma (idx : index) (x : string) :
  let a := nmatch idx x in
  answer_step a = SIMPLE_1 \/ answer_step a = SIMPLE_2 \/ answer_step a = SIMPLE_3 ->
  Str.contains "," (answer_name a) = false
  /\ Str.contains "w/" (answer_name a) = false.
Proof.
  intros a Hstep. subst a.
  pose proof (nmatch_branch idx x) as B.
  remember (nmatch idx x) as a eqn:E. clear E.
  destruct B; cbn [answer_step answer_name accept fst snd] in *;
    try (destruct Hstep as [?|[?|?]]; discriminate).
  - apply simple1_key_free.
  - apply simple2_key_free.
  - apply simple2_key_free.
Qed.

Lemma comma_query_is_cut_at_simple1 :
  let idx := data (build [mkrow "AMD A6-9225 RADEON R4" "1409"]).1 in
  Str.contains "," (answer_name (nmatch idx a6_name)) = false
  /\ Str.contains "w/" (answer_name (nmatch idx a6_name)) = false.
Proof.
  intros idx. apply (exact_tiers_never_name_a_comma idx a6_name).
  left. vm_compute. reflexivity.
Defined.

(** ** Names in plain form *)

Lemma contains_prefix_false n s : Str.contains n s = false -> String.prefix n s = false.
Proof. destruct s; cbn [Str.contains]; by destruct (String.prefix n _). Qed.

Lemma replace_go_absent old new s :
  Str.contains old s = false -> Str.replace_go old new 0 s = s.
Proof.
  induction s as [|c s IH]; [done|]. rewrite contains_cons.
  intros [H1 H2]%orb_false_iff. cbn [Str.replace_go]. by rewrite H1, IH.
Qed.

(** Replacing a text that does not occur changes nothing. *)
Lemma replace_absent old new s :
  Str.contains old s = false -> Str.replace old new s = s.
Proof.
  intros H. unfold Str.replace. destruct (Str.is_empty old) eqn:E.
  - destruct old; [|done]. by destruct s.
  - by apply replace_go_absent.
Qed.

Lemma split0_absent sep s : Str.contains sep s = false -> Str.split0 sep s = s.
Proof.
  induction s as [|c s IH].
  - cbn [Str.contains Str.split0]. by destruct (String.prefix sep EmptyString).
  - rewrite contains_cons. intros [H1 H2]%orb_false_iff.
    cbn [Str.split0]. by rewrite H1, IH.
Qed.

Lemma has_vendor_cons c s :
  has_vendor (String c s) = starts_vendor (String c s) || has_vendor s.
Proof.
  unfold has_vendor, starts_vendor. rewrite !contains_cons.
  destruct (String.prefix "Intel" (String c s)), (String.prefix "AMD" (String c s)),
    (Str.contains "Intel" s), (Str.contains "AMD" s); reflexivity.
Qed.

Lemma last_vendor_absent s : has_vendor s = false -> last_vendor s = None.
Proof.
  induction s as [|c s IH]; [done|]. rewrite has_vendor_cons.
  intros [H1 H2]%orb_false_iff. cbn [last_vendor]. rewrite (IH H2), H1.
  by destruct (Chr.is_dot c).
Qed.

Lemma line_all_dots s : Str.all Chr.is_dot s = true -> line s = s.
Proof.
  induction s as [|c s IH]; [done|]. simpl. intros [-> H]%andb_true_iff. by rewrite IH.
Qed.

(** With a marker at the start and nowhere else the vendor step keeps
    the whole of a line. *)
Lemma vendor_step_at_start s :
  starts_vendor s = true -> has_vendor (Re.drop 1 s) = false ->
  Str.all Chr.is_dot s = true -> vendor_step s = s.
Proof.
  intros Hs Hv Hd. rewrite vendor_step_last. destruct s as [|c s]; [done|].
  cbn [Re.drop] in Hv. cbn [last_vendor].
  pose proof Hd as Hd'. simpl in Hd'. apply andb_true_iff in Hd' as [-> _].
  by rewrite (last_vendor_absent s Hv), Hs, (line_all_dots _ Hd).
Qed.

Lemma plain_simple1_key s : plain s = true -> simple1_key s = s.
Proof.
  unfold plain. rewrite !andb_true_iff, !negb_true_iff.
  intros ((((((((HR & HTM) & HCPU) & Hs) & Hv) & Hd) & Hw) & Hc) & Hstrip).
  apply String.eqb_eq in Hstrip.
  unfold simple1_key, strip_markers.
  rewrite (replace_absent "(R)" _ s HR), (replace_absent "(TM)" _ s HTM),
    (replace_absent " CPU" _ s HCPU), (vendor_step_at_start s Hs Hv Hd),
    (split0_absent "w/" s Hw), Hstrip.
  by apply split0_absent.
Qed.

(** X11.  A name in plain form is its own lookup key at SIMPLE_1.  On
    built data, a name of the exact index in plain form with a mark other
    than zero and an at sign is answered at SIMPLE_1 with its own mark
    and line; without at sign the same holds unless the no-frequency
    index answers first, at SIMPLE_0. *)
Theorem plain_name_is_found_verbatim
        (rows : list row) (st : klass) (name : string) (m l : Z) :
  build rows = (st, Ok tt) ->
  plain name = true ->
  Dict.get (marks (data st)) name = Some (m, l) -> m <> 0 ->
  simple1_key name = name
  /\ (Str.contains "@" name = true ->
      nmatch (data st) name = (m, (SIMPLE_1, l, name), []))
  /\ (answer_step (nmatch (data st) name) = SIMPLE_0
      \/ nmatch (data st) name = (m, (SIMPLE_1, l, name), [])).
Proof.
  intros Hb Hp Hg Hm. pose proof (plain_simple1_key name Hp) as Hk.
  assert (H1 : hit0 (data st) name = false ->
               nmatch (data st) name = (m, (SIMPLE_1, l, name), [])).
  { intros H0. pose proof (nmatch_simple1 (data st) name m l H0) as H.
    rewrite Hk in H. by apply H. }
  split; [done|]. split.
  - intros Hat. apply H1. by apply (hit0_at_sign rows).
  - destruct (hit0 (data st) name) eqn:H0; [|by right; apply H1].
    left. apply hit0_spec in H0 as (m0 & l0 & Hg0 & Hm0).
    by rewrite (nmatch_simple0 _ _ _ _ Hg0 Hm0).
Qed.

Lemma i7_name_is_found_verbatim :
  simple1_key i7_name = i7_name
  /\ (Str.contains "@" i7_name = true ->
      nmatch (data (build rows_normalised).1) i7_name
      = (3641, (SIMPLE_1, 2, i7_name), []))
  /\ (answer_step (nmatch (data (build rows_normalised).1) i7_name) = SIMPLE_0
      \/ nmatch (data (build rows_normalised).1) i7_name
         = (3641, (SIMPLE_1, 2, i7_name), [])).
Proof.
  apply (plain_name_is_found_verbatim rows_normalised (build rows_normalised).1
           i7_name 3641 2); try (vm_compute; reflexivity). lia.
Defined.

(** ** Shapes of tokens and of the model code *)

Lemma stable_no_duo u : stable u -> Str.contains "Duo" u = false.
Proof.
  intros (_ & _ & H). unfold tokens_of, keytoset_step in H.
  destruct (Str.contains "Duo" u); [|done].
  rewrite orb_true_r in H. set_solver.
Qed.

(** X12.  No token is empty, holds a separator of the tokenizer or
    contains Duo, and every token is a fixed point: tokenizing a token
    gives the token alone. *)
Theorem tokens_are_clean (k u : string) :
  u ∈ keytoset k ->
  Str.is_empty u = false /\ sep_free u = true
  /\ Str.contains "Duo" u = false /\ keytoset u = {[ u ]}.
Proof.
  intros H%keytoset_stable. pose proof H as (Hn & Hs & Ht).
  split_and!; [done|done|by apply stable_no_duo|].
  change u with (Str.join " " [u]) at 1. rewrite keytoset_join.
  - set_solver.
  - by constructor.
Qed.

Lemma tokens_of_8730B_are_clean :
  Str.is_empty "8730" = false /\ sep_free "8730" = true
  /\ Str.contains "Duo" "8730" = false /\ keytoset "8730" = {[ "8730" ]}.
Proof.
  apply (tokens_are_clean "AMD PRO A10-8730B R5, 10 COMPUTE CORES 4C+6G @ 3.45GHz").
  vm_compute. reflexivity.
Defined.

Lemma rep_bound p s : forall lo h c rest,
  (c, rest) ∈ Re.rep p lo (Some h) s -> (String.length c <= h)%nat.
Proof.
  induction s as [|a s IH]; intros lo h c rest.
  - cbn [Re.rep]. destruct lo; [|by intros ?%elem_of_nil].
    intros [= -> ->]%list_elem_of_singleton. simpl. lia.
  - cbn [Re.rep].
    assert (Hstop : (c, rest) ∈ match lo with
                                | O => [(EmptyString, String a s)]
                                | S _ => []
                                end -> (String.length c <= h)%nat).
    { destruct lo; [|by intros ?%elem_of_nil].
      intros [= -> ->]%list_elem_of_singleton. simpl. lia. }
    destruct (p a && Re.hi_open (Some h)) eqn:E; [|done].
    apply andb_true_iff in E as [_ Eh]. destruct h as [|h]; [done|].
    intros [H|H]%elem_of_app; [|by apply Hstop].
    apply list_elem_of_In, in_map_iff in H as [[c' rest'] [[= <- <-] H]].
    apply list_elem_of_In in H. cbn [fmap option_fmap option_map Nat.pred] in H.
    apply IH in H. simpl. lia.
Qed.

Lemma ms_cls_in p at0 s g (m : Re.result) :
  m ∈ Re.ms (Re.Cls p) at0 s g ->
  exists c s', s = String c s' /\ p c = true /\ m = (String c EmptyString, s', g).
Proof.
  cbn [Re.ms]. destruct s as [|c s']; [by intros ?%elem_of_nil|].
  destruct (p c) eqn:E; [|by intros ?%elem_of_nil].
  intros ->%list_elem_of_singleton. by exists c, s'.
Qed.

(** X13.  The model code that DESPERATE_1 reads from a query is one
    capital letter followed by one to four digits, and it stands in the
    query, on its first line. *)
Theorem model_code_shape (x : string) (m : Re.groups) :
  Re.re_match Pat.model x = Some m ->
  exists c ds pre post,
    Re.group "model" m = String c ds
    /\ Chr.is_upper c = true /\ Str.all Chr.is_digit ds = true
    /\ (1 <= String.length ds <= 4)%nat
    /\ x = pre +:+ String c ds +:+ post
    /\ Str.all Chr.is_dot pre = true.
Proof.
  intros (c0 & rest & H)%re_match_in. unfold Pat.model in H.
  apply ms_seq_in in H as (m1 & m2 & H1 & H2 & E).
  apply ms_rep_in in H1 as (pre & r1 & Hpre & ->). cbn [fst snd] in H2.
  apply ms_seq_in in H2 as (mg & m3 & Hg & H3 & ->).
  apply ms_grp_in in Hg as (mk & Hk & ->).
  apply ms_seq_in in Hk as (mc & md & Hc & Hd & ->).
  apply ms_cls_in in Hc as (c & s' & -> & Hup & ->). cbn [fst snd] in Hd.
  apply ms_rep_in in Hd as (ds & r2 & Hds & ->). cbn [fst snd] in H3.
  apply ms_rep_in in H3 as (post & r3 & Hpost & ->).
  cbn [fst snd] in E. injection E as _ _ ->.
  pose proof (rep_bound _ _ _ _ _ _ Hds) as Hhi.
  apply rep_sound in Hpre as (Hdot & _ & ->).
  apply rep_sound in Hds as (Hdig & Hlo & ->).
  apply rep_sound in Hpost as (_ & _ & ->).
  exists c, ds, pre, (post +:+ r3). cbn [Re.group String.eqb Ascii.eqb Bool.eqb].
  split_and!; try done.
Qed.

Lemma model_code_of_pentium :
  exists c ds pre post,
    Re.group "model" [("model", "T4500")] = String c ds
    /\ Chr.is_upper c = true /\ Str.all Chr.is_digit ds = true
    /\ (1 <= String.length ds <= 4)%nat
    /\ "Pentium T4500" = pre +:+ String c ds +:+ post
    /\ Str.all Chr.is_dot pre = true.
Proof.
  apply (model_code_shape "Pentium T4500" [("model", "T4500")]).
  vm_compute. reflexivity.
Defined.

(** ** Tokens of a text in parts *)

Lemma rep_sep_head s :
  exists h r tl, Re.rep Chr.is_sep 0 None s = (h, r) :: tl
                 /\ String.length h = sep_run s.
Proof.
  induction s as [|c s (h & r & tl & IH & Hl)]; [by eexists _, _, _|].
  rewrite rep_star_cons. cbn [sep_run].
  destruct (Chr.is_sep c); [|by eexists _, _, _].
  rewrite IH. cbn [map app fst snd]. eexists _, _, _. split; [done|].
  simpl. by rewrite Hl.
Qed.

(** A match of the separators takes the whole run. *)
Lemma match_len_sep_exact b c s :
  Chr.is_sep c = true ->
  Re.match_len Pat.separators b (String c s) = Some (sep_run s).
Proof.
  intros H. unfold Re.match_len, Pat.separators.
  cbn [Re.ms Re.rep Re.hi_open Nat.pred fmap option_fmap option_map]. rewrite H. cbn [andb].
  destruct (rep_sep_head s) as (h & r & tl & -> & Hl).
  cbn [map app fst snd String.length]. by rewrite Hl.
Qed.

Lemma tokens_of_pieces_cons t l :
  tokens_of_pieces (t :: l) = tokens_of t ∪ tokens_of_pieces l.
Proof. reflexivity. Qed.

Lemma tokens_of_empty : tokens_of EmptyString = ∅.
Proof. reflexivity. Qed.

(** Passing the rest of a run of separators gives no token. *)
Lemma skip_run_tokens s :
  tokens_of_pieces (Re.split_go Pat.separators false (sep_run s) EmptyString s)
  = tokens_of_pieces (Re.split_go Pat.separators false 0 EmptyString s).
Proof.
  destruct s as [|e s]; [done|]. cbn [sep_run].
  destruct (Chr.is_sep e) eqn:Ee; [|done].
  rewrite split_go_cons0, (match_len_sep_exact false e s Ee).
  rewrite tokens_of_pieces_cons, tokens_of_empty. cbn [Re.split_go]. set_solver.
Qed.

Lemma split_at_sep b cur c s :
  Chr.is_sep c = true ->
  tokens_of_pieces (Re.split_go Pat.separators b 0 cur (String c s))
  = tokens_of cur ∪ tokens_of_pieces (Re.split_go Pat.separators false 0 EmptyString s).
Proof.
  intros Hc. rewrite split_go_cons0, (match_len_sep_exact b c s Hc).
  by rewrite tokens_of_pieces_cons, skip_run_tokens.
Qed.

Lemma split_concat a : forall cur c b,
  Chr.is_sep c = true ->
  tokens_of_pieces (Re.split_go Pat.separators false 0 cur (a +:+ String c b))
  = tokens_of_pieces (Re.split_go Pat.separators false 0 cur a)
    ∪ tokens_of_pieces (Re.split_go Pat.separators false 0 EmptyString b).
Proof.
  induction a as [|d a IH]; intros cur c b Hc.
  - change (EmptyString +:+ String c b) with (String c b).
    rewrite (split_at_sep false cur c b Hc).
    cbn [Re.split_go]. rewrite tokens_of_pieces_cons.
    change (tokens_of_pieces []) with (∅ : gset string).
    generalize (tokens_of cur), (tokens_of_pieces
      (Re.split_go Pat.separators false 0 EmptyString b)).
    intros X Y. set_solver.
  - change (String d a +:+ String c b) with (String d (a +:+ String c b)).
    destruct (Chr.is_sep d) eqn:Ed.
    + rewrite !(split_at_sep false cur d _ Ed), (IH EmptyString c b Hc). set_solver.
    + rewrite !split_go_cons0, !(match_len_sep_none false d _ Ed). by apply IH.
Qed.

Lemma keytoset_pieces k :
  keytoset k = tokens_of_pieces (Re.split_go Pat.separators false 0 EmptyString k).
Proof. rewrite keytoset_union. unfold Re.re_split. by rewrite split_go_at0. Qed.

(** X14.  The tokens of two texts joined by a separator of the tokenizer
    are the tokens of the one and of the other: the tokenizer reads
    nothing across a separator, and separators at the start, at the end
    or in a row give no token. *)
Theorem keytoset_of_joined_texts (a b : string) (c : ascii) :
  Chr.is_sep c = true ->
  keytoset (a +:+ String c b) = keytoset a ∪ keytoset b
  /\ keytoset (String c b) = keytoset b
  /\ keytoset (a +:+ String c EmptyString) = keytoset a
  /\ keytoset (a +:+ String c (String c b)) = keytoset (a +:+ String c b).
Proof.
  intros Hc.
  assert (H : forall a b, keytoset (a +:+ String c b) = keytoset a ∪ keytoset b).
  { intros a' b'. rewrite !keytoset_pieces. by apply split_concat. }
  assert (H0 : keytoset EmptyString = ∅) by reflexivity.
  split_and!.
  - apply H.
  - change (String c b) with (EmptyString +:+ String c b).
    rewrite (H EmptyString b), H0. set_solver.
  - rewrite (H a EmptyString), H0. set_solver.
  - rewrite (H a (String c b)), H.
    change (String c b) with (EmptyString +:+ String c b).
    rewrite (H EmptyString b), H0. set_solver.
Qed.

Lemma keytoset_of_celeron_with_spaces :
  keytoset ("Intel Celeron" +:+ String " " " J1900")
  = keytoset "Intel Celeron" ∪ keytoset " J1900"
  /\ keytoset (String " " " J1900") = keytoset " J1900"
  /\ keytoset ("Intel Celeron" +:+ String " " EmptyString) = keytoset "Intel Celeron"
  /\ keytoset ("Intel Celeron" +:+ String " " (String " " " J1900"))
     = keytoset ("Intel Celeron" +:+ String " " " J1900").
Proof.
  apply (keytoset_of_joined_texts "Intel Celeron" " J1900" " ").
  reflexivity.
Defined.

(** ** What the test harness returns *)

Lemma MatchStep_name_inj m m' : MatchStep_name m = MatchStep_name m' -> m = m'.
Proof. destruct m, m'; (reflexivity || discriminate). Qed.

Lemma map_pair_eta {A B : Type} (l : list (A * B)) : map (fun o => (o.1, o.2)) l = l.
Proof. induction l as [|[a b] l IH]; [done|]. simpl. by rewrite IH. Qed.

Lemma turn_effect idx threshold l item l' :
  Stat.turn idx threshold l item = Ok l' ->
  Stat.stats l'
  = Dict.set (MatchStep_name (step_of idx item))
             (S (Dict.get_default (Stat.stats l) (MatchStep_name (step_of idx item)) 0%nat))
             (Stat.stats l)
  /\ Stat.missed l'
     = (Stat.missed l ++ if unmarked idx item then [item] else [])%list.
Proof.
  unfold Stat.turn, step_of, unmarked. cbv zeta.
  destruct (truthy (answer_mark (nmatch idx item.1))).
  - unfold mbind, outcome_bind.
    destruct (Stat.compute_figures _ _) as [fig|]; [|done].
    intros [= <-]. cbn [Stat.stats Stat.missed negb]. by rewrite app_nil_r.
  - intros [= <-]. cbn [Stat.stats Stat.missed negb].
    rewrite map_pair_eta. by destruct item.
Qed.

Lemma loop_effect idx threshold items : forall l l',
  (forall m, is_Some (Dict.get (Stat.stats l) (MatchStep_name m))) ->
  Stat.loop idx threshold l items = Ok l' ->
  Dict.keys (Stat.stats l') = Dict.keys (Stat.stats l)
  /\ (forall m, Dict.get (Stat.stats l') (MatchStep_name m)
                = (fun n => (n + answered_at idx m items)%nat)
                    <$> Dict.get (Stat.stats l) (MatchStep_name m))
  /\ Stat.missed l' = (Stat.missed l ++ List.filter (unmarked idx) items)%list.
Proof.
  induction items as [|item items IH]; intros l l' Hall.
  - intros [= <-]. split_and!; [done| |by rewrite app_nil_r].
    intros m. destruct (Hall m) as [n ->]. unfold answered_at. simpl.
    by rewrite Nat.add_0_r.
  - cbn [Stat.loop]. unfold mbind, outcome_bind.
    destruct (Stat.turn idx threshold l item) as [l1|] eqn:E1; [|done].
    apply turn_effect in E1 as [Es Em]. intros H.
    assert (Hget : forall m, Dict.get (Stat.stats l1) (MatchStep_name m)
      = (fun n => (n + Stat.count (bool_decide (step_of idx item = m)))%nat)
          <$> Dict.get (Stat.stats l) (MatchStep_name m)).
    { intros m. rewrite Es, dict_get_set. unfold Dict.get_default.
      destruct (Hall m) as [n Hn]. rewrite Hn.
      destruct (String.eqb _ _) eqn:Eq.
      - apply String.eqb_eq, MatchStep_name_inj in Eq. rewrite Eq, Hn.
        rewrite bool_decide_eq_true_2 by done. simpl. f_equal. lia.
      - apply String.eqb_neq in Eq. rewrite bool_decide_eq_false_2 by congruence.
        simpl. f_equal. lia. }
    apply IH in H as (Hk & Hg & Hm).
    2:{ intros m. rewrite Hget. destruct (Hall m) as [n ->]. by eexists. }
    split_and!.
    + rewrite Hk, Es, dict_set_keys. rewrite bool_decide_eq_true_2; [done|].
      destruct (Hall (step_of idx item)) as [n Hn].
      clear -Hn. induction (Stat.stats l) as [|[k0 v0] d IHd]; [done|].
      simpl in Hn |- *. destruct (String.eqb k0 _) eqn:E.
      * apply String.eqb_eq in E as ->. apply elem_of_cons. by left.
      * apply elem_of_cons. right. by apply IHd.
    + intros m. rewrite Hg, Hget. destruct (Hall m) as [n ->]. simpl. f_equal.
      unfold answered_at. cbn [List.filter].
      destruct (bool_decide (step_of idx item = m)); simpl; lia.
    + rewrite Hm, Em. cbn [List.filter]. rewrite <- app_assoc.
      by destruct (unmarked idx item).
Qed.

Lemma start_has_all_steps m :
  Dict.get (Stat.stats Stat.start) (MatchStep_name m) = Some 0%nat.
Proof. by destruct m. Qed.

Lemma loop_app idx threshold a : forall l b,
  Stat.loop idx threshold l (a ++ b)%list
  = (l1 ← Stat.loop idx threshold l a; Stat.loop idx threshold l1 b).
Proof.
  induction a as [|item a IH]; intros l b; [done|].
  cbn [app Stat.loop]. unfold mbind, outcome_bind.
  destruct (Stat.turn idx threshold l item) as [l1|]; [|done]. apply IH.
Qed.

(** X15.  When the harness returns, its first result has exactly the
    names of the steps as keys, in their order, each with the number of
    items answered at that step (no increment ever meets a missing key),
    and its second result is the list of the items answered with mark 0,
    in their order and with their observed marks as given. *)
Theorem test_returns_counts_and_misses
  (idx : index) (items : list (string * list (Z * string))) (threshold : float)
  (st : Dict.dict nat) (ms : list (string * list (Z * string))) :
  Stat.test idx items threshold = Ok (st, ms) ->
  Dict.keys st = map MatchStep_name all_steps
  /\ (forall m, Dict.get st (MatchStep_name m) = Some (answered_at idx m items))
  /\ ms = List.filter (unmarked idx) items.
Proof.
  unfold Stat.test, mbind, outcome_bind.
  destruct (Stat.loop idx threshold Stat.start items) as [l|] eqn:E; [|done].
  intros [= <- <-].
  apply loop_effect in E as (Hk & Hg & Hm).
  2:{ intros m. rewrite start_has_all_steps. by eexists. }
  split_and!; [by rewrite Hk| |by rewrite Hm].
  intros m. by rewrite Hg, start_has_all_steps.
Qed.

Lemma test_on_observed_names :
  let idx := data (build rows_3638).1 in
  let st := [("FAILED", 1%nat); ("SIMPLE_0", 0%nat); ("SIMPLE_1", 1%nat);
             ("SIMPLE_2", 0%nat); ("SIMPLE_3", 0%nat); ("CLEVER_1", 0%nat);
             ("CLEVER_2", 0%nat); ("CLEVER_3_1", 0%nat); ("CLEVER_3_2", 0%nat);
             ("DESPERATE_1", 0%nat)] in
  let ms := [("Unknown chip", [(100, "x.csv")])] in
  Stat.test idx observed_names 3%float = Ok (st, ms)
  /\ Dict.keys st = map MatchStep_name all_steps
  /\ (forall m, Dict.get st (MatchStep_name m) = Some (answered_at idx m observed_names))
  /\ ms = List.filter (unmarked idx) observed_names.
Proof.
  intros idx st ms.
  assert (H : Stat.test idx observed_names 3%float = Ok (st, ms))
    by (vm_compute; reflexivity).
  split; [exact H|].
  exact (test_returns_counts_and_misses idx observed_names 3%float st ms H).
Defined.

(** X16.  An item whose name is answered with a mark and whose list of
    observed marks is empty stops the harness with a ZeroDivisionError,
    whatever the threshold and whatever follows the item: nothing is
    returned for the items before it either. *)
Theorem test_stops_on_empty_observations
  (idx : index) (threshold : float) (nam : string)
  (before after : list (string * list (Z * string)))
  (r : Dict.dict nat * list (string * list (Z * string))) :
  Stat.test idx before threshold = Ok r ->
  answer_mark (nmatch idx nam) <> 0 ->
  Stat.test idx (before ++ (nam, []) :: after) threshold = Raise ZeroDivisionError.
Proof.
  unfold Stat.test. intros Hb Hm. rewrite loop_app.
  unfold mbind, outcome_bind in Hb |- *.
  destruct (Stat.loop idx threshold Stat.start before) as [l|]; [|done].
  cbn [Stat.loop]. unfold Stat.turn. cbv zeta. cbn [fst snd].
  apply truthy_nonzero in Hm. rewrite Hm.
  unfold mbind, outcome_bind.
  replace (Stat.compute_figures (answer_mark (nmatch idx nam)) [])
    with (@Raise Stat.figures ZeroDivisionError); [done|].
  symmetry. vm_compute. reflexivity.
Qed.

Lemma test_stops_on_i7_without_observations :
  let idx := data (build rows_3638).1 in
  Stat.test idx ([("Unknown chip", [(100, "x.csv")])]
                 ++ (i7_query, []) :: observed_names) 3%float
  = Raise ZeroDivisionError.
Proof.
  intros idx.
  refine (test_stops_on_empty_observations idx 3%float i7_query
            [("Unknown chip", [(100, "x.csv")])] observed_names _ _ _).
  - vm_compute. reflexivity.
  - vm_compute. discriminate.
Defined.
